(** * SimpleParsing: argument parsers derived from dataclasses

    A shallow embedding of [simple_parsing/parsing.py] (the parser facade:
    option declarations, single- and multi-instance reconstruction,
    [parse_args]) and of [simple_parsing/wrappers/dataclass_wrapper.py]
    (wrapper construction, [set_default], [merge]), together with the
    properties the specification states about them.

    Python objects are an inductive type [value]; a raised exception is the
    [Raise] branch of the [result] type; dictionaries whose iteration order
    the code relies on are association lists updated the way a Python dict
    is ([dict_set]); the parsed namespace is a [gmap string value]; a Python
    [set] of names is a [gset string]. *)

From stdpp Require Import base gmap strings list fin_maps pretty.

Set Warnings "-register-all,-clear-no-such-hyp".
Local Open Scope string_scope.
Local Open Scope list_scope.

(** ** Python values and exceptions *)

Inductive value :=
| VNone
| VBool (b : bool)
| VInt (z : Z)
| VStr (s : string)
| VList (items : list value)
| VTuple (items : list value)
| VDict (entries : list (string * value))
| VEnum (cls name : string) (payload : value)
| VInstance (cls : string) (attrs : list (string * value)).

(** The exceptions the modelled code raises.  The payloads are the values
    interpolated into the message; [InconsistentArgumentError] is a subclass
    of [RuntimeError] in the source. *)
Inductive exn :=
| KeyError (key : value)
| TypeError (msg : string)
| AttributeError (attr : string)
| AssertionError
| ArgumentTypeError (field : string) (got : value)
| ArgumentError (option_string : string)
| InconsistentArgumentError (field : string) (count expected : nat)
| NotImplementedError (field : string)
| RuntimeError (unknown : list string) (cls : string) (dest : string)
| SystemExit (code : Z).

Inductive result (A : Type) :=
| Ok (a : A)
| Raise (e : exn).
Arguments Ok {A} a.
Arguments Raise {A} e.

Definition bind {A B} (m : result A) (k : A -> result B) : result B :=
  match m with
  | Ok a => k a
  | Raise e => Raise e
  end.

Notation "'let*' x ':=' m 'in' k" := (bind m (fun x => k))
  (at level 10, x name, m at level 100, k at level 200).

Definition is_ok {A} (m : result A) : bool :=
  match m with Ok _ => true | Raise _ => false end.

(** [for x in xs: acc = body(acc, x)], stopping at the first exception. *)
Fixpoint for_each {A S} (body : S -> A -> result S) (xs : list A) (acc : S)
  : result S :=
  match xs with
  | [] => Ok acc
  | x :: xs' => let* acc' := body acc x in for_each body xs' acc'
  end.

(** ** Python primitives used by the code *)

(** Truth value of an object ([bool(v)]): plain [enum.Enum] members and
    dataclass instances define neither [__bool__] nor [__len__]. *)
Definition truthy (v : value) : bool :=
  match v with
  | VNone => false
  | VBool b => b
  | VInt z => negb (Z.eqb z 0)
  | VStr s => negb (String.eqb s "")
  | VList l | VTuple l => negb (Nat.eqb (length l) 0)
  | VDict kvs => negb (Nat.eqb (length kvs) 0)
  | VEnum _ _ _ => true
  | VInstance _ _ => true
  end.

Definition py_not (v : value) : value := VBool (negb (truthy v)).

(** [isinstance(v, list)] and [isinstance(v, (list, tuple))]. *)
Definition isinstance_list (v : value) : bool :=
  match v with VList _ => true | _ => false end.

Definition isinstance_list_or_tuple (v : value) : bool :=
  match v with VList _ | VTuple _ => true | _ => false end.

(** [len(v)] for the containers; the code only calls it on lists. *)
Definition py_len (v : value) : result nat :=
  match v with
  | VList l | VTuple l => Ok (length l)
  | VDict kvs => Ok (length kvs)
  | VStr s => Ok (String.length s)
  | _ => Raise (TypeError "object has no len()")
  end.

(** [v[i]] on a list or tuple, for a non-negative index. *)
Definition py_index (v : value) (i : nat) : result value :=
  match v with
  | VList l | VTuple l =>
      match l !! i with
      | Some x => Ok x
      | None => Raise (TypeError "index out of range")
      end
  | _ => Raise (TypeError "object is not subscriptable")
  end.

Fixpoint chars (s : string) : list value :=
  match s with
  | EmptyString => []
  | String c s' => VStr (String c EmptyString) :: chars s'
  end.

(** The items [list(v)] / [tuple(v)] collect from an iterable [v]. *)
Definition py_iter (v : value) : result (list value) :=
  match v with
  | VList l | VTuple l => Ok l
  | VStr s => Ok (chars s)
  | VDict kvs => Ok (map (fun kv => VStr kv.1) kvs)
  | _ => Raise (TypeError "object is not iterable")
  end.

(** A [dict] with string keys, in insertion order. *)
Fixpoint dict_get (d : list (string * value)) (k : string) : option value :=
  match d with
  | [] => None
  | (k', v) :: d' => if String.eqb k' k then Some v else dict_get d' k
  end.

(** [d[k] = v]: an existing key keeps its position. *)
Fixpoint dict_set (d : list (string * value)) (k : string) (v : value)
  : list (string * value) :=
  match d with
  | [] => [(k, v)]
  | (k', v') :: d' =>
      if String.eqb k' k then (k', v) :: d' else (k', v') :: dict_set d' k v
  end.

Definition dict_keys (d : list (string * value)) : list string := map fst d.

(** [getattr(obj, name)]. *)
Definition getattr (obj : value) (name : string) : result value :=
  match obj with
  | VInstance _ attrs =>
      match dict_get attrs name with
      | Some v => Ok v
      | None => Raise (AttributeError name)
      end
  | _ => Raise (AttributeError name)
  end.

(** [ns[k]] on the namespace dictionary [vars(args)]. *)
Definition getitem (args_dict : gmap string value) (k : string) : result value :=
  match args_dict !! k with
  | Some v => Ok v
  | None => Raise (KeyError (VStr k))
  end.

(** [", ".join(parts)] and the like. *)
Fixpoint join (sep : string) (parts : list string) : string :=
  match parts with
  | [] => ""
  | [p] => p
  | p :: ps => p +:+ sep +:+ join sep ps
  end.

(** ** The schema: enumerations, fields, dataclasses *)

(** An [enum.Enum] subclass, by the two tables [EnumMeta] keeps:
    [_member_names_] (the canonical names, in definition order, which is what
    iterating the class follows) and [_member_map_] (every name, aliases
    included, to its member, which is what [cls[name]] consults). *)
Record EnumClass := mkEnumClass {
  enum_qualname : string;
  _member_names_ : list string;
  _member_map_ : list (string * value)
}.

(** [list(cls)]: the members behind the canonical names. *)
Definition enum_iter (E : EnumClass) : list value :=
  omap (dict_get (_member_map_ E)) (_member_names_ E).

(** [cls[key]]. *)
Definition enum_getitem (E : EnumClass) (key : value) : result value :=
  match key with
  | VStr n =>
      match dict_get (_member_map_ E) n with
      | Some m => Ok m
      | None => Raise (KeyError key)
      end
  | _ => Raise (KeyError key)
  end.

(** [e.name] and [e.value] of a member. *)
Definition enum_name (m : value) : string :=
  match m with VEnum _ n _ => n | _ => "" end.

Definition enum_value (m : value) : value :=
  match m with VEnum _ _ v => v | _ => VNone end.

Definition isinstance_Enum (v : value) : bool :=
  match v with VEnum _ _ _ => true | _ => false end.

(** What [docstring.get_attribute_docstring] returns for a field. *)
Record AttributeDocString := mkAttributeDocString {
  comment_above : string;
  comment_inline : string;
  docstring_below : string
}.

(** A [dataclasses.Field].  [f_default] and [f_default_factory] are [None]
    for [dataclasses.MISSING]; a factory is held by the value it produces;
    [f_doc] is what the documentation extractor finds for the field. *)
Record Field (T : Type) := mkField {
  f_name : string;
  f_type : T;
  f_default : option value;
  f_default_factory : option value;
  f_init : bool;
  f_metadata : list (string * value);
  f_doc : option AttributeDocString
}.
Arguments mkField {T}.
Arguments f_name {T}.
Arguments f_type {T}.
Arguments f_default {T}.
Arguments f_default_factory {T}.
Arguments f_init {T}.
Arguments f_metadata {T}.
Arguments f_doc {T}.

(** A dataclass.  [class_id] stands for the identity of the class object:
    two classes are the same key of a dictionary when they are the same
    object, whatever their qualified names. *)
Record DataclassOf (T : Type) := mkDataclass {
  class_id : nat;
  qualname : string;
  dc_doc : option string;
  dc_fields : list (Field T)
}.
Arguments mkDataclass {T}.
Arguments class_id {T}.
Arguments qualname {T}.
Arguments dc_doc {T}.
Arguments dc_fields {T}.

(** Declared field types, annotations already evaluated. *)
Inductive ftype :=
| TBool
| TInt
| TFloat
| TStr
| TEnum (E : EnumClass)
| TList (T : ftype)
| TTuple (T : ftype)
| TOptional (T : ftype)
| TUnion (Ts : list ftype)
| TDataclass (D : DataclassOf ftype).

Abbreviation Dataclass := (DataclassOf ftype).
Abbreviation DataclassField := (Field ftype).

(** ** [parsing.py]: option declarations *)

(** Modelled from the spec: the type tests of [utils] ([is_tuple],
    [is_list], [is_tuple_or_list]) and [utils.get_argparse_container_type],
    whose file is not part of the sources: a sequence-of-T type is a list or
    a tuple annotation, and its converter parses each raw token as T. *)
Definition is_tuple (T : ftype) : bool :=
  match T with TTuple _ => true | _ => false end.

Definition is_list (T : ftype) : bool :=
  match T with TList _ => true | _ => false end.

Definition is_tuple_or_list (T : ftype) : bool := is_tuple T || is_list T.

Definition get_argparse_container_type (T : ftype) : ftype :=
  match T with
  | TList A | TTuple A => A
  | _ => TStr
  end.

(** [T.mro()]: a class has a method resolution order, and a [List] or
    [Tuple] alias forwards the attribute to [list] or [tuple]; an [Optional]
    or [Union] form has no such attribute. *)
Definition has_mro (T : ftype) : bool :=
  match T with
  | TOptional _ | TUnion _ => false
  | _ => true
  end.

(** [enum.Enum in T.mro()]: the enumeration when the test holds. *)
Definition Enum_in_mro (T : ftype) : result (option EnumClass) :=
  if has_mro T then
    Ok (match T with TEnum E => Some E | _ => None end)
  else Raise (AttributeError "mro").

(** [T is bool], and the annotation is an enumeration. *)
Definition is_enum (T : ftype) : bool :=
  match T with TEnum _ => true | _ => false end.

Definition is_bool (T : ftype) : bool :=
  match T with TBool => true | _ => false end.

(** The callables stored under ["type"]: a type object used as a converter
    ([str] is [conv_type TStr]), [utils.str2bool], or the converter
    [utils._parse_multiple_containers(T)] builds. *)
Inductive converter :=
| conv_type (T : ftype)
| conv_str2bool
| conv_parse_multiple_containers (T : ftype).

(** The [arg_options] dictionary: a key that is absent is [None]; ["type"]
    is always present. *)
Record ArgOptions := mkArgOptions {
  opt_type : converter;
  opt_help : option string;
  opt_default : option value;
  opt_required : option bool;
  opt_choices : option (list string);
  opt_nargs : option string
}.

Definition opt_set_type (c : converter) (o : ArgOptions) : ArgOptions :=
  mkArgOptions c (opt_help o) (opt_default o) (opt_required o)
    (opt_choices o) (opt_nargs o).
Definition opt_set_help (h : string) (o : ArgOptions) : ArgOptions :=
  mkArgOptions (opt_type o) (Some h) (opt_default o) (opt_required o)
    (opt_choices o) (opt_nargs o).
Definition opt_set_default (d : value) (o : ArgOptions) : ArgOptions :=
  mkArgOptions (opt_type o) (opt_help o) (Some d) (opt_required o)
    (opt_choices o) (opt_nargs o).
Definition opt_set_required (r : bool) (o : ArgOptions) : ArgOptions :=
  mkArgOptions (opt_type o) (opt_help o) (opt_default o) (Some r)
    (opt_choices o) (opt_nargs o).
Definition opt_set_choices (c : list string) (o : ArgOptions) : ArgOptions :=
  mkArgOptions (opt_type o) (opt_help o) (opt_default o) (opt_required o)
    (Some c) (opt_nargs o).
Definition opt_set_nargs (n : string) (o : ArgOptions) : ArgOptions :=
  mkArgOptions (opt_type o) (opt_help o) (opt_default o) (opt_required o)
    (opt_choices o) (Some n).

Definition nonempty (s : string) : bool := negb (String.eqb s "").

(** [if doc is not None: ...]: the first non-empty of the three texts. *)
Definition with_help (f : DataclassField) (o : ArgOptions) : ArgOptions :=
  match f_doc f with
  | Some doc =>
      if nonempty (docstring_below doc) then opt_set_help (docstring_below doc) o
      else if nonempty (comment_above doc) then opt_set_help (comment_above doc) o
      else if nonempty (comment_inline doc) then opt_set_help (comment_inline doc) o
      else o
  | None => o
  end.

(** The default, the factory's product, or [required=True]. *)
Definition with_default_or_required (f : DataclassField) (o : ArgOptions) : ArgOptions :=
  match f_default f with
  | Some d => opt_set_default d o
  | None =>
      match f_default_factory f with
      | Some v => opt_set_default v o
      | None => opt_set_required true o
      end
  end.

(** The body of the loop of [_add_arguments]: the [arg_options] passed to
    [group.add_argument] for the field [f], or the exception of the test on
    the annotation. *)
Definition field_arg_options (multiple : bool) (f : DataclassField)
  : result ArgOptions :=
  let arg_options := mkArgOptions (conv_type (f_type f)) None None None None None in
  let arg_options := with_help f arg_options in
  let arg_options := with_default_or_required f arg_options in
  let* enum := Enum_in_mro (f_type f) in
  match enum with
  | Some E =>
      let arg_options := opt_set_choices (map enum_name (enum_iter E)) arg_options in
      let arg_options := opt_set_type (conv_type TStr) arg_options in
      match opt_default arg_options with
      | Some default_value =>
          if isinstance_Enum default_value
          then Ok (opt_set_default (VStr (enum_name default_value)) arg_options)
          else Ok arg_options
      | None => Ok arg_options
      end
  | None =>
      if is_tuple_or_list (f_type f) then
        let T := get_argparse_container_type (f_type f) in
        let arg_options := opt_set_nargs "*" arg_options in
        if multiple
        then Ok (opt_set_type (conv_parse_multiple_containers (f_type f)) arg_options)
        else Ok (opt_set_type (conv_type T) arg_options)
      else if is_bool (f_type f) then
        let arg_options :=
          opt_set_default (match f_default f with
                       | None => VBool false
                       | Some d => d
                       end) arg_options in
        let arg_options := opt_set_type conv_str2bool arg_options in
        let arg_options := opt_set_nargs (if multiple then "*" else "?") arg_options in
        match f_default f with
        | None => Ok (opt_set_required true arg_options)
        | Some _ => Ok arg_options
        end
      else if multiple then
        let required :=
          match opt_required arg_options with Some r => r | None => false end in
        if required then Ok (opt_set_nargs "+" arg_options)
        else Ok (opt_set_nargs "*" arg_options)
      else Ok arg_options
  end.

(** An argument group of the engine with the options registered in it. *)
Record ArgumentGroup := mkArgumentGroup {
  title : string;
  description : option string;
  group_actions : list (string * ArgOptions)
}.

(** The parser facade: the deferred requests ([_args_to_add], a
    [defaultdict(list)] keyed by the class object, in insertion order) and
    the groups registered with the engine so far. *)
Record ArgumentParser := mkArgumentParser {
  _args_to_add : list (Dataclass * list string);
  _action_groups : list ArgumentGroup
}.

(** Two keys of [_args_to_add] are the same when they are the same class
    object. *)
Definition same_class (D D' : Dataclass) : bool :=
  Nat.eqb (class_id D) (class_id D').

(** [self._args_to_add[dataclass].append(dest)]. *)
Fixpoint append_dest (tbl : list (Dataclass * list string)) (D : Dataclass)
    (dest : string) : list (Dataclass * list string) :=
  match tbl with
  | [] => [(D, [dest])]
  | (D', dests) :: tbl' =>
      if same_class D' D then (D', dests ++ [dest]) :: tbl'
      else (D', dests) :: append_dest tbl' D dest
  end.

Definition add_arguments (self : ArgumentParser) (D : Dataclass) (dest : string)
  : ArgumentParser :=
  mkArgumentParser (append_dest (_args_to_add self) D dest) (_action_groups self).

(** [self._args_to_add[dataclass]]: reading a missing key of a
    [defaultdict(list)] yields (and stores) the empty list. *)
Fixpoint args_to_add_get (tbl : list (Dataclass * list string)) (D : Dataclass)
  : list string :=
  match tbl with
  | [] => []
  | (D', dests) :: tbl' => if same_class D' D then dests else args_to_add_get tbl' D
  end.

Fixpoint args_to_add_touch (tbl : list (Dataclass * list string)) (D : Dataclass)
  : list (Dataclass * list string) :=
  match tbl with
  | [] => [(D, [])]
  | (D', dests) :: tbl' =>
      if same_class D' D then tbl else (D', dests) :: args_to_add_touch tbl' D
  end.

(** The option strings registered with the engine. *)
Definition option_strings (groups : list ArgumentGroup) : list string :=
  concat (map (fun group => map fst (group_actions group)) groups).

(** [group.add_argument(name, **arg_options)], the engine's registration of
    one option, with the conflict handler the engine has unless told
    otherwise (["error"]): an option string that is registered already, in
    any group of the parser, is refused with [argparse.ArgumentError];
    otherwise the declaration is recorded in the group. *)
Definition add_argument (registered : list string)
    (actions : list (string * ArgOptions)) (name : string)
    (arg_options : ArgOptions) : result (list (string * ArgOptions)) :=
  if bool_decide (name ∈ registered ++ map fst actions)
  then Raise (ArgumentError name)
  else Ok (actions ++ [(name, arg_options)]).

(** [_add_arguments]: the group is created with its title and description
    and receives one option per field, in declaration order; the first
    annotation without [mro], or the first option string that the engine
    refuses, stops the registration with its exception. *)
Definition _add_arguments (self : ArgumentParser) (D : Dataclass) (multiple : bool)
  : result ArgumentParser :=
  let names := args_to_add_get (_args_to_add self) D in
  let names_string :=
    " [" +:+ join ", " (map (fun name => "'" +:+ name +:+ "'") names) +:+ "]" in
  let* actions :=
    for_each (fun actions f =>
                let name := "--" +:+ f_name f in
                let* arg_options := field_arg_options multiple f in
                add_argument (option_strings (_action_groups self)) actions name
                  arg_options)
      (dc_fields D) [] in
  let group := mkArgumentGroup (qualname D +:+ names_string) (dc_doc D) actions in
  Ok (mkArgumentParser (args_to_add_touch (_args_to_add self) D)
        (_action_groups self ++ [group])).

(** ** [parsing.py]: reconstruction of instances *)

(** Calling the dataclass with keyword arguments, through the [__init__]
    that [dataclasses] generates: a keyword that is not an init field is
    refused, an init field without keyword takes its default or its
    factory's product, and one with neither is a missing argument. *)
Definition is_init_field (D : Dataclass) (k : string) : bool :=
  existsb (fun f => String.eqb (f_name f) k && f_init f) (dc_fields D).

Definition field_fallback (f : DataclassField) : option value :=
  match f_default f with
  | Some d => Some d
  | None => f_default_factory f
  end.

Definition bind_field (kwargs : list (string * value))
    (attrs : list (string * value)) (f : DataclassField) : result (list (string * value)) :=
  match (if f_init f then dict_get kwargs (f_name f) else None) with
  | Some v => Ok (dict_set attrs (f_name f) v)
  | None =>
      match field_fallback f with
      | Some d => Ok (dict_set attrs (f_name f) d)
      | None =>
          if f_init f then Raise (TypeError "missing required argument")
          else Ok attrs
      end
  end.

Definition dataclass_call (D : Dataclass) (kwargs : list (string * value))
  : result value :=
  match find (fun kv => negb (is_init_field D kv.1)) kwargs with
  | Some _ => Raise (TypeError "unexpected keyword argument")
  | None =>
      let* attrs := for_each (bind_field kwargs) (dc_fields D) [] in
      Ok (VInstance (qualname D) attrs)
  end.

(** The value [_instantiate_dataclass] stores in [constructor_args[f.name]],
    or the exception the field raises: the test on the annotation comes
    before the namespace is read. *)
Definition constructor_arg (f : DataclassField) (args_dict : gmap string value)
  : result value :=
  let* enum := Enum_in_mro (f_type f) in
  match enum with
  | Some E =>
      let* parsed := getitem args_dict (f_name f) in
      enum_getitem E parsed
  | None =>
      if is_tuple (f_type f) then
        let* parsed := getitem args_dict (f_name f) in
        let* items := py_iter parsed in
        Ok (VTuple items)
      else if is_list (f_type f) then
        let* parsed := getitem args_dict (f_name f) in
        let* items := py_iter parsed in
        Ok (VList items)
      else if is_bool (f_type f) then
        let* value := getitem args_dict (f_name f) in
        let default_value :=
          match f_default f with
          | None => VBool false
          | Some d => d
          end in
        match value with
        | VNone => Ok (py_not default_value)
        | VBool _ => Ok value
        | _ => Raise (ArgumentTypeError (f_name f) value)
        end
      else getitem args_dict (f_name f)
  end.

Definition _instantiate_dataclass (D : Dataclass) (args : gmap string value)
  : result value :=
  let* constructor_args :=
    for_each (fun acc f =>
                let* v := constructor_arg f args in
                Ok (dict_set acc (f_name f) v))
      (dc_fields D) [] in
  dataclass_call D constructor_args.

(** The body of the inner loop of [_instantiate_multiple_dataclasses]: what
    instance [i] of [num_instances_to_parse] receives for a field. *)
Definition instance_argument (num_instances_to_parse i : nat)
    (field_name : string) (field_values : value) : result value :=
  if negb (isinstance_list field_values) then Ok field_values
  else
    let* n := py_len field_values in
    if isinstance_list_or_tuple field_values && Nat.eqb n 0 then Ok field_values
    else if Nat.eqb n 1 then py_index field_values 0
    else if Nat.eqb n num_instances_to_parse then py_index field_values i
    else Raise (InconsistentArgumentError field_name n num_instances_to_parse).

(** The message of the [InconsistentArgumentError] raised there. *)
Definition inconsistent_message (field_name : string) (count expected : nat)
  : string :=
  "The field '" +:+ field_name +:+ "' contains " +:+ pretty count +:+
  " values, but either 1 or " +:+ pretty expected +:+ " values were expected.".

Definition instance_arguments (num_instances_to_parse : nat)
    (constructor_arguments : list (string * value)) (i : nat)
  : result (list (string * value)) :=
  for_each (fun acc kv =>
              let* v := instance_argument num_instances_to_parse i kv.1 kv.2 in
              Ok (dict_set acc kv.1 v))
    constructor_arguments [].

Definition _instantiate_multiple_dataclasses (D : Dataclass)
    (args : gmap string value) (num_instances_to_parse : nat)
  : result (list value) :=
  let* constructor_arguments :=
    for_each (fun acc f =>
                let* v := getitem args (f_name f) in
                Ok (dict_set acc (f_name f) v))
      (dc_fields D) [] in
  let* arguments_per_instance :=
    for_each (fun acc i =>
                let* instance_args :=
                  instance_arguments num_instances_to_parse
                    constructor_arguments i in
                Ok (acc ++ [instance_args]))
      (seq 0 num_instances_to_parse) [] in
  for_each (fun acc arguments_dict =>
              let* inst := dataclass_call D arguments_dict in
              Ok (acc ++ [inst]))
    arguments_per_instance [].

(** ** [parsing.py]: [parse_args] *)

(** [setattr(parsed_args, dest, instance)] over [zip(instances, destinations)]. *)
Definition bind_instances (parsed_args : gmap string value)
    (pairs : list (value * string)) : gmap string value :=
  foldl (fun ns p => <[p.2 := p.1]> ns) parsed_args pairs.

(** The second loop of [parse_args], for one requested type. *)
Definition bind_dataclass (parsed_args : gmap string value)
    (request : Dataclass * list string) : result (gmap string value) :=
  let (dataclass_to_add, destinations) := request in
  match destinations with
  | [dest] =>
      let* dataclass_instance := _instantiate_dataclass dataclass_to_add parsed_args in
      Ok (<[dest := dataclass_instance]> parsed_args)
  | _ =>
      let* dataclass_instances :=
        _instantiate_multiple_dataclasses dataclass_to_add parsed_args
          (length destinations) in
      Ok (bind_instances parsed_args (zip dataclass_instances destinations))
  end.

(** [parse_args]: the engine's own [parse_args] (the superclass method) is
    the argument [super_parse_args]; it sees the parser with every group
    registered, and is not reached when a registration raises. *)
Definition parse_args
    (super_parse_args :
       ArgumentParser -> option (list string) -> option (gmap string value) ->
       result (gmap string value))
    (self : ArgumentParser) (args : option (list string))
    (namespace : option (gmap string value))
  : result (ArgumentParser * gmap string value) :=
  let* self :=
    for_each (fun self request =>
                _add_arguments self request.1 (Nat.ltb 1 (length request.2)))
      (_args_to_add self) self in
  let* parsed_args := super_parse_args self args namespace in
  let* parsed_args := for_each bind_dataclass (_args_to_add self) parsed_args in
  Ok (self, parsed_args).

(** ** The engine's treatment of one option

    The flag-parsing engine is [argparse]; what its default (store) action
    leaves in the namespace for one optional argument is taken from its
    documentation: an option that does not occur is required or takes its
    default (a string default being converted by the ["type"] callable,
    without the check against ["choices"]); arity [None]
    takes one token, ["?"] at most one (none gives [const], which the
    declarations never set, so [None]), ["*"] any number and ["+"] at least
    one, collected in a list; a token is converted by the ["type"] callable
    and checked against ["choices"]; every failure ends the process with
    status 2.  The conversion of a raw token is the parameter [convert]. *)

Inductive occurrence :=
| NotSupplied
| Supplied (tokens : list string).

Section Engine.
Variable convert : converter -> string -> result value.

Definition engine_error {A} : result A := Raise (SystemExit 2).

Definition convert_value (o : ArgOptions) (token : string) : result value :=
  match convert (opt_type o) token with
  | Ok v => Ok v
  | Raise _ => engine_error
  end.

Definition check_value (o : ArgOptions) (v : value) : result value :=
  match opt_choices o with
  | Some cs =>
      match v with
      | VStr s => if bool_decide (s ∈ cs) then Ok v else engine_error
      | _ => engine_error
      end
  | None => Ok v
  end.

Definition get_value (o : ArgOptions) (token : string) : result value :=
  let* v := convert_value o token in check_value o v.

Definition get_values (o : ArgOptions) (tokens : list string)
  : result (list value) :=
  for_each (fun acc t => let* v := get_value o t in Ok (acc ++ [v])) tokens [].

Definition store_value (o : ArgOptions) (occ : occurrence) : result value :=
  match occ with
  | NotSupplied =>
      match opt_required o with
      | Some true => engine_error
      | _ =>
          match opt_default o with
          | Some (VStr s) => convert_value o s
          | Some d => Ok d
          | None => Ok VNone
          end
      end
  | Supplied tokens =>
      match opt_nargs o with
      | None =>
          match tokens with
          | [t] => get_value o t
          | _ => engine_error
          end
      | Some n =>
          if String.eqb n "?" then
            match tokens with
            | [] => Ok VNone
            | [t] => get_value o t
            | _ => engine_error
            end
          else if String.eqb n "*" then
            let* vs := get_values o tokens in Ok (VList vs)
          else if String.eqb n "+" then
            match tokens with
            | [] => engine_error
            | _ => let* vs := get_values o tokens in Ok (VList vs)
            end
          else engine_error
      end
  end.
End Engine.

(** ** [wrappers/dataclass_wrapper.py] *)

(** [argparse.SUPPRESS], and the test [default not in (None, argparse.SUPPRESS)]. *)
Definition SUPPRESS : value := VStr "==SUPPRESS==".

Definition is_None_or_SUPPRESS (v : value) : bool :=
  match v with
  | VNone => true
  | VStr s => String.eqb s "==SUPPRESS=="
  | _ => false
  end.

(** [dataclasses.asdict]: instances become dictionaries, recursively through
    lists, tuples and dictionaries. *)
Fixpoint asdict_inner (obj : value) : value :=
  match obj with
  | VInstance _ attrs => VDict (map (fun kv => (kv.1, asdict_inner kv.2)) attrs)
  | VList items => VList (map asdict_inner items)
  | VTuple items => VTuple (map asdict_inner items)
  | VDict entries => VDict (map (fun kv => (kv.1, asdict_inner kv.2)) entries)
  | _ => obj
  end.

Definition asdict (obj : value) : result value :=
  match obj with
  | VInstance _ _ => Ok (asdict_inner obj)
  | _ => Raise (TypeError "asdict() should be called on dataclass instances")
  end.

(** [sorted(names)]: insertion into a list ordered by [String.leb], the
    code-point order of Python's string comparison. *)
Fixpoint insert_sorted (x : string) (l : list string) : list string :=
  match l with
  | [] => [x]
  | y :: l' => if String.leb x y then x :: l else y :: insert_sorted x l'
  end.

Definition sorted (l : list string) : list string := foldr insert_sorted [] l.

(** [s.remove(x)] on a set: a missing element is a [KeyError]. *)
Definition set_remove (s : gset string) (x : string) : result (gset string) :=
  if bool_decide (x ∈ s) then Ok (s ∖ {[x]}) else Raise (KeyError (VStr x)).

(** Modelled from the spec: the type tests of [utils] the wrapper relies on,
    whose file is not part of the sources.  A container of nested records is
    a list or tuple of a dataclass type; a dataclass type argument is the
    dataclass itself or one found inside an [Optional] or [Union] wrapper;
    [default_value] is the field's own declared default (its factory's
    product otherwise), [None] standing for [MISSING]. *)
Definition is_dataclass (T : ftype) : bool :=
  match T with TDataclass _ => true | _ => false end.

Definition is_tuple_or_list_of_dataclasses (T : ftype) : bool :=
  match T with
  | TList A | TTuple A => is_dataclass A
  | _ => false
  end.

Definition get_dataclass_type_arg (T : ftype) : option ftype :=
  match T with
  | TDataclass _ => Some T
  | TOptional A => if is_dataclass A then Some A else None
  | TUnion Ts => find is_dataclass Ts
  | _ => None
  end.

Definition contains_dataclass_type_arg (T : ftype) : bool :=
  match get_dataclass_type_arg T with Some _ => true | None => false end.

Definition default_value (f : DataclassField) : option value := field_fallback f.

(** [field.default is None] ([MISSING] is not [None]). *)
Definition default_is_None (f : DataclassField) : bool :=
  match f_default f with
  | Some VNone => true
  | _ => false
  end.

(** [field.metadata.get("cmd", True) is False]. *)
Definition cmd_is_False (f : DataclassField) : bool :=
  match dict_get (f_metadata f) "cmd" with
  | Some (VBool false) => true
  | _ => false
  end.

(** Modelled from the spec: the field wrapper of [wrappers/field_wrapper.py],
    which is not part of the sources.  It wraps one field and is named after
    it; it holds a default, which [set_default] overwrites ([None] clears
    it), and the [required] flag its setter stores. *)
Module FieldWrapper.
Record t := mk {
  field : DataclassField;
  prefix : string;
  _default : value;
  _required : option bool
}.

Definition init (f : DataclassField) (prefix : string) : t :=
  mk f prefix VNone None.

Definition name (self : t) : string := f_name (field self).

Definition set_default (self : t) (value : value) : t :=
  mk (field self) (prefix self) value (_required self).

Definition set_required (self : t) (value : bool) : t :=
  mk (field self) (prefix self) (_default self) (Some value).
End FieldWrapper.

Module DataclassWrapper.

(** A wrapper owns its field wrappers and its children.  What it reads
    through [self.parent] is passed to each operation: the ancestors' names
    for [dest], a [ParentView] for [destinations] and [defaults]. *)
Inductive t := mk {
  dataclass : Dataclass;
  _name : string;
  dataclass_fn : option (list (string * value));
  _default : value;
  prefix : string;
  _field : option DataclassField;
  fields : list FieldWrapper.t;
  optional : bool;
  _destinations : list string;
  _required : bool;
  _children : list t;
  _defaults : list value
}.

Definition name (self : t) : string := _name self.

(** The [required] setter. *)
Fixpoint set_required (value : bool) (self : t) : t :=
  match self with
  | mk D n fn d p fld fs opt dests _ children defaults =>
      mk D n fn d p fld (map (fun f => FieldWrapper.set_required f value) fs)
        opt dests value (map (set_required value) children) defaults
  end.

Definition set_optional (value : bool) (self : t) : t :=
  match self with
  | mk D n fn d p fld fs _ dests req children defaults =>
      mk D n fn d p fld fs value dests req children defaults
  end.

(** The default [__init__] resolves for a field: the keyword of the partial
    [dataclass_fn], else the entry or attribute of [default], else
    [MISSING] ([None] here). *)
Definition field_default (dataclass_fn : option (list (string * value)))
    (default : value) (f : DataclassField) : result (option value) :=
  match (match dataclass_fn with
         | Some keywords => dict_get keywords (f_name f)
         | None => None
         end) with
  | Some v => Ok (Some v)
  | None =>
      match default with
      | VDict entries => Ok (dict_get entries (f_name f))
      | _ =>
          if negb (is_None_or_SUPPRESS default)
          then let* v := getattr default (f_name f) in Ok (Some v)
          else Ok None
      end
  end.

(** [dest]: the names of the ancestors, outermost first (what the walk up
    [parent] collects and reverses), then the wrapper's own, dotted. *)
Definition dest (lineage : list string) (self : t) : string :=
  join "." (lineage ++ [name self]).

(** What a wrapper reads from its parent: the values of the parent's
    [destinations] and [defaults] properties ([defaults] can raise). *)
Record ParentView := mkParentView {
  pv_destinations : list string;
  pv_defaults : result (list value)
}.

(** The [destinations] and [defaults] setters. *)
Definition with_destinations (value : list string) (self : t) : t :=
  match self with
  | mk D n fn d p fld fs opt _ req children defaults =>
      mk D n fn d p fld fs opt value req children defaults
  end.

Definition with_defaults (value : list value) (self : t) : t :=
  match self with
  | mk D n fn d p fld fs opt dests req children _ =>
      mk D n fn d p fld fs opt dests req children value
  end.

Definition with_fields (value : list FieldWrapper.t) (self : t) : t :=
  match self with
  | mk D n fn d p fld _ opt dests req children defaults =>
      mk D n fn d p fld value opt dests req children defaults
  end.

Definition with_children (value : list t) (self : t) : t :=
  match self with
  | mk D n fn d p fld fs opt dests req _ defaults =>
      mk D n fn d p fld fs opt dests req value defaults
  end.

Definition with_default (value : value) (self : t) : t :=
  match self with
  | mk D n fn _ p fld fs opt dests req children defaults =>
      mk D n fn value p fld fs opt dests req children defaults
  end.

(** The [destinations] property: the cached list, computed from the
    parent's (or from the own name, at the root) while it is empty.  The
    list returned is the one stored in [_destinations]. *)
Definition destinations (parent : option ParentView) (self : t)
  : t * list string :=
  match _destinations self with
  | [] =>
      let computed :=
        match parent with
        | Some p => map (fun d => d +:+ "." +:+ name self) (pv_destinations p)
        | None => [name self]
        end in
      (with_destinations computed self, computed)
  | stored => (self, stored)
  end.

(** The [defaults] property.  Besides the list it says whether the list
    returned is the object stored in [_defaults] ([true]) or a fresh list
    ([false], the [return []] of a wrapper without originating field):
    what the caller appends to a fresh list is lost. *)
Definition defaults (parent : option ParentView) (self : t)
  : result (t * list value * bool) :=
  match _defaults self with
  | _ :: _ => Ok (self, _defaults self, true)
  | [] =>
      match _field self with
      | None => Ok (self, [], false)
      | Some f =>
          match parent with
          | None => Raise AssertionError
          | Some p =>
              let* parent_defaults := pv_defaults p in
              match parent_defaults with
              | _ :: _ =>
                  let* computed :=
                    for_each (fun acc default =>
                                if negb (is_None_or_SUPPRESS default)
                                then let* d := getattr default (name self) in
                                     Ok (acc ++ [d])
                                else Ok (acc ++ [default]))
                      parent_defaults [] in
                  Ok (with_defaults computed self, computed, true)
              | [] =>
                  match default_value f with
                  | None => Ok (with_defaults [] self, [], true)
                  | Some v => Ok (with_defaults [v] self, [v], true)
                  end
              end
          end
      end
  end.

(** The view a wrapper gives its children and its field wrappers. *)
Definition view_of (parent : option ParentView) (self : t) : ParentView :=
  mkParentView (destinations parent self).2
    (let* r := defaults parent self in Ok r.1.2).

(** [self.destinations], read or not: the wrapper with the list the
    property caches, and whether the property read the destinations of the
    parent in turn (it does when nothing is cached and there is a parent). *)
Definition read_destinations (parent : option ParentView) (self : t)
    (read : bool) : t * bool :=
  if read then
    ((destinations parent self).1,
     match _destinations self, parent with
     | [], Some _ => true
     | _, _ => false
     end)
  else (self, false).

Definition wrap_field (f : DataclassField) (prefix : string)
    (field_default : option value) : FieldWrapper.t :=
  let field_wrapper := FieldWrapper.init f prefix in
  match field_default with
  | Some d => FieldWrapper.set_default field_wrapper d
  | None => field_wrapper
  end.

Definition or_None (field_default : option value) : value :=
  match field_default with Some d => d | None => VNone end.

Section Init.
(** [utils.is_subparser_field] and [utils.is_choice], which read the
    field's metadata, are parameters. *)
Variables is_subparser_field is_choice : DataclassField -> bool.

(** The message [__init__] formats for each plain field evaluates
    [field_wrapper.dest] and [field_wrapper.default], properties of
    [wrappers/field_wrapper.py], which is not part of the sources.  A field
    wrapper reaches the dataclass wrapper it belongs to as its [parent];
    what the evaluation does is the parameter [field_wrapper_message]: given
    the dataclass wrapper, what that wrapper reads of its own parent, and
    the field wrapper, it raises, or it returns and says whether the
    [destinations] of the dataclass wrapper were read, which caches them (a
    [defaults] that is read is cached as well, as it is at the end of
    [__init__] in any case). *)
Variable field_wrapper_message :
  option ParentView -> t -> FieldWrapper.t -> result bool.

(** The loop of [__init__] over the dataclass fields, which fills
    [self.fields] and [self._children]; [construct] is the constructor
    itself, called for a nested dataclass on the field's type with [self]
    as parent.  A child, like a field wrapper, may have read the
    destinations of [self]; [parent_read] becomes true when those of the
    parent of [self] were read for that. *)
Fixpoint wrap_fields
    (construct : ftype -> string -> value -> string -> option ParentView ->
                 option DataclassField -> option (list (string * value)) ->
                 result (t * bool))
    (parent : option ParentView)
    (dataclass_fn : option (list (string * value))) (default : value)
    (prefix : string) (dataclass_fields : list DataclassField)
    (self : t) (parent_read : bool)
  : result (t * bool) :=
  match dataclass_fields with
  | [] => Ok (self, parent_read)
  | f :: rest =>
      if negb (f_init f) || cmd_is_False f then
        wrap_fields construct parent dataclass_fn default prefix rest self
          parent_read
      else
        let* field_default := field_default dataclass_fn default f in
        if is_tuple_or_list_of_dataclasses (f_type f) then
          Raise (NotImplementedError (f_name f))
        else if is_subparser_field f || is_choice f then
          let field_wrapper := wrap_field f prefix field_default in
          wrap_fields construct parent dataclass_fn default prefix rest
            (with_fields (fields self ++ [field_wrapper]) self) parent_read
        else if is_dataclass (f_type f) && negb (default_is_None f) then
          let* built :=
            construct (f_type f) (f_name f) (or_None field_default) ""
              (Some (view_of parent self)) (Some f) None in
          let (child_wrapper, read) := built in
          let (self, up) := read_destinations parent self read in
          wrap_fields construct parent dataclass_fn default prefix rest
            (with_children (_children self ++ [child_wrapper]) self)
            (parent_read || up)
        else if contains_dataclass_type_arg (f_type f) then
          let* built :=
            construct (f_type f) (f_name f) (or_None field_default) ""
              (Some (view_of parent self)) (Some f) None in
          let (child_wrapper, read) := built in
          let (self, up) := read_destinations parent self read in
          let child_wrapper := set_required false child_wrapper in
          let child_wrapper := set_optional true child_wrapper in
          wrap_fields construct parent dataclass_fn default prefix rest
            (with_children (_children self ++ [child_wrapper]) self)
            (parent_read || up)
        else
          let field_wrapper := FieldWrapper.init f (DataclassWrapper.prefix self) in
          let* read := field_wrapper_message parent self field_wrapper in
          let (self, up) := read_destinations parent self read in
          let field_wrapper :=
            match field_default with
            | Some d => FieldWrapper.set_default field_wrapper d
            | None => field_wrapper
            end in
          wrap_fields construct parent dataclass_fn default prefix rest
            (with_fields (fields self ++ [field_wrapper]) self)
            (parent_read || up)
  end.

(** [__init__], with what [self.parent] shows as the argument [parent].
    [init_type T] is the constructor called on the dataclass type argument
    of [T] (on [T] itself when [T] is a dataclass), which is how the loop
    reaches [get_dataclass_type_arg(field_type)] by structural recursion;
    the assertion [is_dataclass_type(dataclass)] fails for a type without
    one.  The last statement formats [self.dest], which reads names only,
    and [self.defaults], which caches the list and can raise.  Besides the
    wrapper the result says whether the destinations of the parent were
    read. *)
Fixpoint init_type (T : ftype) (name : string) (default : value)
    (prefix : string) (parent : option ParentView)
    (_field : option DataclassField)
    (dataclass_fn : option (list (string * value))) {struct T}
  : result (t * bool) :=
  match T with
  | TDataclass D =>
      let self :=
        mk D name dataclass_fn default prefix _field [] false [] false []
          (if truthy default then [default] else []) in
      let* built :=
        wrap_fields init_type parent dataclass_fn default prefix (dc_fields D)
          self false in
      let (self, parent_read) := built in
      let* self_defaults := defaults parent self in
      Ok (self_defaults.1.1, parent_read)
  | TOptional A =>
      if is_dataclass A
      then init_type A name default prefix parent _field dataclass_fn
      else Raise AssertionError
  | TUnion Ts =>
      (fix first (Ts : list ftype) : result (t * bool) :=
         match Ts with
         | [] => Raise AssertionError
         | A :: Ts' =>
             if is_dataclass A
             then init_type A name default prefix parent _field dataclass_fn
             else first Ts'
         end) Ts
  | _ => Raise AssertionError
  end.

Definition init (dataclass : Dataclass) (name : string) (default : value)
    (prefix : string) (parent : option ParentView)
    (_field : option DataclassField)
    (dataclass_fn : option (list (string * value))) : result t :=
  let* built :=
    init_type (TDataclass dataclass) name default prefix parent _field
      dataclass_fn in
  Ok built.1.
End Init.

(** The first loop of [set_default]: the field wrappers whose name is a
    key take the value and leave [unknown_names]; the result holds the
    wrappers as the loop left them and the exception that stopped it. *)
Fixpoint set_field_defaults (field_default_values : list (string * value))
    (fields : list FieldWrapper.t) (unknown_names : gset string)
  : list FieldWrapper.t * gset string * option exn :=
  match fields with
  | [] => ([], unknown_names, None)
  | field_wrapper :: rest =>
      match dict_get field_default_values (FieldWrapper.name field_wrapper) with
      | None =>
          let '(rest', unknown_names', e) :=
            set_field_defaults field_default_values rest unknown_names in
          (field_wrapper :: rest', unknown_names', e)
      | Some field_default_value =>
          let field_wrapper' :=
            FieldWrapper.set_default field_wrapper field_default_value in
          match set_remove unknown_names (FieldWrapper.name field_wrapper) with
          | Raise e => (field_wrapper' :: rest, unknown_names, Some e)
          | Ok unknown_names' =>
              let '(rest', unknown_names'', e) :=
                set_field_defaults field_default_values rest unknown_names' in
              (field_wrapper' :: rest', unknown_names'', e)
          end
      end
  end.

(** The second loop of [set_default], over the children; [set_child] is
    [set_default] itself, called on a child. *)
Fixpoint set_child_defaults (set_child : t -> value -> t * option exn)
    (field_default_values : list (string * value)) (children : list t)
    (unknown_names : gset string) : list t * gset string * option exn :=
  match children with
  | [] => ([], unknown_names, None)
  | nested_dataclass_wrapper :: rest =>
      match dict_get field_default_values (_name nested_dataclass_wrapper) with
      | None =>
          let '(rest', unknown_names', e) :=
            set_child_defaults set_child field_default_values rest unknown_names in
          (nested_dataclass_wrapper :: rest', unknown_names', e)
      | Some field_default_value =>
          let (wrapper', e) := set_child nested_dataclass_wrapper field_default_value in
          match e with
          | Some e => (wrapper' :: rest, unknown_names, Some e)
          | None =>
              match set_remove unknown_names (_name nested_dataclass_wrapper) with
              | Raise e => (wrapper' :: rest, unknown_names, Some e)
              | Ok unknown_names' =>
                  let '(rest', unknown_names'', e) :=
                    set_child_defaults set_child field_default_values rest
                      unknown_names' in
                  (wrapper' :: rest', unknown_names'', e)
              end
          end
      end
  end.

(** The mapping [set_default] works on: the value itself when it is [None]
    or a dictionary, [dataclasses.asdict(value)] otherwise. *)
Definition field_default_values_of (v : value) : result value :=
  match v with
  | VNone | VDict _ => Ok v
  | _ => asdict v
  end.

(** [set_default]: the wrapper as the call leaves it, and the exception it
    raised, if any (what was set before a [raise] stays set). *)
Fixpoint set_default (lineage : list string) (self : t) (value : value)
    {struct self} : t * option exn :=
  match self with
  | mk D n fn _default0 p fld fs opt dests req children defaults =>
      match field_default_values_of value with
      | Raise e => (self, Some e)
      | Ok (VDict entries) =>
          let unknown_names : gset string := list_to_set (dict_keys entries) in
          let '(fs', unknown_names, e) :=
            set_field_defaults entries fs unknown_names in
          match e with
          | Some e =>
              (mk D n fn value p fld fs' opt dests req children defaults, Some e)
          | None =>
              let '(children', unknown_names, e) :=
                set_child_defaults (set_default (lineage ++ [n])) entries
                  children unknown_names in
              let self' :=
                mk D n fn value p fld fs' opt dests req children' defaults in
              match e with
              | Some e => (self', Some e)
              | None =>
                  let unknown_names := unknown_names ∖ {["_type_"]} in
                  if bool_decide (unknown_names = ∅) then (self', None)
                  else
                    (self',
                     Some (RuntimeError (sorted (elements unknown_names))
                             (qualname D) (join "." (lineage ++ [n]))))
              end
          end
      | Ok _ => (mk D n fn value p fld fs opt dests req children defaults, None)
      end
  end.

(** [for dest in other.destinations: if dest not in self.destinations:
    self.destinations.append(dest)]. *)
Definition absorb_destination (parent : option ParentView) (self : t)
    (dest : string) : t :=
  let (self, current) := destinations parent self in
  if bool_decide (dest ∈ current) then self
  else
    let (self, current) := destinations parent self in
    with_destinations (current ++ [dest]) self.

(** The last loop of [merge]: [for child, other_child in zip(...)];
    [merge_child] is [merge] itself.  Children without a partner stay as
    they are. *)
Fixpoint merge_children (merge_child : t -> t -> result t)
    (children other_children : list t) : result (list t) :=
  match children, other_children with
  | child :: rest, other_child :: other_rest =>
      let* child' := merge_child child other_child in
      let* rest' := merge_children merge_child rest other_rest in
      Ok (child' :: rest')
  | _, _ => Ok children
  end.

(** [merge]: [self] after absorbing [other].  The two wrappers are distinct
    objects; each comes with the view of its own parent. *)
Fixpoint merge (parent other_parent : option ParentView) (self other : t)
    {struct self} : result t :=
  match self with
  | mk D n fn d p fld fs opt dests req children dflts =>
      let (self1, _) := destinations parent self in
      let (other1, other_destinations) := destinations other_parent other in
      let self2 := foldl (absorb_destination parent) self1 other_destinations in
      let* self_defaults := defaults parent self2 in
      let '(self3, own, stored) := self_defaults in
      let* other_defaults := defaults other_parent other1 in
      let '(other2, theirs, _) := other_defaults in
      let self4 :=
        if stored : bool then with_defaults (own ++ theirs) self3 else self3 in
      let self5 :=
        with_fields
          (map (fun field_wrapper => FieldWrapper.set_default field_wrapper VNone) fs)
          self4 in
      let* children' :=
        merge_children
          (merge (Some (view_of parent self5)) (Some (view_of other_parent other2)))
          children (_children other2) in
      Ok (with_children children' self5)
  end.

(** The [required] getter. *)
Definition required (self : t) : bool := _required self.

(** The [descendants] generator: each child, followed by its own
    descendants. *)
Fixpoint descendants (self : t) : list t :=
  match self with
  | mk _ _ _ _ _ _ _ _ _ _ children _ =>
      (fix each (children : list t) : list t :=
         match children with
         | [] => []
         | child :: rest => child :: descendants child ++ each rest
         end) children
  end.

(** [multiple]: [len(self.destinations) > 1]. *)
Definition multiple (parent : option ParentView) (self : t) : t * bool :=
  let (self, current) := destinations parent self in
  (self, Nat.ltb 1 (length current)).

(** [title]: the qualified name of the dataclass and the quoted
    destinations. *)
Definition title (parent : option ParentView) (self : t) : t * string :=
  let (self, current) := destinations parent self in
  let names_string :=
    " [" +:+ join ", " (map (fun dest => "'" +:+ dest +:+ "'") current) +:+ "]" in
  (self, qualname (dataclass self) +:+ names_string).

End DataclassWrapper.

(** ** [_get_dataclass_fields]

    The entries of the [__dataclass_fields__] mapping of a class carry a
    kind, [dataclasses._FIELD], [_FIELD_CLASSVAR] or [_FIELD_INITVAR]; an
    object that is not a dataclass has no such mapping ([None] here). *)
Inductive field_kind := _FIELD | _FIELD_CLASSVAR | _FIELD_INITVAR.

Definition fields_map : Type := list (string * (DataclassField * field_kind)).

Definition is_FIELD (entry : DataclassField * field_kind) : bool :=
  match entry.2 with
  | _FIELD => true
  | _ => false
  end.

Definition is_FIELD_or_INITVAR (entry : DataclassField * field_kind) : bool :=
  match entry.2 with
  | _FIELD | _FIELD_INITVAR => true
  | _FIELD_CLASSVAR => false
  end.

(** [dataclasses.fields(class_or_instance)]. *)
Definition dataclasses_fields (class_or_instance : option fields_map)
  : result (list DataclassField) :=
  match class_or_instance with
  | None => Raise (TypeError "must be called with a dataclass type or instance")
  | Some fields => Ok (map fst (List.filter is_FIELD (map snd fields)))
  end.

(** [sys.version_info[:2] < (3, 8)]. *)
Definition before_3_8 (version_info : nat * nat) : bool :=
  Nat.ltb version_info.1 3 ||
  (Nat.eqb version_info.1 3 && Nat.ltb version_info.2 8).

Definition _get_dataclass_fields (version_info : nat * nat)
    (dataclass : option fields_map) : result (list DataclassField) :=
  if before_3_8 version_info then dataclasses_fields dataclass
  else
    match dataclass with
    | None => Raise (TypeError "must be called with a dataclass type or instance")
    | Some dataclass_fields_map =>
        Ok (map fst (List.filter is_FIELD_or_INITVAR
                       (map snd dataclass_fields_map)))
    end.

(** ** Vocabulary of the statements *)

(** The loop [for x in xs: d[key(x)] = g(x)], and the entry it writes for
    [x]. *)
Definition collect_step {A} (key : A -> string) (g : A -> result value)
    (acc : list (string * value)) (x : A) : result (list (string * value)) :=
  let* v := g x in Ok (dict_set acc (key x) v).

Definition entry_of {A} (key : A -> string) (g : A -> result value)
    (x : A) (kv : string * value) : Prop :=
  kv.1 = key x /\ g x = Ok kv.2.

(** A dataclass whose field names are distinct (as Python enforces) and
    whose fields are all parameters of the generated [__init__]. *)
Definition plain_dataclass (D : Dataclass) : Prop :=
  NoDup (map f_name (dc_fields D)) /\
  Forall (fun f => f_init f = true) (dc_fields D).

(** The field reconstructs from the namespace. *)
Definition reconstructs (args : gmap string value) (f : DataclassField) : Prop :=
  is_ok (constructor_arg f args) = true.

(** The default a boolean field is inverted against. *)
Definition declared_default (f : DataclassField) : value :=
  match f_default f with
  | None => VBool false
  | Some d => d
  end.

(** The invariant of [EnumMeta]'s tables: each canonical name is mapped to
    the member of that name. *)
Definition enum_wf (E : EnumClass) : Prop :=
  forall n, n ∈ _member_names_ E ->
    exists v, dict_get (_member_map_ E) n = Some (VEnum (enum_qualname E) n v).

(** A scalar field: an annotation the facade can inspect that is not an
    enumeration, a sequence or a boolean. *)
Definition is_scalar (T : ftype) : bool :=
  has_mro T && negb (is_enum T) && negb (is_tuple_or_list T) && negb (is_bool T).

(** An entry of the declaration of [f], and what the engine stores for the
    option declared for [f]; both raise what the declaration raises. *)
Definition declared {A} (key : ArgOptions -> A) (multiple : bool)
    (f : DataclassField) : result A :=
  let* arg_options := field_arg_options multiple f in Ok (key arg_options).

Definition stored (convert : converter -> string -> result value)
    (multiple : bool) (f : DataclassField) (occ : occurrence) : result value :=
  let* arg_options := field_arg_options multiple f in
  store_value convert arg_options occ.

(** A conversion that keeps the raw token, to run the engine on examples. *)
Definition keep_token (c : converter) (token : string) : result value :=
  Ok (VStr token).

(** ** Example schemas *)

Definition rate_field : DataclassField :=
  mkField "rate" TFloat None None true [] None.

Definition seed_field : DataclassField :=
  mkField "seed" TInt (Some (VInt 13)) None true [] None.

(** A field annotated [Optional[int]]. *)
Definition limit_field : DataclassField :=
  mkField "limit" (TOptional TInt) (Some VNone) None true [] None.

Definition name_field : DataclassField :=
  mkField "name" TStr (Some (VStr "run")) None true [] None.

Definition flag_field : DataclassField :=
  mkField "flag" TBool None None true [] None.

Definition verbose_field : DataclassField :=
  mkField "verbose" TBool (Some (VBool true)) None true [] None.

Definition Flags : Dataclass := mkDataclass 1 "Flags" None [flag_field].

Definition Options : Dataclass := mkDataclass 2 "Options" None [seed_field; verbose_field].

Definition LoggingTypes : EnumClass :=
  mkEnumClass "LoggingTypes" ["JSONL"; "PRINT"]
    [("JSONL", VEnum "LoggingTypes" "JSONL" (VStr "jsonl"));
     ("PRINT", VEnum "LoggingTypes" "PRINT" (VStr "print"))].

Definition logging_field : DataclassField :=
  mkField "logging" (TEnum LoggingTypes)
    (Some (VEnum "LoggingTypes" "PRINT" (VStr "print"))) None true [] None.

Definition Logger : Dataclass := mkDataclass 3 "Logger" None [seed_field; logging_field].

(** The loop [for x in xs: acc.append(h(x))]. *)
Definition append_step {A B} (h : A -> result B) (acc : list B) (x : A)
  : result (list B) :=
  let* y := h x in Ok (acc ++ [y]).

(** A parsed value the multi-instance reconstruction can distribute over
    [N] instances: anything but a list, or a list of 0, 1 or [N] items. *)
Definition consistent (N : nat) (v : value) : Prop :=
  match v with
  | VList l => length l = 0 \/ length l = 1 \/ length l = N
  | _ => True
  end.

(** Every field has an entry in the namespace. *)
Definition all_parsed (args : gmap string value) (fs : list DataclassField) : Prop :=
  Forall (fun f => is_Some (args !! f_name f)) fs.

Definition all_consistent (N : nat) (args : gmap string value)
    (fs : list DataclassField) : Prop :=
  Forall (fun f => forall v, args !! f_name f = Some v -> consistent N v) fs.

Definition pair_field : DataclassField :=
  mkField "pair" (TTuple TInt) (Some (VTuple [VInt 1; VInt 2])) None true [] None.

Definition Pairs : Dataclass := mkDataclass 4 "Pairs" None [pair_field].

Definition x_field : DataclassField := mkField "x" TInt None None true [] None.
Definition y_field : DataclassField := mkField "y" TInt None None true [] None.
Definition Point : Dataclass := mkDataclass 5 "Point" None [x_field; y_field].

(** What instance [i] of [N] holds for each field: its entry is named after
    the field and carries what [instance_argument] selects from the parsed
    value. *)
Definition instance_entries (N i : nat) (args : gmap string value)
    (fs : list DataclassField) (kvs : list (string * value)) : Prop :=
  Forall2 (fun f kv =>
             kv.1 = f_name f /\
             exists v, args !! f_name f = Some v /\
                       instance_argument N i (f_name f) v = Ok kv.2)
    fs kvs.

Definition two_points : gmap string value :=
  {[ "x" := VList [VInt 1; VInt 2]; "y" := VList [VInt 3] ]}.

(** Every destination requested from the parser. *)
Definition all_destinations (requests : list (Dataclass * list string))
  : list string :=
  concat (map snd requests).

(** The namespace holds a dataclass instance under [k]. *)
Definition bound_instance (ns : gmap string value) (k : string) : Prop :=
  exists cls attrs, ns !! k = Some (VInstance cls attrs).

(** An engine that returns a fixed namespace, to run [parse_args] on
    examples. *)
Definition fixed_engine (parsed : gmap string value) (self : ArgumentParser)
    (args : option (list string)) (namespace : option (gmap string value))
  : result (gmap string value) :=
  Ok parsed.

Definition empty_parser : ArgumentParser := mkArgumentParser [] [].

Definition xy_namespace : gmap string value :=
  {[ "x" := VInt 1; "y" := VInt 2 ]}.

(** ** Vocabulary for the wrappers *)

(** Induction on a wrapper with the hypothesis for every child. *)
Section WrapperInduction.
Variable P : DataclassWrapper.t -> Prop.
Hypothesis step :
  forall D n fn d p fld fs opt dests req children defaults,
    Forall P children ->
    P (DataclassWrapper.mk D n fn d p fld fs opt dests req children defaults).

Fixpoint wrapper_ind (w : DataclassWrapper.t) : P w :=
  match w with
  | DataclassWrapper.mk D n fn d p fld fs opt dests req children defaults =>
      step D n fn d p fld fs opt dests req children defaults
        ((fix all (cs : list DataclassWrapper.t) : Forall P cs :=
            match cs with
            | [] => Forall_nil_2 P
            | c :: cs' => Forall_cons_2 P c cs' (wrapper_ind c) (all cs')
            end) children)
  end.
End WrapperInduction.

(** The names [set_default] knows: the field wrappers', then the
    children's. *)
Definition wrapper_names (w : DataclassWrapper.t) : list string :=
  map FieldWrapper.name (DataclassWrapper.fields w) ++
  map DataclassWrapper._name (DataclassWrapper._children w).

(** What [set_default] does to a field wrapper and to a child, given the
    mapping. *)
Definition propagate_field (entries : list (string * value))
    (field_wrapper : FieldWrapper.t) : FieldWrapper.t :=
  match dict_get entries (FieldWrapper.name field_wrapper) with
  | Some v => FieldWrapper.set_default field_wrapper v
  | None => field_wrapper
  end.

Definition propagate_child
    (set_child : DataclassWrapper.t -> value -> DataclassWrapper.t * option exn)
    (entries : list (string * value)) (child : DataclassWrapper.t)
  : DataclassWrapper.t :=
  match dict_get entries (DataclassWrapper._name child) with
  | Some v => (set_child child v).1
  | None => child
  end.

(** No child raises on the value the mapping holds for it. *)
Definition children_accept
    (set_child : DataclassWrapper.t -> value -> DataclassWrapper.t * option exn)
    (entries : list (string * value)) (children : list DataclassWrapper.t) : Prop :=
  forall c cv, c ∈ children ->
    dict_get entries (DataclassWrapper._name c) = Some cv ->
    (set_child c cv).2 = None.

(** The keys of the mapping that name neither a field wrapper nor a child,
    ["_type_"] apart. *)
Definition unknown_keys (entries : list (string * value))
    (w : DataclassWrapper.t) : gset string :=
  list_to_set (dict_keys entries) ∖ list_to_set (wrapper_names w) ∖ {["_type_"]}.

(** The names are distinct in the wrapper and in each descendant. *)
Fixpoint well_named (w : DataclassWrapper.t) : Prop :=
  match w with
  | DataclassWrapper.mk _ _ _ _ _ _ fs _ _ _ children _ =>
      NoDup (map FieldWrapper.name fs ++ map DataclassWrapper._name children) /\
      (fix all (cs : list DataclassWrapper.t) : Prop :=
         match cs with
         | [] => True
         | c :: cs' => well_named c /\ all cs'
         end) children
  end.

(** A default for the wrapper's record type: [None], or a mapping (or an
    instance, read through [asdict]) whose keys are fields or children of
    the record type, ["_type_"] apart, and which holds such a default for
    each child it names. *)
Fixpoint accepts (w : DataclassWrapper.t) (v : value) {struct w} : Prop :=
  match w with
  | DataclassWrapper.mk _ _ _ _ _ _ fs _ _ _ children _ =>
      match DataclassWrapper.field_default_values_of v with
      | Ok VNone => True
      | Ok (VDict entries) =>
          (forall k, k ∈ dict_keys entries ->
             k = "_type_" \/
             k ∈ map FieldWrapper.name fs ++ map DataclassWrapper._name children) /\
          (fix all (cs : list DataclassWrapper.t) : Prop :=
             match cs with
             | [] => True
             | c :: cs' =>
                 (forall cv, dict_get entries (DataclassWrapper._name c) = Some cv ->
                    accepts c cv) /\ all cs'
             end) children
      | _ => False
      end
  end.

(** Example wrappers: [Point] at ["p"], and a record with a nested [Point].
    Two messages stand for the field wrapper's: one that reads nothing of
    the dataclass wrapper, one that reads its destinations. *)
Definition no_field (f : DataclassField) : bool := false.

Definition silent_message (parent : option DataclassWrapper.ParentView)
    (self : DataclassWrapper.t) (field_wrapper : FieldWrapper.t) : result bool :=
  Ok false.

Definition reading_message (parent : option DataclassWrapper.ParentView)
    (self : DataclassWrapper.t) (field_wrapper : FieldWrapper.t) : result bool :=
  Ok true.

Definition point_wrapper : DataclassWrapper.t :=
  DataclassWrapper.mk Point "p" None VNone "" None
    [FieldWrapper.init x_field ""; FieldWrapper.init y_field ""]
    false [] false [] [].

Definition origin_field : DataclassField :=
  mkField "origin" (TDataclass Point) None None true [] None.

Definition Shape : Dataclass := mkDataclass 6 "Shape" None [seed_field; origin_field].

Definition origin_wrapper : DataclassWrapper.t :=
  DataclassWrapper.mk Point "origin" None VNone "" (Some origin_field)
    [FieldWrapper.init x_field ""; FieldWrapper.init y_field ""]
    false [] false [] [].

Definition shape_wrapper : DataclassWrapper.t :=
  DataclassWrapper.mk Shape "shape" None VNone "" None
    [FieldWrapper.init seed_field ""] false [] false [origin_wrapper] [].

Definition bogus_mapping : value :=
  VDict [("x", VInt 1); ("bogus", VInt 2)].

Definition typed_mapping : value :=
  VDict [("x", VInt 1); ("_type_", VStr "Point")].

Definition shape_mapping : value :=
  VDict [("seed", VInt 3);
         ("origin", VDict [("x", VInt 1); ("_type_", VStr "Point")]);
         ("_type_", VStr "Shape")].

(** A field [__init__] does not skip. *)
Definition included (f : DataclassField) : bool :=
  f_init f && negb (cmd_is_False f).

Definition points_field : DataclassField :=
  mkField "points" (TList (TDataclass Point)) None (Some (VList [])) true
    [("cmd", VBool false)] None.

Definition Batch : Dataclass := mkDataclass 7 "Batch" None [seed_field; points_field].

Definition corners_field : DataclassField :=
  mkField "corners" (TTuple (TDataclass Point)) None None true [] None.

(** A second class named [Point]. *)
Definition PointTwin : Dataclass :=
  mkDataclass 12 "Point" None [x_field; y_field].

Definition Outline : Dataclass :=
  mkDataclass 11 "Outline" None [seed_field; origin_field; corners_field].

Definition Polygon : Dataclass := mkDataclass 8 "Polygon" None [seed_field; corners_field].

(** [for dest in other: if dest not in mine: mine.append(dest)]. *)
Definition absorb (mine other : list string) : list string :=
  foldl (fun ds d => if bool_decide (d ∈ ds) then ds else ds ++ [d]) mine other.

(** [fw.set_default(None)]. *)
Definition clear_default (field_wrapper : FieldWrapper.t) : FieldWrapper.t :=
  FieldWrapper.set_default field_wrapper VNone.

Definition point_instance : value :=
  VInstance "Point" [("x", VInt 1); ("y", VInt 2)].

Definition point_wrapper_q : DataclassWrapper.t :=
  DataclassWrapper.mk Point "q" None point_instance "" None
    [FieldWrapper.set_default (FieldWrapper.init x_field "") (VInt 1);
     FieldWrapper.set_default (FieldWrapper.init y_field "") (VInt 2)]
    false [] false [] [point_instance].

(** The list the [defaults] property returns, and whether it is the stored
    one. *)
Definition defaults_of (parent : option DataclassWrapper.ParentView)
    (w : DataclassWrapper.t) : result (list value * bool) :=
  let* r := DataclassWrapper.defaults parent w in Ok (r.1.2, r.2).

(** Induction on a declared type with the hypothesis for the types nested
    in it. *)
Section TypeInduction.
Variable P : ftype -> Prop.
Hypothesis PBool : P TBool.
Hypothesis PInt : P TInt.
Hypothesis PFloat : P TFloat.
Hypothesis PStr : P TStr.
Hypothesis PEnum : forall E, P (TEnum E).
Hypothesis PList : forall T, P T -> P (TList T).
Hypothesis PTuple : forall T, P T -> P (TTuple T).
Hypothesis POptional : forall T, P T -> P (TOptional T).
Hypothesis PUnion : forall Ts, Forall P Ts -> P (TUnion Ts).
Hypothesis PDataclass :
  forall D, Forall (fun f => P (f_type f)) (dc_fields D) -> P (TDataclass D).

Fixpoint type_ind (T : ftype) : P T :=
  match T with
  | TBool => PBool
  | TInt => PInt
  | TFloat => PFloat
  | TStr => PStr
  | TEnum E => PEnum E
  | TList A => PList A (type_ind A)
  | TTuple A => PTuple A (type_ind A)
  | TOptional A => POptional A (type_ind A)
  | TUnion Ts =>
      PUnion Ts
        ((fix all (Ts : list ftype) : Forall P Ts :=
            match Ts with
            | [] => Forall_nil_2 P
            | A :: Ts' => Forall_cons_2 P A Ts' (type_ind A) (all Ts')
            end) Ts)
  | TDataclass D =>
      PDataclass D
        (match D as D0 return Forall (fun f => P (f_type f)) (dc_fields D0) with
         | mkDataclass i q doc fs =>
             (fix all (fs : list DataclassField)
                : Forall (fun f => P (f_type f)) fs :=
                match fs with
                | [] => Forall_nil_2 _
                | f :: fs' =>
                    Forall_cons_2 (fun f => P (f_type f)) f fs'
                      (type_ind (f_type f)) (all fs')
                end) fs
         end)
  end.
End TypeInduction.

(** The field names are distinct in every dataclass the type mentions (what
    Python guarantees of a dataclass). *)
Fixpoint distinct_names (T : ftype) : Prop :=
  match T with
  | TDataclass D =>
      NoDup (map f_name (dc_fields D)) /\
      (fix all (fs : list DataclassField) : Prop :=
         match fs with
         | [] => True
         | f :: fs' => distinct_names (f_type f) /\ all fs'
         end) (dc_fields D)
  | TList A | TTuple A | TOptional A => distinct_names A
  | TUnion Ts =>
      (fix all (Ts : list ftype) : Prop :=
         match Ts with
         | [] => True
         | A :: Ts' => distinct_names A /\ all Ts'
         end) Ts
  | _ => True
  end.

(** The type of the constructor, as the loop of [__init__] calls it. *)
Definition constructor : Type :=
  ftype -> string -> value -> string -> option DataclassWrapper.ParentView ->
  option DataclassField -> option (list (string * value)) ->
  result (DataclassWrapper.t * bool).

(** The constructor names the wrapper as asked and builds it with distinct
    names. *)
Definition builds_named (construct : constructor) (T : ftype) : Prop :=
  forall name default prefix parent fld fn w read,
    construct T name default prefix parent fld fn = Ok (w, read) ->
    DataclassWrapper._name w = name /\ well_named w.

Definition two_points_namespace : gmap string value :=
  {[ "x" := VList [VInt 1; VInt 2]; "y" := VList [VInt 3; VInt 3] ]}.

(** ** Vocabulary for the deferred requests and [parse_args] *)

(** A sequence of calls [parser.add_arguments(dataclass, dest)]. *)
Definition add_all (self : ArgumentParser) (calls : list (Dataclass * string))
  : ArgumentParser :=
  foldl (fun parser call => add_arguments parser call.1 call.2) self calls.

(** The destinations the calls ask for the class [D], in call order. *)
Definition requested_for (D : Dataclass) (calls : list (Dataclass * string))
  : list string :=
  map snd (List.filter (fun call => same_class call.1 D) calls).

(** The keys of [_args_to_add] are distinct classes, and no class is kept
    with an empty list. *)
Definition distinct_classes (tbl : list (Dataclass * list string)) : Prop :=
  NoDup (map (fun r => class_id r.1) tbl).

Definition requests_wf (tbl : list (Dataclass * list string)) : Prop :=
  distinct_classes tbl /\ Forall (fun r => r.2 <> []) tbl.

(** The group [parse_args] registers for a request: its title and its
    options. *)
Definition group_title (request : Dataclass * list string) : string :=
  qualname request.1 +:+ " [" +:+
  join ", " (map (fun name => "'" +:+ name +:+ "'") request.2) +:+ "]".

Definition group_options (request : Dataclass * list string)
    (actions : list (string * ArgOptions)) : Prop :=
  Forall2 (fun f action =>
             action.1 = ("--" +:+ f_name f) /\
             field_arg_options (Nat.ltb 1 (length request.2)) f = Ok action.2)
    (dc_fields request.1) actions.

(** Two namespaces with the same entries under the names of the fields. *)
Definition agree_on (fs : list DataclassField) (args args' : gmap string value)
  : Prop :=
  forall f, f ∈ fs -> args !! f_name f = args' !! f_name f.

(** What [parse_args] leaves under the destinations of one request: the
    instance, or the instances by position. *)
Definition bound_to (parsed_args ns' : gmap string value)
    (request : Dataclass * list string) : Prop :=
  match request.2 with
  | [dest] =>
      exists inst,
        _instantiate_dataclass request.1 parsed_args = Ok inst /\
        ns' !! dest = Some inst
  | dests =>
      exists insts,
        _instantiate_multiple_dataclasses request.1 parsed_args (length dests) =
          Ok insts /\
        forall i dest, dests !! i = Some dest -> ns' !! dest = insts !! i
  end.

(** No field of a requested class is named like a destination. *)
Definition fields_apart (requests : list (Dataclass * list string)) : Prop :=
  forall D dests f,
    (D, dests) ∈ requests -> f ∈ dc_fields D ->
    f_name f ∉ all_destinations requests.

(** ** Vocabulary for the reconstruction *)

(** The facade inspects every annotation with [f.type.mro()]. *)
Definition inspectable (D : Dataclass) : Prop :=
  Forall (fun f => has_mro (f_type f) = true) (dc_fields D).

(** Two dataclasses that differ at most in the declared types of their
    fields. *)
Definition same_signature (D D' : Dataclass) : Prop :=
  qualname D = qualname D' /\
  Forall2 (fun f f' : DataclassField =>
             f_name f = f_name f' /\ f_init f = f_init f' /\
             field_fallback f = field_fallback f')
    (dc_fields D) (dc_fields D').

(** The default is a value of the declared type, as reconstruction leaves
    it: a member of the enumeration, a tuple for a tuple field and a list
    for a list field, a declared boolean for a flag, and no string for a
    number (the engine converts a string default like a token). *)
Definition default_fits (f : DataclassField) (d : value) : Prop :=
  match f_type f with
  | TEnum E => enum_wf E /\ d ∈ enum_iter E
  | TTuple _ => exists l, d = VTuple l
  | TList _ => exists l, d = VList l
  | TBool => f_default f = Some d /\ exists b, d = VBool b
  | TStr => True
  | TInt | TFloat | TDataclass _ => forall s, d <> VStr s
  | TOptional _ | TUnion _ => False
  end.

(** The namespace holds, for each field, what the engine stores when the
    option is not supplied. *)
Definition nothing_supplied (convert : converter -> string -> result value)
    (fs : list DataclassField) (args : gmap string value) : Prop :=
  forall f, f ∈ fs ->
    exists v,
      stored convert false f NotSupplied = Ok v /\
      args !! f_name f = Some v.

(** The items of a list or tuple annotation. *)
Definition sequence_of (T A : ftype) : Prop := T = TList A \/ T = TTuple A.

(** More example schemas: a field that is not a parameter of [__init__], a
    tuple of numbers, [Logger] with its enumeration field declared as a
    string, and a conversion that reads a few digits. *)
Definition hits_field : DataclassField :=
  mkField "hits" TInt (Some (VInt 0)) None false [] None.

Definition Cache : Dataclass := mkDataclass 9 "Cache" None [seed_field; hits_field].

Definition ids_field : DataclassField :=
  mkField "ids" (TTuple TInt) None None true [] None.

Definition raw_logging_field : DataclassField :=
  mkField "logging" TStr
    (Some (VEnum "LoggingTypes" "PRINT" (VStr "print"))) None true [] None.

Definition RawLogger : Dataclass :=
  mkDataclass 10 "Logger" None [seed_field; raw_logging_field].

Definition two_loggers_namespace : gmap string value :=
  {[ "seed" := VList [VInt 1];
     "logging" := VList [VStr "JSONL"; VStr "PRINT"] ]}.

Definition shared_logger_namespace : gmap string value :=
  {[ "seed" := VList [VInt 1]; "logging" := VStr "JSONL" ]}.

Definition default_logger_namespace : gmap string value :=
  {[ "seed" := VInt 13; "logging" := VStr "PRINT" ]}.

Definition digit_token (c : converter) (token : string) : result value :=
  match token with
  | "1" => Ok (VInt 1)
  | "2" => Ok (VInt 2)
  | "3" => Ok (VInt 3)
  | _ => Raise (TypeError "invalid literal")
  end.

(** ** Vocabulary for the wrapper tree *)

(** Every field wrapper of the wrapper has been told [required = value]. *)
Definition fields_required (value : bool) (w : DataclassWrapper.t) : Prop :=
  Forall (fun fw => FieldWrapper._required fw = Some value)
    (DataclassWrapper.fields w).

(** What the innermost of the [ancestors] (outermost first) shows its
    children, each ancestor reading its own parent in turn. *)
Definition chain_view (ancestors : list DataclassWrapper.t)
  : option DataclassWrapper.ParentView :=
  foldl (fun parent ancestor => Some (DataclassWrapper.view_of parent ancestor))
    None ancestors.

(** No destination has been stored or computed yet in the wrapper. *)
Definition unresolved (w : DataclassWrapper.t) : Prop :=
  DataclassWrapper._destinations w = [].

(** Every wrapper of the tree below [w], [w] included, with its ancestors,
    outermost first. *)
Fixpoint with_ancestors (ancestors : list DataclassWrapper.t)
    (w : DataclassWrapper.t) : list (list DataclassWrapper.t * DataclassWrapper.t) :=
  match w with
  | DataclassWrapper.mk _ _ _ _ _ _ _ _ _ _ children _ =>
      (ancestors, w) ::
      (fix each (cs : list DataclassWrapper.t) :=
         match cs with
         | [] => []
         | c :: rest => with_ancestors (ancestors ++ [w]) c ++ each rest
         end) children
  end.

(** The destinations a wrapper of the given name computes from those its
    parent shows, and a cache that holds nothing or that list. *)
Definition computed_destinations (parent : option (list string)) (name : string)
  : list string :=
  match parent with
  | Some ds => map (fun d => d +:+ "." +:+ name) ds
  | None => [name]
  end.

Definition cached (parent : option (list string)) (name : string)
    (stored : list string) : Prop :=
  stored = [] \/ stored = computed_destinations parent name.

(** In the wrapper and in every wrapper below it the cache of the
    destinations holds nothing or what the property computes, given the
    destinations of the parent. *)
Fixpoint paths_cached (parent : option (list string)) (w : DataclassWrapper.t)
  : Prop :=
  match w with
  | DataclassWrapper.mk _ n _ _ _ _ _ _ dests _ children _ =>
      cached parent n dests /\
      (fix all (cs : list DataclassWrapper.t) : Prop :=
         match cs with
         | [] => True
         | c :: cs' =>
             paths_cached (Some (computed_destinations parent n)) c /\ all cs'
         end) children
  end.

(** The constructor caches nothing but such destinations. *)
Definition builds_paths (construct : constructor) (T : ftype) : Prop :=
  forall name default prefix parent fld fn w read,
    construct T name default prefix parent fld fn = Ok (w, read) ->
    paths_cached (DataclassWrapper.pv_destinations <$> parent) w.

(** The wrapper with other cached destinations, field wrappers and
    children. *)
Definition rebuilt (destinations : list string) (fields : list FieldWrapper.t)
    (children : list DataclassWrapper.t) (self : DataclassWrapper.t)
  : DataclassWrapper.t :=
  DataclassWrapper.with_children children
    (DataclassWrapper.with_fields fields
       (DataclassWrapper.with_destinations destinations self)).

(** The list [__init__] starts [_defaults] with. *)
Definition initial_defaults (default : value) : list value :=
  if truthy default then [default] else [].

(** What a child named [name] derives from one default of its parent:
    [None] and [SUPPRESS] as they are, the attribute [name] otherwise. *)
Definition derived_default (name : string) (default : value) : result value :=
  if negb (is_None_or_SUPPRESS default) then getattr default name
  else Ok default.

(** The fields [__init__] turns into a child wrapper: those that are
    neither subparser nor choice fields and whose type is a dataclass (with
    a default other than [None]) or holds one as a type argument. *)
Definition wrapped_as_child (is_subparser_field is_choice : DataclassField -> bool)
    (f : DataclassField) : bool :=
  negb (is_subparser_field f || is_choice f) &&
  ((is_dataclass (f_type f) && negb (default_is_None f)) ||
   contains_dataclass_type_arg (f_type f)).

(** The child the loop of [__init__] makes for the field [f]: what the
    constructor returns for the type of the field, with the wrapper as
    parent, made optional unless the field is a plain dataclass field. *)
Definition built_child (construct : constructor)
    (pv : DataclassWrapper.ParentView)
    (dataclass_fn : option (list (string * value))) (default : value)
    (f : DataclassField) (c : DataclassWrapper.t) : Prop :=
  exists fd c0 read,
    DataclassWrapper.field_default dataclass_fn default f = Ok fd /\
    construct (f_type f) (f_name f) (DataclassWrapper.or_None fd) ""
      (Some pv) (Some f) None = Ok (c0, read) /\
    c = (if is_dataclass (f_type f) && negb (default_is_None f) then c0
         else DataclassWrapper.set_optional true
                (DataclassWrapper.set_required false c0)).

(** What [__init__] leaves in the caches of the wrapper it builds: the
    destinations are not cached, or are the list the property computes;
    the defaults are the list the [defaults] property returns for the list
    [__init__] starts with. *)
Definition caches_of (parent : option DataclassWrapper.ParentView)
    (w : DataclassWrapper.t) : Prop :=
  cached (DataclassWrapper.pv_destinations <$> parent) (DataclassWrapper._name w)
    (DataclassWrapper._destinations w) /\
  exists stored,
    defaults_of parent
      (DataclassWrapper.with_defaults
         (initial_defaults (DataclassWrapper._default w)) w) =
      Ok (DataclassWrapper._defaults w, stored).

(** A child wrapper as [__init__] makes it for the field [f], [pv] being
    what the parent shows: its default is the one resolved for the field
    from the [default] of the parent ([None] when there is none). *)
Definition child_of_field (pv : DataclassWrapper.ParentView)
    (dataclass_fn : option (list (string * value)))
    (default : value) (f : DataclassField) (c : DataclassWrapper.t) : Prop :=
  DataclassWrapper._field c = Some f /\
  DataclassWrapper._name c = f_name f /\
  (exists fd,
     DataclassWrapper.field_default dataclass_fn default f = Ok fd /\
     DataclassWrapper._default c = DataclassWrapper.or_None fd) /\
  get_dataclass_type_arg (f_type f) =
    Some (TDataclass (DataclassWrapper.dataclass c)) /\
  DataclassWrapper.optional c =
    negb (is_dataclass (f_type f) && negb (default_is_None f)) /\
  DataclassWrapper._required c = false /\
  caches_of (Some pv) c.

(** A field wrapper as [__init__] makes it: for its field, with the default
    resolved from the [default] of the dataclass wrapper. *)
Definition wrapper_of_field (dataclass_fn : option (list (string * value)))
    (default : value) (prefix : string) (f : DataclassField)
    (fw : FieldWrapper.t) : Prop :=
  exists fd,
    DataclassWrapper.field_default dataclass_fn default f = Ok fd /\
    fw = DataclassWrapper.wrap_field f prefix fd.

(** More example wrappers and defaults: a second wrapper of [Shape], the
    defaults of two merged [Shape] wrappers, an instance of [Batch], and the
    [__dataclass_fields__] of a class with a class variable and an
    init-only variable. *)
Definition other_origin_wrapper : DataclassWrapper.t := origin_wrapper.

Definition other_shape_wrapper : DataclassWrapper.t :=
  DataclassWrapper.mk Shape "other" None VNone "" None
    [FieldWrapper.init seed_field ""] false [] false [other_origin_wrapper] [].

Definition shape_instance : value :=
  VInstance "Shape" [("seed", VInt 3); ("origin", point_instance)].

Definition shape_view : DataclassWrapper.ParentView :=
  DataclassWrapper.mkParentView ["shape"; "other"] (Ok [shape_instance; VNone]).

Definition batch_wrapper : DataclassWrapper.t :=
  DataclassWrapper.mk Batch "batch" None VNone "" None
    [FieldWrapper.init seed_field ""] false [] false [] [].

Definition batch_instance : value :=
  VInstance "Batch" [("seed", VInt 13); ("points", VList [])].

Definition counter_fields : fields_map :=
  [("seed", (seed_field, _FIELD));
   ("total", (hits_field, _FIELD_CLASSVAR));
   ("scale", (rate_field, _FIELD_INITVAR));
   ("flag", (flag_field, _FIELD))].

(** A second default for [Point], and the wrapper [__init__] builds for it
    at [r]. *)
Definition other_point_instance : value :=
  VInstance "Point" [("x", VInt 5); ("y", VInt 6)].

Definition point_wrapper_r : DataclassWrapper.t :=
  DataclassWrapper.mk Point "r" None other_point_instance "" None
    [FieldWrapper.set_default (FieldWrapper.init x_field "") (VInt 5);
     FieldWrapper.set_default (FieldWrapper.init y_field "") (VInt 6)]
    false [] false [] [other_point_instance].

(** * Properties *)

(** ** Loops that fill a dictionary *)

Lemma bind_Ok {A B} (m : result A) (k : A -> result B) (b : B) :
  bind m k = Ok b <-> exists a, m = Ok a /\ k a = Ok b.
Proof.
  destruct m as [a|e]; simpl; split.
  - intros H. exists a. auto.
  - intros (a' & [= <-] & H). exact H.
  - discriminate.
  - intros (a' & [=] & _).
Qed.

Lemma is_ok_true {A} (m : result A) : is_ok m = true <-> exists a, m = Ok a.
Proof.
  destruct m; simpl; split; eauto; try discriminate.
  intros (? & [=]).
Qed.

Lemma dict_set_fresh d k v :
  k ∉ dict_keys d -> dict_set d k v = d ++ [(k, v)].
Proof.
  induction d as [|[k' v'] d IH]; simpl; intros Hk; [done|].
  rewrite not_elem_of_cons in Hk. destruct Hk as [Hne Hk].
  destruct (String.eqb_spec k' k) as [->|_]; [done|].
  by rewrite IH.
Qed.

Lemma dict_get_app_fresh d d' k :
  k ∉ dict_keys d -> dict_get (d ++ d') k = dict_get d' k.
Proof.
  induction d as [|[k' v'] d IH]; simpl; intros Hk; [done|].
  rewrite not_elem_of_cons in Hk. destruct Hk as [Hne Hk].
  destruct (String.eqb_spec k' k) as [->|_]; [done|]. auto.
Qed.

Lemma dict_get_None d k : dict_get d k = None <-> k ∉ dict_keys d.
Proof.
  induction d as [|[k' v'] d IH]; simpl.
  - split; [intros _; apply not_elem_of_nil | done].
  - rewrite not_elem_of_cons.
    destruct (String.eqb_spec k' k) as [->|Hne].
    + split; [discriminate|intros [? _]; done].
    + rewrite IH. split; [by intros ?|by intros [_ ?]].
Qed.

Section Collect.
Context {A : Type} (key : A -> string) (g : A -> result value).

Local Abbreviation collect_step := (collect_step key g).
Local Abbreviation entry_of := (entry_of key g).

Lemma entries_keys xs kvs :
  Forall2 entry_of xs kvs -> dict_keys kvs = map key xs.
Proof.
  induction 1 as [|x kv xs kvs [Hk _] _ IH]; simpl; [done|]. by rewrite Hk, IH.
Qed.

Lemma entries_exist xs :
  Forall (fun x => is_ok (g x) = true) xs -> exists kvs, Forall2 entry_of xs kvs.
Proof.
  induction 1 as [|x xs Hx _ [kvs IH]]; [by exists []|].
  apply is_ok_true in Hx as [v Hv].
  exists ((key x, v) :: kvs). constructor; [done|exact IH].
Qed.

Lemma collect_ok xs kvs acc :
  Forall2 entry_of xs kvs ->
  NoDup (map key xs) ->
  (forall x, x ∈ xs -> key x ∉ dict_keys acc) ->
  for_each collect_step xs acc = Ok (acc ++ kvs).
Proof.
  intros H. revert acc.
  induction H as [|x [k v] xs kvs [Hk Hv] Hrest IH]; intros acc Hnd Hacc; simpl.
  - by rewrite app_nil_r.
  - simpl in Hk, Hv. subst k. inversion Hnd as [|? ? Hx Hnd']; subst.
    unfold collect_step at 1. rewrite Hv. simpl.
    rewrite dict_set_fresh; [|apply Hacc; left].
    rewrite IH; [by rewrite <- app_assoc|done|].
    intros y Hy. unfold dict_keys. rewrite map_app, elem_of_app. simpl.
    intros [Hin|Hin].
    + eapply Hacc; [right; exact Hy|exact Hin].
    + apply list_elem_of_singleton in Hin. apply Hx. rewrite <- Hin.
      by apply list_elem_of_fmap_2.
Qed.

Lemma collect_raise pre x post acc e :
  Forall (fun y => is_ok (g y) = true) pre ->
  g x = Raise e ->
  for_each collect_step (pre ++ x :: post) acc = Raise e.
Proof.
  intros Hpre Hx. revert acc.
  induction Hpre as [|y pre Hy _ IH]; intros acc; simpl.
  - unfold collect_step. by rewrite Hx.
  - apply is_ok_true in Hy as [v Hv]. unfold collect_step at 1. rewrite Hv. simpl.
    apply IH.
Qed.

Lemma collect_inv xs acc d :
  for_each collect_step xs acc = Ok d ->
  Forall (fun x => is_ok (g x) = true) xs.
Proof.
  revert acc. induction xs as [|x xs IH]; intros acc H; [constructor|].
  simpl in H. apply bind_Ok in H as (acc' & Hstep & Hrest).
  unfold collect_step in Hstep. apply bind_Ok in Hstep as (v & Hv & _).
  constructor; [by rewrite Hv|by eapply IH].
Qed.

Lemma entries_get xs kvs x v :
  Forall2 entry_of xs kvs ->
  NoDup (map key xs) ->
  x ∈ xs -> g x = Ok v ->
  dict_get kvs (key x) = Some v.
Proof.
  induction 1 as [|y [k w] xs kvs [Hk Hw] Hrest IH]; intros Hnd Hin Hv.
  - by apply elem_of_nil in Hin.
  - simpl in Hk, Hw. subst k. inversion Hnd as [|? ? Hy Hnd']; subst. simpl.
    destruct (String.eqb_spec (key y) (key x)) as [Heq|Hne].
    + apply elem_of_cons in Hin as [->|Hin]; [congruence|].
      exfalso. apply Hy. rewrite Heq. by apply list_elem_of_fmap_2.
    + apply elem_of_cons in Hin as [->|Hin]; [done|]. by apply IH.
Qed.
End Collect.

Lemma for_each_ext {A S} (body body' : S -> A -> result S) xs acc :
  (forall s x, x ∈ xs -> body s x = body' s x) ->
  for_each body xs acc = for_each body' xs acc.
Proof.
  revert acc. induction xs as [|x xs IH]; intros acc H; simpl; [done|].
  rewrite H; [|left]. destruct (body' acc x); simpl; [|done].
  apply IH. intros s y Hy. apply H. by right.
Qed.

(** ** Dataclass construction *)

Lemma dict_get_NoDup d k v :
  NoDup (dict_keys d) -> (k, v) ∈ d -> dict_get d k = Some v.
Proof.
  induction d as [|[k' v'] d IH]; simpl; intros Hnd Hin.
  - by apply elem_of_nil in Hin.
  - inversion Hnd as [|? ? Hk' Hnd']; subst.
    apply elem_of_cons in Hin as [[= -> ->]|Hin].
    + by rewrite String.eqb_refl.
    + destruct (String.eqb_spec k' k) as [->|_]; [|by apply IH].
      exfalso. apply Hk'. apply (list_elem_of_fmap_2 fst) in Hin. exact Hin.
Qed.

Lemma find_is_None {A} (p : A -> bool) (l : list A) :
  (forall x, x ∈ l -> p x = false) -> find p l = None.
Proof.
  induction l as [|x l IH]; simpl; intros H; [done|].
  rewrite (H x); [|left]. apply IH. intros y Hy. apply H. by right.
Qed.

Lemma dataclass_call_full D kwargs :
  plain_dataclass D ->
  Forall2 (fun f kv => kv.1 = f_name f) (dc_fields D) kwargs ->
  dataclass_call D kwargs = Ok (VInstance (qualname D) kwargs).
Proof.
  intros [Hnd Hinit] Hkw. unfold dataclass_call.
  assert (Hkeys : dict_keys kwargs = map f_name (dc_fields D)).
  { clear -Hkw. induction Hkw as [|f kv fs kvs Hk _ IH]; simpl; [done|].
    by rewrite Hk, IH. }
  assert (Hfind : find (fun kv => negb (is_init_field D kv.1)) kwargs = None).
  { apply find_is_None. intros kv Hin.
    apply list_elem_of_lookup in Hin as [i Hi].
    destruct (Forall2_lookup_r _ _ _ _ _ Hkw Hi) as (f & Hf & Hk).
    apply negb_false_iff. unfold is_init_field. apply existsb_exists.
    exists f. split.
    - apply list_elem_of_In. by eapply list_elem_of_lookup_2.
    - rewrite Hk, String.eqb_refl. simpl.
      rewrite Forall_forall in Hinit. apply Hinit.
      by eapply list_elem_of_lookup_2. }
  rewrite Hfind.
  set (g := fun f : DataclassField =>
              match dict_get kwargs (f_name f) with
              | Some v => Ok v
              | None => Raise (TypeError "missing required argument")
              end).
  assert (Hent : Forall2 (entry_of f_name g) (dc_fields D) kwargs).
  { apply Forall2_same_length_lookup_2; [by eapply Forall2_length|].
    intros i f kv Hf Hkv.
    destruct (Forall2_lookup_l _ _ _ _ _ Hkw Hf) as (kv' & Hkv' & Hk).
    assert (kv' = kv) by congruence. subst kv'.
    split; [done|]. unfold g. rewrite <- Hk.
    destruct kv as [k v]. simpl.
    rewrite (dict_get_NoDup kwargs k v); [done| |by eapply list_elem_of_lookup_2].
    by rewrite Hkeys. }
  rewrite (for_each_ext _ (collect_step f_name g)).
  - rewrite (collect_ok f_name g _ kwargs); [done|exact Hent|exact Hnd|].
    intros ? _. apply not_elem_of_nil.
  - intros acc f Hf. unfold bind_field, collect_step, g.
    rewrite Forall_forall in Hinit. rewrite (Hinit f Hf).
    apply list_elem_of_lookup in Hf as [i Hi].
    destruct (Forall2_lookup_l _ _ _ _ _ Hent Hi) as (kv & _ & _ & Hg).
    unfold g in Hg. destruct (dict_get kwargs (f_name f)); [done|discriminate].
Qed.

(** ** Single-instance reconstruction *)

Lemma instantiate_dataclass_ok D args :
  plain_dataclass D ->
  Forall (reconstructs args) (dc_fields D) ->
  exists kwargs,
    _instantiate_dataclass D args = Ok (VInstance (qualname D) kwargs) /\
    Forall2 (entry_of f_name (fun f => constructor_arg f args)) (dc_fields D) kwargs.
Proof.
  intros HD Hall.
  destruct (entries_exist f_name _ _ Hall) as [kwargs Hent].
  exists kwargs. split; [|exact Hent].
  unfold _instantiate_dataclass.
  pose proof (collect_ok f_name _ _ _ [] Hent (proj1 HD)) as Hloop.
  unfold collect_step in Hloop. rewrite Hloop.
  - simpl. apply dataclass_call_full; [exact HD|].
    eapply Forall2_impl; [exact Hent|]. by intros f kv [Hk _].
  - intros ? _. apply not_elem_of_nil.
Qed.

Lemma instantiate_dataclass_field D args pre f post v :
  plain_dataclass D ->
  dc_fields D = pre ++ f :: post ->
  Forall (reconstructs args) pre ->
  Forall (reconstructs args) post ->
  constructor_arg f args = Ok v ->
  exists inst,
    _instantiate_dataclass D args = Ok inst /\ getattr inst (f_name f) = Ok v.
Proof.
  intros HD Hfs Hpre Hpost Hv.
  destruct (instantiate_dataclass_ok D args HD) as (kwargs & Hinst & Hent).
  { rewrite Hfs. apply Forall_app. split; [exact Hpre|].
    constructor; [unfold reconstructs; by rewrite Hv|exact Hpost]. }
  exists (VInstance (qualname D) kwargs). split; [exact Hinst|].
  simpl. erewrite entries_get; [done|exact Hent|exact (proj1 HD)| |exact Hv].
  rewrite Hfs. apply elem_of_app. right. left.
Qed.

Lemma instantiate_dataclass_raise D args pre f post e :
  dc_fields D = pre ++ f :: post ->
  Forall (reconstructs args) pre ->
  constructor_arg f args = Raise e ->
  _instantiate_dataclass D args = Raise e.
Proof.
  intros Hfs Hpre He. unfold _instantiate_dataclass. rewrite Hfs.
  pose proof (collect_raise f_name (fun g => constructor_arg g args)
                pre f post [] e Hpre He) as Hloop.
  unfold collect_step in Hloop. by rewrite Hloop.
Qed.


(** ** Multi-instance reconstruction *)

Section Append.
Context {A B : Type} (h : A -> result B).

Lemma append_ok xs ys acc :
  Forall2 (fun x y => h x = Ok y) xs ys ->
  for_each (append_step h) xs acc = Ok (acc ++ ys).
Proof.
  intros H. revert acc. induction H as [|x y xs ys Hx _ IH]; intros acc; simpl.
  - by rewrite app_nil_r.
  - unfold append_step at 1. rewrite Hx. simpl. rewrite IH.
    by rewrite <- app_assoc.
Qed.

Lemma append_raise pre x post acc e :
  Forall (fun y => is_ok (h y) = true) pre ->
  h x = Raise e ->
  for_each (append_step h) (pre ++ x :: post) acc = Raise e.
Proof.
  intros Hpre Hx. revert acc. induction Hpre as [|y pre Hy _ IH]; intros acc; simpl.
  - unfold append_step. by rewrite Hx.
  - apply is_ok_true in Hy as [v Hv]. unfold append_step at 1. rewrite Hv.
    simpl. apply IH.
Qed.

Lemma results_exist xs :
  Forall (fun x => is_ok (h x) = true) xs ->
  exists ys, Forall2 (fun x y => h x = Ok y) xs ys.
Proof.
  induction 1 as [|x xs Hx _ [ys IH]]; [by exists []|].
  apply is_ok_true in Hx as [y Hy]. exists (y :: ys). by constructor.
Qed.
End Append.

Lemma append_inv {A B} (h : A -> result B) xs acc r :
  for_each (append_step h) xs acc = Ok r ->
  exists ys, r = acc ++ ys /\ Forall2 (fun x y => h x = Ok y) xs ys.
Proof.
  revert acc. induction xs as [|x xs IH]; intros acc H; simpl in H.
  - injection H as <-. exists []. by rewrite app_nil_r.
  - apply bind_Ok in H as (acc' & Hstep & Hrest).
    unfold append_step in Hstep. apply bind_Ok in Hstep as (y & Hy & [= <-]).
    apply IH in Hrest as (ys & -> & Hys).
    exists (y :: ys). split; [by rewrite <- app_assoc|by constructor].
Qed.

Lemma instance_argument_not_list N i name v :
  isinstance_list v = false -> instance_argument N i name v = Ok v.
Proof. intros H. unfold instance_argument. by rewrite H. Qed.

Lemma instance_argument_list N i name l :
  instance_argument N i name (VList l) =
  match l with
  | [] => Ok (VList l)
  | [x] => Ok x
  | _ =>
      if Nat.eqb (length l) N
      then match l !! i with
           | Some x => Ok x
           | None => Raise (TypeError "index out of range")
           end
      else Raise (InconsistentArgumentError name (length l) N)
  end.
Proof.
  unfold instance_argument. simpl.
  destruct l as [|x [|y l]]; reflexivity.
Qed.

Lemma instance_argument_consistent N i name v :
  consistent N v -> i < N -> is_ok (instance_argument N i name v) = true.
Proof.
  intros Hc Hi. destruct v; try reflexivity.
  rewrite instance_argument_list. simpl in Hc.
  destruct items as [|x [|y l]]; [done|done|].
  destruct Hc as [Hc|[Hc|Hc]]; [done|done|].
  rewrite <- Hc at 1. rewrite Nat.eqb_refl.
  destruct (lookup_lt_is_Some_2 (x :: y :: l) i) as [z Hz]; [lia|].
  by rewrite Hz.
Qed.

Lemma instance_argument_inconsistent N i name l :
  length l <> 0 -> length l <> 1 -> length l <> N ->
  instance_argument N i name (VList l) =
    Raise (InconsistentArgumentError name (length l) N).
Proof.
  intros H0 H1 HN. rewrite instance_argument_list.
  destruct l as [|x [|y l]]; [done|done|].
  by destruct (Nat.eqb_spec (length (x :: y :: l)) N).
Qed.

(** The first loop: the parsed values of the fields, in field order. *)
Lemma constructor_arguments_ok D args :
  plain_dataclass D ->
  all_parsed args (dc_fields D) ->
  exists kvs,
    Forall2 (entry_of f_name (fun f => getitem args (f_name f))) (dc_fields D) kvs /\
    for_each (fun acc f =>
                let* v := getitem args (f_name f) in
                Ok (dict_set acc (f_name f) v)) (dc_fields D) [] = Ok kvs.
Proof.
  intros [Hnd _] Hall.
  destruct (entries_exist f_name (fun f => getitem args (f_name f)) (dc_fields D))
    as [kvs Hent].
  { eapply Forall_impl; [exact Hall|]. intros f [v Hv]. unfold getitem. by rewrite Hv. }
  exists kvs. split; [exact Hent|].
  pose proof (collect_ok f_name _ _ _ [] Hent Hnd) as Hloop.
  unfold collect_step in Hloop. apply Hloop. intros ? _. apply not_elem_of_nil.
Qed.

Lemma getitem_Ok args k v : getitem args k = Ok v <-> args !! k = Some v.
Proof.
  unfold getitem. destruct (args !! k); split; intros H; by inversion H.
Qed.

(** The arguments of instance [i], when every value is consistent. *)
Lemma instance_arguments_ok N args (fs : list DataclassField) kvs i :
  Forall2 (entry_of f_name (fun f => getitem args (f_name f))) fs kvs ->
  NoDup (map f_name fs) ->
  all_consistent N args fs ->
  i < N ->
  exists kvs_i,
    instance_arguments N kvs i = Ok kvs_i /\
    Forall2 (entry_of fst (fun kv => instance_argument N i kv.1 kv.2)) kvs kvs_i.
Proof.
  intros Hent Hnd Hcons Hi.
  destruct (entries_exist fst (fun kv => instance_argument N i kv.1 kv.2) kvs)
    as [kvs_i Hent_i].
  { clear Hnd. induction Hent as [|f kv fs kvs [Hk Hv] _ IH]; [constructor|].
    inversion Hcons as [|? ? Hf Hrest]; subst.
    constructor; [|by apply IH].
    apply instance_argument_consistent; [|exact Hi].
    apply Hf. by apply getitem_Ok. }
  exists kvs_i. split; [|exact Hent_i].
  unfold instance_arguments.
  pose proof (collect_ok fst _ _ _ [] Hent_i) as Hloop.
  unfold collect_step in Hloop. apply Hloop.
  - change (map fst kvs) with (dict_keys kvs).
    by rewrite (entries_keys _ _ _ _ Hent).
  - intros ? _. apply not_elem_of_nil.
Qed.

Lemma entries_compose N args i (fs : list DataclassField) kvs kvs_i :
  Forall2 (entry_of f_name (fun f => getitem args (f_name f))) fs kvs ->
  Forall2 (entry_of fst (fun kv => instance_argument N i kv.1 kv.2)) kvs kvs_i ->
  Forall2 (fun f kv => kv.1 = f_name f /\
                       exists v, args !! f_name f = Some v /\
                                 instance_argument N i (f_name f) v = Ok kv.2)
    fs kvs_i.
Proof.
  intros H. revert kvs_i.
  induction H as [|f kv fs kvs [Hk Hv] _ IH]; intros kvs_i Hi;
    inversion Hi as [|? kv' ? kvs_i' [Hk' Hv'] Hrest]; subst; constructor.
  - simpl in *. split; [congruence|].
    exists kv.2. split; [by apply getitem_Ok|]. by rewrite <- Hk.
  - by apply IH.
Qed.

Lemma instance_entries_get N i args (fs : list DataclassField) kvs f v :
  instance_entries N i args fs kvs ->
  NoDup (map f_name fs) ->
  f ∈ fs -> args !! f_name f = Some v ->
  exists w, instance_argument N i (f_name f) v = Ok w /\
            dict_get kvs (f_name f) = Some w.
Proof.
  intros Hent Hnd Hf Hv.
  assert (Hkeys : dict_keys kvs = map f_name fs).
  { clear -Hent. induction Hent as [|g kv fs kvs [Hk _] _ IH]; simpl; [done|].
    by rewrite Hk, IH. }
  apply list_elem_of_lookup in Hf as [j Hj].
  destruct (Forall2_lookup_l _ _ _ _ _ Hent Hj) as ([k w] & Hkv & Hk & v' & Hv' & Hw).
  simpl in *. assert (v' = v) by congruence. subst v' k.
  exists w. split; [exact Hw|].
  apply dict_get_NoDup; [by rewrite Hkeys|by eapply list_elem_of_lookup_2].
Qed.

Lemma instantiate_multiple_ok D args N :
  plain_dataclass D ->
  all_parsed args (dc_fields D) ->
  all_consistent N args (dc_fields D) ->
  exists kvss,
    _instantiate_multiple_dataclasses D args N =
      Ok (map (VInstance (qualname D)) kvss) /\
    length kvss = N /\
    forall i kvs_i, kvss !! i = Some kvs_i ->
      instance_entries N i args (dc_fields D) kvs_i.
Proof.
  intros HD Hall Hcons.
  destruct (constructor_arguments_ok D args HD Hall) as (kvs & Hent & Hloop1).
  destruct (results_exist (fun i => instance_arguments N kvs i) (seq 0 N))
    as [kvss Hkvss].
  { apply Forall_forall. intros i Hi. apply elem_of_seq in Hi.
    destruct (instance_arguments_ok N args _ kvs i Hent (proj1 HD) Hcons)
      as (kvs_i & -> & _); [lia|done]. }
  assert (Hentries : forall i kvs_i, kvss !! i = Some kvs_i ->
            instance_entries N i args (dc_fields D) kvs_i).
  { intros i kvs_i Hi.
    destruct (Forall2_lookup_r _ _ _ _ _ Hkvss Hi) as (i' & Hi' & Hargs).
    apply lookup_seq in Hi' as [-> Hlt]. simpl in Hargs.
    destruct (instance_arguments_ok N args _ kvs i Hent (proj1 HD) Hcons Hlt)
      as (kvs_i' & Hargs' & Hent_i).
    assert (kvs_i' = kvs_i) by congruence. subst kvs_i'.
    exact (entries_compose N args i _ kvs kvs_i Hent Hent_i). }
  exists kvss. split; [|split; [|exact Hentries]].
  - unfold _instantiate_multiple_dataclasses. rewrite Hloop1. simpl.
    pose proof (append_ok (fun i => instance_arguments N kvs i) _ _ [] Hkvss)
      as Hloop2.
    unfold append_step in Hloop2. rewrite Hloop2. simpl.
    pose proof (append_ok (dataclass_call D) kvss
                  (map (VInstance (qualname D)) kvss) []) as Hloop3.
    unfold append_step in Hloop3. apply Hloop3.
    apply Forall2_fmap_r, Forall2_same_length_lookup_2; [done|].
    intros i kvs_i kvs_i' Hi Hi'. assert (kvs_i' = kvs_i) by congruence. subst.
    apply dataclass_call_full; [exact HD|].
    eapply Forall2_impl; [exact (Hentries i kvs_i Hi)|]. by intros f kv [Hk _].
  - apply Forall2_length in Hkvss. by rewrite length_seq in Hkvss.
Qed.

Lemma instantiate_multiple_raise D args N pre f post l :
  plain_dataclass D ->
  0 < N ->
  all_parsed args (dc_fields D) ->
  dc_fields D = pre ++ f :: post ->
  all_consistent N args pre ->
  args !! f_name f = Some (VList l) ->
  length l <> 0 -> length l <> 1 -> length l <> N ->
  _instantiate_multiple_dataclasses D args N =
    Raise (InconsistentArgumentError (f_name f) (length l) N).
Proof.
  intros HD HN Hall Hfs Hcons Hargs H0 H1 HlN.
  destruct (constructor_arguments_ok D args HD Hall) as (kvs & Hent & Hloop1).
  unfold _instantiate_multiple_dataclasses. rewrite Hloop1. simpl.
  assert (Hfirst : instance_arguments N kvs 0 =
                   Raise (InconsistentArgumentError (f_name f) (length l) N)).
  { rewrite Hfs in Hent.
    apply Forall2_app_inv_l in Hent as (kpre & krest & Hpre & Hrest & ->).
    inversion Hrest as [|? [k v] ? kpost [Hk Hv] Hpost]; subst. simpl in Hk, Hv.
    apply getitem_Ok in Hv. assert (v = VList l) by congruence. subst v k.
    unfold instance_arguments.
    pose proof (collect_raise fst (fun kv => instance_argument N 0 kv.1 kv.2)
                  kpre (f_name f, VList l) kpost []) as Hloop.
    unfold collect_step in Hloop. apply Hloop.
    - clear -Hpre Hcons HN.
      induction Hpre as [|g kv gs kvs [Hk Hv] _ IH]; [constructor|].
      inversion Hcons as [|? ? Hg Hrest]; subst.
      constructor; [|by apply IH].
      apply instance_argument_consistent; [|exact HN].
      apply Hg. by apply getitem_Ok.
    - simpl. by apply instance_argument_inconsistent. }
  destruct N as [|N']; [lia|].
  pose proof (append_raise (fun i => instance_arguments (S N') kvs i) [] 0
                (seq 1 N') [] _ (Forall_nil_2 _) Hfirst) as Hloop2.
  unfold append_step in Hloop2. simpl in Hloop2 |- *. by rewrite Hloop2.
Qed.

(** C1, as the code has it.  Multi-instance reconstruction, for a record
    type requested at [N > 1] destinations whose fields all have a parsed
    value.  A value that is not a list (a tuple included, whatever its
    length), or is the empty list, goes unchanged to all [N] instances; the
    item of a one-item list goes to all of them; the items of a list of [N]
    items go to the instances by position; and the first field whose list
    has any other length makes the call raise [InconsistentArgumentError]
    with that field's name, its count and [N]. *)
Theorem multi_instance_reconstruction (D : Dataclass) (args : gmap string value)
    (N : nat) :
  plain_dataclass D ->
  1 < N ->
  all_parsed args (dc_fields D) ->
  (all_consistent N args (dc_fields D) ->
   exists insts,
     _instantiate_multiple_dataclasses D args N = Ok insts /\
     length insts = N /\
     forall i inst f v,
       insts !! i = Some inst -> f ∈ dc_fields D -> args !! f_name f = Some v ->
       (isinstance_list v = false \/ v = VList [] ->
          getattr inst (f_name f) = Ok v) /\
       (forall x, v = VList [x] -> getattr inst (f_name f) = Ok x) /\
       (forall l, v = VList l -> length l = N ->
          exists x, l !! i = Some x /\ getattr inst (f_name f) = Ok x)) /\
  (forall pre f post l,
     dc_fields D = pre ++ f :: post ->
     all_consistent N args pre ->
     args !! f_name f = Some (VList l) ->
     length l <> 0 -> length l <> 1 -> length l <> N ->
     _instantiate_multiple_dataclasses D args N =
       Raise (InconsistentArgumentError (f_name f) (length l) N)).
Proof.
  intros HD HN Hall. split.
  - intros Hcons.
    destruct (instantiate_multiple_ok D args N HD Hall Hcons)
      as (kvss & Hrun & Hlen & Hentries).
    exists (map (VInstance (qualname D)) kvss).
    split; [exact Hrun|]. split; [by rewrite length_map|].
    intros i inst f v Hi Hf Hv.
    apply list_lookup_fmap_Some in Hi as (kvs_i & -> & Hi).
    destruct (instance_entries_get N i args _ kvs_i f v (Hentries i kvs_i Hi)
                (proj1 HD) Hf Hv) as (w & Hw & Hget).
    simpl. rewrite Hget.
    split; [|split].
    + intros [Hnl| ->].
      * rewrite instance_argument_not_list in Hw by done. congruence.
      * rewrite instance_argument_list in Hw. congruence.
    + intros x ->. rewrite instance_argument_list in Hw. congruence.
    + intros l -> Hl. rewrite instance_argument_list in Hw.
      destruct l as [|x [|y l]]; [simpl in Hl; lia|simpl in Hl; lia|].
      cbv beta iota in Hw. rewrite Hl, Nat.eqb_refl in Hw.
      destruct ((x :: y :: l) !! i) as [z|] eqn:Hz; [|discriminate].
      exists z. split; [done|congruence].
  - intros pre f post l Hfs Hcons Hargs H0 H1 HlN.
    apply (instantiate_multiple_raise D args N pre f post l); try done. lia.
Qed.

Lemma Point_plain : plain_dataclass Point.
Proof.
  split.
  - apply (bool_decide_unpack _). vm_compute. exact I.
  - repeat constructor.
Qed.

Lemma multi_instance_reconstruction_witness :
  exists insts,
    _instantiate_multiple_dataclasses Point two_points 2 = Ok insts /\
    length insts = 2.
Proof.
  assert (Hall : all_parsed two_points (dc_fields Point)).
  { repeat constructor; eexists; reflexivity. }
  assert (Hcons : all_consistent 2 two_points (dc_fields Point)).
  { repeat constructor; intros v Hv; vm_compute in Hv;
      injection Hv as <-; simpl; lia. }
  destruct (multi_instance_reconstruction Point two_points 2 Point_plain
              ltac:(lia) Hall) as [Hok _].
  destruct (Hok Hcons) as (insts & Hrun & Hlen & _).
  exists insts. split; [exact Hrun|exact Hlen].
Defined.

(** C1, as stated, fails on a tuple: the default [(1, 2)] of a tuple field,
    left in the namespace by an option that was not supplied, is a sequence
    of 2 items; at 3 destinations it is neither broadcast item by item nor
    refused, but handed unchanged to the three instances. *)
Lemma multi_instance_tuple_counterexample :
  isinstance_list_or_tuple (VTuple [VInt 1; VInt 2]) = true /\
  py_len (VTuple [VInt 1; VInt 2]) = Ok 2 /\
  _instantiate_multiple_dataclasses Pairs
    {[ "pair" := VTuple [VInt 1; VInt 2] ]} 3 =
    Ok [VInstance "Pairs" [("pair", VTuple [VInt 1; VInt 2])];
        VInstance "Pairs" [("pair", VTuple [VInt 1; VInt 2])];
        VInstance "Pairs" [("pair", VTuple [VInt 1; VInt 2])]].
Proof. repeat split; vm_compute; reflexivity. Qed.

(** The specification's scenarios: [Point] at two destinations with
    [--x 1 2 --y 3 3], and a field given 2 values at 3 destinations. *)
Example point_scenario :
  _instantiate_multiple_dataclasses Point
    {[ "x" := VList [VInt 1; VInt 2]; "y" := VList [VInt 3; VInt 3] ]} 2 =
    Ok [VInstance "Point" [("x", VInt 1); ("y", VInt 3)];
        VInstance "Point" [("x", VInt 2); ("y", VInt 3)]].
Proof. vm_compute. reflexivity. Qed.

Example two_values_three_destinations :
  _instantiate_multiple_dataclasses Point
    {[ "x" := VList [VInt 1; VInt 2]; "y" := VList [VInt 3] ]} 3 =
    Raise (InconsistentArgumentError "x" 2 3) /\
  inconsistent_message "x" 2 3 =
    "The field 'x' contains 2 values, but either 1 or 3 values were expected.".
Proof. split; vm_compute; reflexivity. Qed.

(** ** Option declarations *)

Lemma with_help_keeps f o :
  opt_type (with_help f o) = opt_type o /\
  opt_default (with_help f o) = opt_default o /\
  opt_required (with_help f o) = opt_required o /\
  opt_choices (with_help f o) = opt_choices o /\
  opt_nargs (with_help f o) = opt_nargs o.
Proof.
  unfold with_help. destruct (f_doc f) as [doc|]; [|done].
  destruct (nonempty (docstring_below doc)); [done|].
  destruct (nonempty (comment_above doc)); [done|].
  by destruct (nonempty (comment_inline doc)).
Qed.

Lemma with_default_or_required_fallback f o :
  opt_default o = None -> opt_required o = None ->
  opt_default (with_default_or_required f o) = field_fallback f /\
  opt_required (with_default_or_required f o) =
    (match field_fallback f with Some _ => None | None => Some true end) /\
  opt_nargs (with_default_or_required f o) = opt_nargs o /\
  opt_type (with_default_or_required f o) = opt_type o /\
  opt_choices (with_default_or_required f o) = opt_choices o.
Proof.
  intros Hd Hr. unfold with_default_or_required, field_fallback.
  destruct (f_default f); simpl; [done|].
  destruct (f_default_factory f); simpl; done.
Qed.

(** The declaration before the type-specific branch of [_add_arguments]. *)
Lemma base_arg_options f :
  let o := with_default_or_required f
             (with_help f (mkArgOptions (conv_type (f_type f)) None None None None None)) in
  opt_default o = field_fallback f /\
  opt_required o = (match field_fallback f with Some _ => None | None => Some true end) /\
  opt_nargs o = None /\ opt_type o = conv_type (f_type f) /\ opt_choices o = None.
Proof.
  intros o. subst o.
  destruct (with_help_keeps f
              (mkArgOptions (conv_type (f_type f)) None None None None None))
    as (Ht & Hd & Hr & Hc & Hn). simpl in *.
  destruct (with_default_or_required_fallback f _ Hd Hr) as (Hd' & Hr' & Hn' & Ht' & Hc').
  rewrite Hd', Hr', Hn', Ht', Hc', Hn, Ht, Hc. done.
Qed.

(** The test on the annotation, and the two views of a declaration. *)
Lemma Enum_in_mro_has_mro T :
  has_mro T = true ->
  Enum_in_mro T = Ok (match T with TEnum E => Some E | _ => None end).
Proof. unfold Enum_in_mro. by intros ->. Qed.

Lemma Enum_in_mro_raise T :
  has_mro T = false -> Enum_in_mro T = Raise (AttributeError "mro").
Proof. unfold Enum_in_mro. by intros ->. Qed.

Lemma field_arg_options_raise multiple f :
  has_mro (f_type f) = false ->
  field_arg_options multiple f = Raise (AttributeError "mro").
Proof. intros H. unfold field_arg_options. by rewrite Enum_in_mro_raise. Qed.

(** An [Optional] annotation has no [mro]: neither the registration nor the
    reconstruction gets past the test on it. *)
Example optional_annotation_raises :
  field_arg_options true limit_field = Raise (AttributeError "mro") /\
  constructor_arg limit_field {[ "limit" := VInt 1 ]} =
    Raise (AttributeError "mro").
Proof. split; reflexivity. Qed.

Lemma declared_spec {A} (key : ArgOptions -> A) multiple f o :
  field_arg_options multiple f = Ok o -> declared key multiple f = Ok (key o).
Proof. unfold declared. by intros ->. Qed.

Lemma stored_spec convert multiple f o occ :
  field_arg_options multiple f = Ok o ->
  stored convert multiple f occ = store_value convert o occ.
Proof. unfold stored. by intros ->. Qed.

(** The declaration, under several destinations, of a field that is neither
    an enumeration nor a list or tuple. *)
Lemma plain_arg_options_multiple f :
  has_mro (f_type f) = true ->
  is_enum (f_type f) = false ->
  is_tuple_or_list (f_type f) = false ->
  exists o,
    field_arg_options true f = Ok o /\
    opt_choices o = None /\
    opt_type o =
      (if is_bool (f_type f) then conv_str2bool else conv_type (f_type f)) /\
    opt_nargs o =
      Some (if negb (is_bool (f_type f)) &&
               match field_fallback f with None => true | Some _ => false end
            then "+" else "*") /\
    (is_bool (f_type f) = false ->
     opt_default o = field_fallback f /\
     opt_required o =
       match field_fallback f with Some _ => None | None => Some true end).
Proof.
  intros Hm He Hs.
  destruct (base_arg_options f) as (Hbd & Hbr & Hbn & Hbt & Hbc).
  unfold field_arg_options. rewrite (Enum_in_mro_has_mro _ Hm). cbn [bind].
  destruct (f_type f) eqn:Hty; try discriminate; simpl in *;
    try (rewrite Hbr; destruct (field_fallback f); simpl;
         eexists; (split; [reflexivity|]); simpl;
         by rewrite ?Hbc, ?Hbt, ?Hbd, ?Hbr).
  unfold field_fallback. destruct (f_default f); simpl;
    eexists; (split; [reflexivity|]); simpl; by rewrite ?Hbc.
Qed.

Lemma is_scalar_spec T :
  is_scalar T = true <->
  has_mro T = true /\ is_enum T = false /\ is_tuple_or_list T = false /\
  is_bool T = false.
Proof.
  unfold is_scalar. rewrite !andb_true_iff, !negb_true_iff. tauto.
Qed.

(** C8. Scalar arity under multiple destinations: for a scalar field (an
    annotation that is a class, other than a boolean, an enumeration or a
    sequence) of a type requested at more than one destination, the declared
    arity is one-or-more (["+"]) when the field has neither default nor
    factory, and the engine then refuses its absence; it is zero-or-more
    (["*"]) when it has a default, and an option that is not supplied then
    leaves the default in the namespace (a string default after the
    conversion by the field's type, which is what the engine does with it),
    which every instance receives. *)
Theorem scalar_arity_under_multiple
    (convert : converter -> string -> result value) (f : DataclassField) :
  is_scalar (f_type f) = true ->
  (field_fallback f = None ->
     declared opt_nargs true f = Ok (Some "+") /\
     declared opt_required true f = Ok (Some true) /\
     declared opt_default true f = Ok None /\
     stored convert true f NotSupplied = Raise (SystemExit 2)) /\
  (forall d, field_fallback f = Some d ->
     declared opt_nargs true f = Ok (Some "*") /\
     declared opt_required true f = Ok None /\
     declared opt_default true f = Ok (Some d) /\
     ((forall s, d <> VStr s) -> stored convert true f NotSupplied = Ok d) /\
     (forall s, d = VStr s ->
        stored convert true f NotSupplied =
          match convert (conv_type (f_type f)) s with
          | Ok v => Ok v
          | Raise _ => Raise (SystemExit 2)
          end) /\
     (forall v, stored convert true f NotSupplied = Ok v ->
        isinstance_list v = false ->
        forall N i, instance_argument N i (f_name f) v = Ok v)).
Proof.
  intros (Hm & He & Hs & Hb)%is_scalar_spec.
  destruct (plain_arg_options_multiple f Hm He Hs)
    as (o & Ho & Hc & Ht & Hn & Hrest).
  destruct (Hrest Hb) as [Hd Hr]. rewrite Hb in Ht, Hn. simpl in Ht, Hn.
  rewrite !(declared_spec _ _ _ _ Ho), (stored_spec _ _ _ _ _ Ho).
  rewrite Hn, Hr, Hd. split.
  - intros Hnone. rewrite Hnone. repeat split.
    unfold store_value. by rewrite Hr, Hnone.
  - intros d Hsome. rewrite Hsome. repeat split.
    + intros Hstr. unfold store_value. rewrite Hr, Hd, Hsome.
      destruct d; try done. by destruct (Hstr s).
    + intros s ->. unfold store_value. rewrite Hr, Hd, Hsome.
      unfold convert_value. by rewrite Ht.
    + intros v _ Hlist N i. unfold instance_argument. by rewrite Hlist.
Qed.

Lemma scalar_arity_under_multiple_witness :
  declared opt_nargs true rate_field = Ok (Some "+") /\
  declared opt_nargs true seed_field = Ok (Some "*") /\
  stored keep_token true name_field NotSupplied = Ok (VStr "run").
Proof.
  split; [|split].
  - apply (scalar_arity_under_multiple keep_token rate_field); reflexivity.
  - apply (scalar_arity_under_multiple keep_token seed_field) with (d := VInt 13);
      reflexivity.
  - destruct (scalar_arity_under_multiple keep_token name_field eq_refl)
      as [_ Hdefault].
    destruct (Hdefault (VStr "run") eq_refl) as (_ & _ & _ & _ & Hstr & _).
    exact (Hstr "run" eq_refl).
Defined.

Lemma bool_arg_options multiple f :
  f_type f = TBool ->
  exists o,
    field_arg_options multiple f = Ok o /\
    opt_default o = Some (declared_default f) /\
    opt_type o = conv_str2bool /\
    opt_nargs o = Some (if multiple then "*" else "?") /\
    opt_required o = match f_default f with None => Some true | Some _ => None end /\
    opt_choices o = None.
Proof.
  intros Hty.
  destruct (base_arg_options f) as (Hd & Hr & Hn & Ht & Hc).
  unfold field_arg_options, declared_default.
  rewrite Hty in Hd, Hr, Hn, Ht, Hc |- *. simpl.
  unfold field_fallback in *.
  destruct (f_default f) as [d|]; simpl;
    (eexists; split; [reflexivity|]); simpl; by rewrite ?Hr, ?Hc.
Qed.

(** What the instances hold for a field whose parsed value is not a list,
    or is the empty list, when the class is reconstructed [N] times. *)
Lemma instances_share_value D args N f v :
  plain_dataclass D ->
  all_parsed args (dc_fields D) ->
  all_consistent N args (dc_fields D) ->
  f ∈ dc_fields D ->
  args !! f_name f = Some v ->
  isinstance_list v = false \/ v = VList [] ->
  exists insts,
    _instantiate_multiple_dataclasses D args N = Ok insts /\
    length insts = N /\
    forall i inst, insts !! i = Some inst -> getattr inst (f_name f) = Ok v.
Proof.
  intros HD Hall Hcons Hf Hv Hshape.
  destruct (instantiate_multiple_ok D args N HD Hall Hcons)
    as (kvss & Hrun & Hlen & Hentries).
  exists (map (VInstance (qualname D)) kvss).
  split; [exact Hrun|]. split; [by rewrite length_map|].
  intros i inst Hi.
  apply list_lookup_fmap_Some in Hi as (kvs_i & -> & Hi).
  destruct (instance_entries_get N i args _ kvs_i f v (Hentries i kvs_i Hi)
              (proj1 HD) Hf Hv) as (w & Hw & Hget).
  simpl. rewrite Hget. destruct Hshape as [Hnl| ->].
  - rewrite instance_argument_not_list in Hw by done. congruence.
  - rewrite instance_argument_list in Hw. congruence.
Qed.

(** C6, as the code has it.  For a boolean field with no declared default
    the declaration is marked required, and what the engine refuses is
    leaving the flag out; the declaration carries the default [False] all
    the same, and its arity is zero-or-one (zero-or-more under multiple
    destinations), so that the engine accepts the bare flag.  Declared for
    one destination the bare flag leaves [None] in the namespace, which
    reconstructs to [True]; declared for several it leaves the empty list,
    which every instance receives as it is. *)
Theorem boolean_without_default_declaration
    (convert : converter -> string -> result value) (multiple : bool)
    (f : DataclassField) :
  f_type f = TBool ->
  f_default f = None ->
  declared opt_required multiple f = Ok (Some true) /\
  declared opt_default multiple f = Ok (Some (VBool false)) /\
  declared opt_type multiple f = Ok conv_str2bool /\
  declared opt_nargs multiple f = Ok (Some (if multiple then "*" else "?")) /\
  stored convert multiple f NotSupplied = Raise (SystemExit 2) /\
  stored convert false f (Supplied []) = Ok VNone /\
  (forall args, args !! f_name f = Some VNone ->
     constructor_arg f args = Ok (VBool true)) /\
  stored convert true f (Supplied []) = Ok (VList []) /\
  (forall N i, instance_argument N i (f_name f) (VList []) = Ok (VList [])) /\
  (forall D args N,
     plain_dataclass D -> all_parsed args (dc_fields D) ->
     all_consistent N args (dc_fields D) -> f ∈ dc_fields D ->
     args !! f_name f = Some (VList []) ->
     exists insts,
       _instantiate_multiple_dataclasses D args N = Ok insts /\
       length insts = N /\
       forall i inst, insts !! i = Some inst ->
         getattr inst (f_name f) = Ok (VList [])).
Proof.
  intros Hty Hdef.
  destruct (bool_arg_options multiple f Hty) as (o & Ho & Hd & Ht & Hn & Hr & _).
  destruct (bool_arg_options false f Hty) as (o1 & Ho1 & _ & _ & Hn1 & _).
  destruct (bool_arg_options true f Hty) as (oN & HoN & _ & _ & HnN & _).
  unfold declared_default in Hd. rewrite Hdef in Hd, Hr.
  rewrite !(declared_spec _ _ _ _ Ho), (stored_spec _ _ _ _ _ Ho),
    (stored_spec _ _ _ _ _ Ho1), (stored_spec _ _ _ _ _ HoN).
  rewrite Hr, Hd, Ht, Hn.
  split; [done|]. split; [done|]. split; [done|]. split; [done|].
  split; [unfold store_value; by rewrite Hr|].
  split; [unfold store_value; by rewrite Hn1|].
  split.
  { intros args Hargs. unfold constructor_arg, getitem.
    rewrite Hty, Hargs, Hdef. reflexivity. }
  split; [unfold store_value; by rewrite HnN|].
  split; [done|].
  intros D args N HD Hall Hcons Hf Hargs.
  apply (instances_share_value D args N f (VList [])); auto.
Qed.

Lemma boolean_without_default_declaration_witness :
  declared opt_required false flag_field = Ok (Some true) /\
  declared opt_nargs false flag_field = Ok (Some "?") /\
  stored keep_token true flag_field (Supplied []) = Ok (VList []).
Proof.
  pose proof (boolean_without_default_declaration keep_token false flag_field
                eq_refl eq_refl) as (Hr & _ & _ & Hn & _ & _ & _ & Hbare & _).
  exact (conj Hr (conj Hn Hbare)).
Defined.

(** C6, as stated, fails on the field [flag: bool] without default: the
    declaration holds a default the schema does not declare, and the bare
    flag is accepted and reconstructs to [True]. *)
Lemma boolean_without_default_counterexample :
  f_default flag_field = None /\
  f_default_factory flag_field = None /\
  declared opt_default false flag_field = Ok (Some (VBool false)) /\
  stored keep_token false flag_field (Supplied []) = Ok VNone /\
  _instantiate_dataclass Flags {[ "flag" := VNone ]} =
    Ok (VInstance "Flags" [("flag", VBool true)]).
Proof. repeat split; vm_compute; reflexivity. Qed.

(** ** Enumerations *)

Lemma enum_names_of_members (q : string) (mp : list (string * value)) (names : list string) :
  (forall n, n ∈ names -> exists v, dict_get mp n = Some (VEnum q n v)) ->
  map enum_name (omap (dict_get mp) names) = names.
Proof.
  induction names as [|n names IH]; intros Hwf; [done|].
  simpl. destruct (Hwf n) as [v Hv]; [left|]. rewrite Hv. simpl.
  f_equal. apply IH. intros n' Hn'. apply Hwf. by right.
Qed.

Lemma enum_getitem_member E m :
  enum_wf E -> m ∈ enum_iter E -> enum_getitem E (VStr (enum_name m)) = Ok m.
Proof.
  intros Hwf Hm. unfold enum_iter in Hm.
  apply list_elem_of_omap in Hm as (n & Hn & Hget).
  destruct (Hwf n Hn) as [v Hv].
  assert (m = VEnum (enum_qualname E) n v) by congruence. subst m.
  simpl. by rewrite Hv.
Qed.

Lemma enum_arg_options multiple f E :
  f_type f = TEnum E ->
  exists o,
    field_arg_options multiple f = Ok o /\
    opt_choices o = Some (map enum_name (enum_iter E)) /\
    opt_type o = conv_type TStr /\
    opt_nargs o = None /\
    opt_required o =
      match field_fallback f with Some _ => None | None => Some true end /\
    opt_default o =
      match field_fallback f with
      | Some m => Some (if isinstance_Enum m then VStr (enum_name m) else m)
      | None => None
      end.
Proof.
  intros Hty.
  destruct (base_arg_options f) as (Hd & Hr & Hn & Ht & Hc).
  unfold field_arg_options. rewrite Hty in Hd, Hr, Hn, Ht, Hc |- *. simpl.
  rewrite Hd.
  destruct (field_fallback f) as [m|]; [destruct (isinstance_Enum m) eqn:Hm|];
    (eexists; split; [reflexivity|]); simpl; by rewrite ?Hr, ?Hn, ?Hd, ?Hm.
Qed.

(** C3, as the code has it.  Enum name fidelity: for an enumeration-typed
    field the allowed choices are the names of the members (in definition
    order), the value type handed to the engine is [str], a default that is
    a member is declared by its name, and the option takes one token, which
    the engine stores as a string when it is the name of a member.  The
    reconstruction of a single instance looks that name up in the
    enumeration, so that the name of a member parses back to that member;
    the reconstruction of several instances does not: every instance
    receives the parsed name itself. *)
Theorem enum_name_fidelity (convert : converter -> string -> result value)
    (D : Dataclass) (pre post : list DataclassField)
    (f : DataclassField) (E : EnumClass) (multiple : bool)
    (args : gmap string value) :
  plain_dataclass D ->
  dc_fields D = pre ++ f :: post ->
  f_type f = TEnum E ->
  enum_wf E ->
  declared opt_choices multiple f = Ok (Some (map enum_name (enum_iter E))) /\
  map enum_name (enum_iter E) = _member_names_ E /\
  declared opt_type multiple f = Ok (conv_type TStr) /\
  declared opt_nargs multiple f = Ok None /\
  (forall m, field_fallback f = Some m -> isinstance_Enum m = true ->
     declared opt_default multiple f = Ok (Some (VStr (enum_name m)))) /\
  (forall m, m ∈ enum_iter E ->
     convert (conv_type TStr) (enum_name m) = Ok (VStr (enum_name m)) ->
     stored convert multiple f (Supplied [enum_name m]) =
       Ok (VStr (enum_name m))) /\
  (forall m, m ∈ enum_iter E ->
     args !! f_name f = Some (VStr (enum_name m)) ->
     constructor_arg f args = Ok m /\
     (Forall (reconstructs args) pre -> Forall (reconstructs args) post ->
      exists inst,
        _instantiate_dataclass D args = Ok inst /\
        getattr inst (f_name f) = Ok m)) /\
  (forall N n,
     all_parsed args (dc_fields D) -> all_consistent N args (dc_fields D) ->
     args !! f_name f = Some (VStr n) ->
     exists insts,
       _instantiate_multiple_dataclasses D args N = Ok insts /\
       length insts = N /\
       forall i inst, insts !! i = Some inst ->
         getattr inst (f_name f) = Ok (VStr n)).
Proof.
  intros HD Hfs Hty Hwf.
  destruct (enum_arg_options multiple f E Hty) as (o & Ho & Hc & Ht & Hn & Hr & Hd).
  assert (Harg : forall m, m ∈ enum_iter E ->
            args !! f_name f = Some (VStr (enum_name m)) ->
            constructor_arg f args = Ok m).
  { intros m Hm Hargs. unfold constructor_arg, getitem. rewrite Hty, Hargs. simpl.
    by apply enum_getitem_member. }
  rewrite !(declared_spec _ _ _ _ Ho). rewrite Hc, Ht, Hn.
  split; [done|]. split.
  { unfold enum_iter. apply (enum_names_of_members (enum_qualname E)). exact Hwf. }
  split; [done|]. split; [done|]. split.
  { intros m Hm Henum. by rewrite Hd, Hm, Henum. }
  split.
  { intros m Hm Hconv. rewrite (stored_spec _ _ _ _ _ Ho).
    unfold store_value. rewrite Hn. unfold get_value, convert_value.
    rewrite Ht, Hconv. simpl. unfold check_value. rewrite Hc.
    by rewrite bool_decide_true by (by apply list_elem_of_fmap_2). }
  split.
  { intros m Hm Hargs. split; [by apply Harg|].
    intros Hpre Hpost.
    exact (instantiate_dataclass_field D args pre f post m HD Hfs Hpre Hpost
             (Harg m Hm Hargs)). }
  intros N n Hall Hcons Hargs.
  apply (instances_share_value D args N f (VStr n)); auto.
  rewrite Hfs. apply elem_of_app. right. left.
Qed.

Lemma LoggingTypes_wf : enum_wf LoggingTypes.
Proof.
  intros n Hn. simpl in Hn.
  repeat (apply elem_of_cons in Hn as [->|Hn]; [eexists; reflexivity|]).
  by apply elem_of_nil in Hn.
Qed.

Lemma Logger_plain : plain_dataclass Logger.
Proof.
  split.
  - apply (bool_decide_unpack _). vm_compute. exact I.
  - repeat constructor.
Qed.

Lemma enum_name_fidelity_witness :
  declared opt_choices false logging_field = Ok (Some ["JSONL"; "PRINT"]) /\
  constructor_arg logging_field {[ "logging" := VStr "JSONL" ]} =
    Ok (VEnum "LoggingTypes" "JSONL" (VStr "jsonl")).
Proof.
  pose proof (enum_name_fidelity keep_token Logger [seed_field] [] logging_field
                LoggingTypes false {[ "logging" := VStr "JSONL" ]} Logger_plain
                eq_refl eq_refl LoggingTypes_wf)
    as (Hchoices & _ & _ & _ & _ & _ & Hround & _).
  split; [exact Hchoices|].
  apply (Hround (VEnum "LoggingTypes" "JSONL" (VStr "jsonl"))).
  - simpl. left.
  - reflexivity.
Defined.

(** C3, as stated, fails on a class requested at several destinations:
    [Logger] at two destinations, the engine having stored the name
    [JSONL] for its enumeration field, is reconstructed with the string in
    both instances, where the name parses back to a member at one
    destination only. *)
Lemma enum_name_multiple_counterexample :
  declared opt_type true logging_field = Ok (conv_type TStr) /\
  stored keep_token true logging_field (Supplied ["JSONL"]) = Ok (VStr "JSONL") /\
  _instantiate_multiple_dataclasses Logger shared_logger_namespace 2 =
    Ok [VInstance "Logger" [("seed", VInt 1); ("logging", VStr "JSONL")];
        VInstance "Logger" [("seed", VInt 1); ("logging", VStr "JSONL")]] /\
  enum_getitem LoggingTypes (VStr "JSONL") =
    Ok (VEnum "LoggingTypes" "JSONL" (VStr "jsonl")) /\
  isinstance_Enum (VStr "JSONL") = false.
Proof. repeat split; vm_compute; reflexivity. Qed.

(** ** The boolean inversion law *)

(** C2, as the code has it.  Boolean inversion law at single-instance
    reconstruction.  For a boolean field whose default is the boolean [d]
    ([False] when the schema declares none): a parsed value [None] gives
    the instance the field [not d]; a parsed boolean is used as it is; any
    other parsed value raises [ArgumentTypeError].  A flag that is not
    supplied leaves [d] in the namespace, which reconstructs to [d], when
    the schema declares the default [d]; when it declares none the option
    is required and the engine refuses the command line. *)
Theorem boolean_inversion_law (convert : converter -> string -> result value)
    (D : Dataclass) (pre post : list DataclassField) (f : DataclassField)
    (d : bool) (args : gmap string value) :
  plain_dataclass D ->
  dc_fields D = pre ++ f :: post ->
  f_type f = TBool ->
  declared_default f = VBool d ->
  Forall (reconstructs args) pre ->
  (args !! f_name f = Some VNone ->
     constructor_arg f args = Ok (VBool (negb d)) /\
     (Forall (reconstructs args) post ->
      exists inst, _instantiate_dataclass D args = Ok inst /\
                   getattr inst (f_name f) = Ok (VBool (negb d)))) /\
  (forall b, args !! f_name f = Some (VBool b) ->
     constructor_arg f args = Ok (VBool b) /\
     (Forall (reconstructs args) post ->
      exists inst, _instantiate_dataclass D args = Ok inst /\
                   getattr inst (f_name f) = Ok (VBool b))) /\
  (forall v, args !! f_name f = Some v -> v <> VNone -> (forall b, v <> VBool b) ->
     _instantiate_dataclass D args = Raise (ArgumentTypeError (f_name f) v)) /\
  (f_default f = Some (VBool d) \/ (f_default f = None /\ d = false)) /\
  (f_default f = Some (VBool d) ->
     stored convert false f NotSupplied = Ok (VBool d) /\
     (args !! f_name f = Some (VBool d) -> Forall (reconstructs args) post ->
      exists inst, _instantiate_dataclass D args = Ok inst /\
                   getattr inst (f_name f) = Ok (VBool d))) /\
  (f_default f = None ->
     declared opt_required false f = Ok (Some true) /\
     stored convert false f NotSupplied = Raise (SystemExit 2)).
Proof.
  intros HD Hfs Hty Hd Hpre.
  assert (Hnone : args !! f_name f = Some VNone ->
                  constructor_arg f args = Ok (VBool (negb d))).
  { intros Hargs. unfold constructor_arg, getitem. rewrite Hty, Hargs. simpl.
    unfold declared_default in Hd. rewrite Hd. reflexivity. }
  assert (Hbool : forall b, args !! f_name f = Some (VBool b) ->
                  constructor_arg f args = Ok (VBool b)).
  { intros b Hargs. unfold constructor_arg, getitem. by rewrite Hty, Hargs. }
  assert (Hinst : forall b, args !! f_name f = Some (VBool b) ->
            Forall (reconstructs args) post ->
            exists inst, _instantiate_dataclass D args = Ok inst /\
                         getattr inst (f_name f) = Ok (VBool b)).
  { intros b Hargs Hpost.
    exact (instantiate_dataclass_field D args pre f post _ HD Hfs Hpre Hpost
             (Hbool b Hargs)). }
  destruct (bool_arg_options false f Hty) as (o & Ho & Hodef & _ & _ & Hreq & _).
  rewrite Hd in Hodef.
  rewrite (declared_spec _ _ _ _ Ho), (stored_spec _ _ _ _ _ Ho).
  split; [|split; [|split; [|split; [|split]]]].
  - intros Hargs. split; [by apply Hnone|]. intros Hpost.
    exact (instantiate_dataclass_field D args pre f post _ HD Hfs Hpre Hpost
             (Hnone Hargs)).
  - intros b Hargs. split; [by apply Hbool|]. by apply Hinst.
  - intros v Hargs Hnn Hnb.
    apply (instantiate_dataclass_raise D args pre f post); [done|done|].
    unfold constructor_arg, getitem. rewrite Hty, Hargs. simpl.
    destruct v; try done. by destruct (Hnb b).
  - unfold declared_default in Hd. destruct (f_default f) as [x|].
    + left. by rewrite Hd.
    + right. split; [done|]. by injection Hd as <-.
  - intros Hdef. split; [|by apply Hinst].
    unfold store_value. by rewrite Hreq, Hodef, Hdef.
  - intros Hdef. rewrite Hreq, Hdef. split; [done|].
    unfold store_value. by rewrite Hreq, Hdef.
Qed.

Lemma Options_plain : plain_dataclass Options.
Proof.
  split.
  - apply (bool_decide_unpack _). vm_compute. exact I.
  - repeat constructor.
Qed.

Lemma boolean_inversion_law_witness :
  constructor_arg verbose_field {[ "seed" := VInt 1; "verbose" := VNone ]} =
    Ok (VBool false) /\
  stored keep_token false verbose_field NotSupplied = Ok (VBool true).
Proof.
  assert (Hpre : Forall (reconstructs {[ "seed" := VInt 1; "verbose" := VNone ]})
                   [seed_field]).
  { repeat constructor. }
  pose proof (boolean_inversion_law keep_token Options [seed_field] [] verbose_field
                true {[ "seed" := VInt 1; "verbose" := VNone ]}
                Options_plain eq_refl eq_refl eq_refl Hpre)
    as (Hnone & _ & _ & _ & Hdefault & _).
  split.
  - apply Hnone. reflexivity.
  - apply Hdefault. reflexivity.
Defined.

(** C2, as stated, fails on a boolean field without declared default: its
    default is taken as [False], but a flag that is not supplied does not
    give the field [False]: the option is required, the engine ends the
    parse with status 2 and no instance is built. *)
Lemma boolean_not_supplied_counterexample :
  f_type flag_field = TBool /\
  declared_default flag_field = VBool false /\
  declared opt_required false flag_field = Ok (Some true) /\
  stored keep_token false flag_field NotSupplied = Raise (SystemExit 2).
Proof. repeat split. Qed.

(** ** [parse_args] *)

Lemma args_to_add_touch_present tbl D dests :
  (D, dests) ∈ tbl -> args_to_add_touch tbl D = tbl.
Proof.
  induction tbl as [|[D' ds] tbl IH]; intros Hin.
  - by apply elem_of_nil in Hin.
  - simpl. destruct (same_class D' D) eqn:Hsame; [done|].
    apply elem_of_cons in Hin as [[= <- <-]|Hin].
    + unfold same_class in Hsame. by rewrite Nat.eqb_refl in Hsame.
    + by rewrite IH.
Qed.

(** One registration: the table is read, the group is appended. *)
Lemma add_arguments_registers self D multiple self' :
  _add_arguments self D multiple = Ok self' ->
  _args_to_add self' = args_to_add_touch (_args_to_add self) D /\
  exists actions,
    _action_groups self' =
      _action_groups self ++
      [mkArgumentGroup
         (qualname D +:+ " [" +:+
          join ", " (map (fun name => "'" +:+ name +:+ "'")
                       (args_to_add_get (_args_to_add self) D)) +:+ "]")
         (dc_doc D) actions] /\
    Forall2 (fun f action =>
               action.1 = ("--" +:+ f_name f) /\
               field_arg_options multiple f = Ok action.2)
      (dc_fields D) actions /\
    NoDup (map fst actions) /\
    (forall name, name ∈ map fst actions ->
       name ∉ option_strings (_action_groups self)).
Proof.
  unfold _add_arguments. intros H.
  apply bind_Ok in H as (actions & Hloop & [= <-]). split; [done|].
  exists actions. split; [done|].
  assert (Hgen : forall fs acc actions,
    for_each (fun actions f =>
                let name := "--" +:+ f_name f in
                let* arg_options := field_arg_options multiple f in
                add_argument (option_strings (_action_groups self)) actions name
                  arg_options) fs acc = Ok actions ->
    NoDup (map fst acc) ->
    (forall name, name ∈ map fst acc ->
       name ∉ option_strings (_action_groups self)) ->
    exists new,
      actions = acc ++ new /\
      Forall2 (fun f action =>
                 action.1 = ("--" +:+ f_name f) /\
                 field_arg_options multiple f = Ok action.2) fs new /\
      NoDup (map fst actions) /\
      (forall name, name ∈ map fst actions ->
         name ∉ option_strings (_action_groups self))).
  { clear. induction fs as [|f fs IH]; intros acc actions H Hnd Hnew.
    - injection H as <-. exists []. by rewrite app_nil_r.
    - cbn [for_each] in H. apply bind_Ok in H as (acc' & Hstep & Hrest).
      cbv zeta in Hstep. apply bind_Ok in Hstep as (o & Ho & Hadd).
      unfold add_argument in Hadd. case_bool_decide as Hin; [done|].
      injection Hadd as <-.
      rewrite elem_of_app in Hin.
      destruct (IH _ _ Hrest) as (new & -> & Hfs & Hnd' & Hnew').
      + rewrite map_app. simpl. apply NoDup_app. split; [done|].
        split; [|apply NoDup_singleton].
        intros k Hk ->%list_elem_of_singleton. tauto.
      + intros k. rewrite map_app, elem_of_app. simpl.
        rewrite list_elem_of_singleton. intros [Hk| ->]; [by apply Hnew|tauto].
      + exists ((("--" +:+ f_name f), o) :: new). rewrite <- app_assoc in *.
        split; [done|]. split; [by constructor|]. by split. }
  destruct (Hgen _ _ _ Hloop) as (new & -> & Hfs & Hnd & Hnew);
    [constructor|by intros k Hk%elem_of_nil|].
  done.
Qed.

Lemma registration_keeps_requests self (requests : list (Dataclass * list string))
    self' :
  (forall r, r ∈ requests -> r ∈ _args_to_add self) ->
  for_each (fun self request =>
              _add_arguments self request.1 (Nat.ltb 1 (length request.2)))
    requests self = Ok self' ->
  _args_to_add self' = _args_to_add self.
Proof.
  revert self. induction requests as [|[D ds] requests IH]; intros self Hin H.
  - by injection H as <-.
  - cbn [for_each fst snd] in H. apply bind_Ok in H as (self1 & Hstep & Hrest).
    destruct (add_arguments_registers _ _ _ _ Hstep) as [Htbl _].
    rewrite (args_to_add_touch_present _ D ds) in Htbl by (apply Hin; left).
    rewrite (IH self1); [exact Htbl| |exact Hrest].
    intros r Hr. rewrite Htbl. apply Hin. by right.
Qed.

Lemma constructor_arg_parsed f args :
  is_ok (constructor_arg f args) = true -> is_Some (args !! f_name f).
Proof.
  unfold constructor_arg, getitem.
  destruct (args !! f_name f) as [v|]; [by eexists|].
  destruct (f_type f); simpl; discriminate.
Qed.

Lemma dataclass_call_instance D kwargs inst :
  dataclass_call D kwargs = Ok inst -> exists attrs, inst = VInstance (qualname D) attrs.
Proof.
  unfold dataclass_call. destruct (find _ kwargs); [discriminate|].
  intros H. apply bind_Ok in H as (attrs & _ & [= <-]). by exists attrs.
Qed.

Lemma instantiate_dataclass_inv D args inst :
  _instantiate_dataclass D args = Ok inst ->
  (exists attrs, inst = VInstance (qualname D) attrs) /\
  all_parsed args (dc_fields D).
Proof.
  unfold _instantiate_dataclass. intros H.
  apply bind_Ok in H as (kwargs & Hloop & Hcall).
  split; [by eapply dataclass_call_instance|].
  pose proof (collect_inv f_name (fun f => constructor_arg f args)) as Hinv.
  unfold collect_step in Hinv. apply Hinv in Hloop.
  eapply Forall_impl; [exact Hloop|]. intros f. apply constructor_arg_parsed.
Qed.

Lemma instantiate_multiple_inv D args N insts :
  _instantiate_multiple_dataclasses D args N = Ok insts ->
  length insts = N /\
  Forall (fun inst => exists attrs, inst = VInstance (qualname D) attrs) insts /\
  (0 < N -> all_parsed args (dc_fields D)).
Proof.
  unfold _instantiate_multiple_dataclasses. intros H.
  apply bind_Ok in H as (kvs & Hloop1 & H).
  apply bind_Ok in H as (kvss & Hloop2 & Hloop3).
  pose proof (append_inv (fun i => instance_arguments N kvs i) (seq 0 N) [] kvss)
    as Hinv2.
  unfold append_step in Hinv2. apply Hinv2 in Hloop2 as (ys & -> & Hys).
  pose proof (append_inv (dataclass_call D) ys [] insts) as Hinv3.
  unfold append_step in Hinv3. apply Hinv3 in Hloop3 as (zs & -> & Hzs).
  simpl. apply Forall2_length in Hys as Hlen2. apply Forall2_length in Hzs as Hlen3.
  rewrite length_seq in Hlen2. split; [congruence|]. split.
  - apply Forall_forall. intros inst Hin.
    apply list_elem_of_lookup in Hin as [i Hi].
    destruct (Forall2_lookup_r _ _ _ _ _ Hzs Hi) as (kw & _ & Hcall).
    by eapply dataclass_call_instance.
  - intros _.
    pose proof (collect_inv f_name
                  (fun f : DataclassField => getitem args (f_name f))) as Hinv.
    unfold collect_step in Hinv. apply Hinv in Hloop1.
    eapply Forall_impl; [exact Hloop1|]. intros f Hf.
    apply is_ok_true in Hf as [v Hv]. apply getitem_Ok in Hv. by exists v.
Qed.

Lemma bind_instances_frame ns pairs k :
  k ∉ pairs.*2 -> bind_instances ns pairs !! k = ns !! k.
Proof.
  unfold bind_instances. revert ns.
  induction pairs as [|[inst d] pairs IH]; intros ns Hk; [done|].
  simpl in *. rewrite not_elem_of_cons in Hk. destruct Hk as [Hne Hk].
  rewrite IH by done. by rewrite lookup_insert_ne.
Qed.

Lemma bound_instance_insert ns d cls attrs k :
  bound_instance ns k \/ k = d ->
  bound_instance (<[d := VInstance cls attrs]> ns) k.
Proof.
  intros H. unfold bound_instance. destruct (decide (d = k)) as [->|Hne].
  - rewrite lookup_insert_eq. eauto.
  - rewrite lookup_insert_ne by done. destruct H as [H|H]; [exact H|congruence].
Qed.

Lemma bind_instances_bound ns pairs k :
  Forall (fun p => exists cls attrs, p.1 = VInstance cls attrs) pairs ->
  bound_instance ns k \/ k ∈ pairs.*2 ->
  bound_instance (bind_instances ns pairs) k.
Proof.
  unfold bind_instances. intros Hinsts. revert ns.
  induction Hinsts as [|[inst d] pairs (cls & attrs & Hinst) _ IH]; intros ns Hk.
  - simpl in *. destruct Hk as [Hk|Hk]; [exact Hk|by apply elem_of_nil in Hk].
  - simpl in *. subst inst. apply IH.
    destruct Hk as [Hk|Hk].
    + left. apply bound_instance_insert. by left.
    + apply elem_of_cons in Hk as [->|Hk]; [|by right].
      left. apply bound_instance_insert. by right.
Qed.

Lemma bind_multiple_spec ns D dests insts :
  _instantiate_multiple_dataclasses D ns (length dests) = Ok insts ->
  (forall k, k ∉ dests -> bind_instances ns (zip insts dests) !! k = ns !! k) /\
  (forall k, bound_instance ns k \/ k ∈ dests ->
     bound_instance (bind_instances ns (zip insts dests)) k) /\
  (dests <> [] -> all_parsed ns (dc_fields D)).
Proof.
  intros H. apply instantiate_multiple_inv in H as (Hlen & Hinsts & Hparsed).
  assert (Hsnd : (zip insts dests).*2 = dests).
  { apply snd_zip. lia. }
  split; [|split].
  - intros k Hk. apply bind_instances_frame. by rewrite Hsnd.
  - intros k Hk. apply bind_instances_bound; [|by rewrite Hsnd].
    apply Forall_forall. intros [inst d] Hin.
    apply elem_of_zip_l in Hin. rewrite Forall_forall in Hinsts.
    destruct (Hinsts inst Hin) as [attrs ->]. simpl. eauto.
  - intros Hne. apply Hparsed. destruct dests; [done|simpl; lia].
Qed.

Lemma bind_dataclass_spec ns D dests ns' :
  bind_dataclass ns (D, dests) = Ok ns' ->
  (forall k, k ∉ dests -> ns' !! k = ns !! k) /\
  (forall k, bound_instance ns k \/ k ∈ dests -> bound_instance ns' k) /\
  (dests <> [] -> all_parsed ns (dc_fields D)).
Proof.
  unfold bind_dataclass. intros H.
  assert (Hmulti :
    (let* dataclass_instances :=
       _instantiate_multiple_dataclasses D ns (length dests) in
     Ok (bind_instances ns (zip dataclass_instances dests))) = Ok ns' ->
    (forall k, k ∉ dests -> ns' !! k = ns !! k) /\
    (forall k, bound_instance ns k \/ k ∈ dests -> bound_instance ns' k) /\
    (dests <> [] -> all_parsed ns (dc_fields D))).
  { intros Hm. apply bind_Ok in Hm as (insts & Hrun & [= <-]).
    by apply bind_multiple_spec. }
  destruct dests as [|d [|d' rest]]; [by apply Hmulti| |by apply Hmulti].
  apply bind_Ok in H as (inst & Hrun & [= <-]).
  apply instantiate_dataclass_inv in Hrun as ([attrs ->] & Hparsed).
  split; [|split; [|done]].
  - intros k Hk. rewrite not_elem_of_cons in Hk. destruct Hk as [Hne _].
    by rewrite lookup_insert_ne.
  - intros k Hk. apply bound_instance_insert.
    destruct Hk as [Hk|Hk]; [by left|right].
    apply elem_of_cons in Hk as [->|Hk]; [done|by apply elem_of_nil in Hk].
Qed.

Lemma bind_all_spec requests ns ns' :
  for_each bind_dataclass requests ns = Ok ns' ->
  (forall k, k ∉ all_destinations requests -> ns' !! k = ns !! k) /\
  (forall k, bound_instance ns k \/ k ∈ all_destinations requests ->
     bound_instance ns' k) /\
  (forall D dests f,
     (D, dests) ∈ requests -> dests <> [] -> f ∈ dc_fields D ->
     f_name f ∉ all_destinations requests -> is_Some (ns !! f_name f)).
Proof.
  revert ns. induction requests as [|[D0 dests0] requests IH]; intros ns H.
  - injection H as <-. split; [done|]. split.
    + intros k [Hk|Hk]; [done|by apply elem_of_nil in Hk].
    + intros D dests f Hin. by apply elem_of_nil in Hin.
  - simpl in H. apply bind_Ok in H as (ns1 & Hstep & Hrest).
    apply bind_dataclass_spec in Hstep as (Hframe1 & Hbound1 & Hparsed1).
    apply IH in Hrest as (Hframe & Hbound & Hparsed).
    unfold all_destinations in *. simpl.
    split; [|split].
    + intros k Hk. rewrite elem_of_app in Hk.
      rewrite Hframe by tauto. apply Hframe1. tauto.
    + intros k Hk. apply Hbound. rewrite elem_of_app in Hk.
      destruct Hk as [Hk|[Hk|Hk]]; [left|left|by right]; apply Hbound1; tauto.
    + intros D dests f Hin Hne Hf Hname. rewrite elem_of_app in Hname.
      apply elem_of_cons in Hin as [[= -> ->]|Hin].
      * specialize (Hparsed1 Hne). unfold all_parsed in Hparsed1.
        rewrite Forall_forall in Hparsed1. by apply Hparsed1.
      * rewrite <- Hframe1 by tauto. eapply Hparsed; eauto.
Qed.

(** C10, as the code has it.  After a successful [parse_args] every
    attribute of the engine's namespace whose name is not a destination is
    unchanged, every destination holds a dataclass instance, and so each
    field's parsed value is still found under the field's own name, beside
    the instances, as long as that name is not itself a destination. *)
Theorem parse_args_frame
    (super_parse_args :
       ArgumentParser -> option (list string) -> option (gmap string value) ->
       result (gmap string value))
    (self self' : ArgumentParser) (args : option (list string))
    (namespace : option (gmap string value)) (ns' : gmap string value) :
  parse_args super_parse_args self args namespace = Ok (self', ns') ->
  _args_to_add self' = _args_to_add self /\
  exists parsed_args,
    super_parse_args self' args namespace = Ok parsed_args /\
    (forall k, k ∉ all_destinations (_args_to_add self) ->
       ns' !! k = parsed_args !! k) /\
    (forall d, d ∈ all_destinations (_args_to_add self) -> bound_instance ns' d) /\
    (forall D dests f,
       (D, dests) ∈ _args_to_add self -> dests <> [] -> f ∈ dc_fields D ->
       f_name f ∉ all_destinations (_args_to_add self) ->
       exists v, parsed_args !! f_name f = Some v /\ ns' !! f_name f = Some v).
Proof.
  unfold parse_args. intros H.
  apply bind_Ok in H as (self1 & Hreg & H).
  pose proof (registration_keeps_requests self (_args_to_add self) self1
                (fun r Hr => Hr) Hreg) as Hkeep.
  apply bind_Ok in H as (parsed_args & Hengine & H).
  apply bind_Ok in H as (ns1 & Hloop & [= <- <-]).
  split; [exact Hkeep|].
  exists parsed_args. split; [exact Hengine|].
  rewrite Hkeep in Hloop.
  apply bind_all_spec in Hloop as (Hframe & Hbound & Hparsed).
  split; [exact Hframe|]. split.
  - intros d Hd. apply Hbound. by right.
  - intros D dests f Hin Hne Hf Hname.
    destruct (Hparsed D dests f Hin Hne Hf Hname) as [v Hv].
    exists v. split; [exact Hv|]. by rewrite Hframe.
Qed.

Lemma parse_args_frame_witness :
  exists self' ns',
    parse_args (fixed_engine xy_namespace) (add_arguments empty_parser Point "p")
      None None = Ok (self', ns') /\
    ns' !! "x" = Some (VInt 1) /\
    bound_instance ns' "p".
Proof.
  destruct (parse_args (fixed_engine xy_namespace)
              (add_arguments empty_parser Point "p") None None)
    as [[self' ns']|e] eqn:Hrun; [|vm_compute in Hrun; discriminate Hrun].
  exists self', ns'. split; [reflexivity|].
  destruct (parse_args_frame _ _ _ _ _ _ Hrun)
    as (_ & parsed & Hengine & Hframe & Hbound & _).
  injection Hengine as <-.
  split.
  - rewrite Hframe; [reflexivity|].
    apply (bool_decide_unpack _). vm_compute. exact I.
  - apply Hbound. apply (bool_decide_unpack _). vm_compute. exact I.
Defined.

(** C10, as stated, fails when a destination is named like a field:
    [Point] requested at the destination ["x"] replaces the parsed value of
    its field [x] by the instance. *)
Lemma parse_args_overwrites_field_counterexample :
  exists self' ns',
    parse_args (fixed_engine xy_namespace) (add_arguments empty_parser Point "x")
      None None = Ok (self', ns') /\
    xy_namespace !! "x" = Some (VInt 1) /\
    ns' !! "x" = Some (VInstance "Point" [("x", VInt 1); ("y", VInt 2)]).
Proof.
  eexists _, _. split; [vm_compute; reflexivity|].
  split; vm_compute; reflexivity.
Qed.

(** ** [set_default] *)

Example point_wrapper_built :
  DataclassWrapper.init no_field no_field silent_message Point "p" VNone "" None None None =
    Ok point_wrapper.
Proof. reflexivity. Qed.

Example shape_wrapper_built :
  DataclassWrapper.init no_field no_field silent_message Shape "shape" VNone "" None None None =
    Ok shape_wrapper.
Proof. reflexivity. Qed.

Lemma elem_of_insert_sorted k x l : k ∈ insert_sorted x l <-> k = x \/ k ∈ l.
Proof.
  induction l as [|y l IH]; simpl.
  - rewrite list_elem_of_singleton. rewrite elem_of_nil. tauto.
  - destruct (String.leb x y).
    + by rewrite elem_of_cons.
    + rewrite !elem_of_cons, IH. tauto.
Qed.

Lemma elem_of_sorted k l : k ∈ sorted l <-> k ∈ l.
Proof.
  unfold sorted. induction l as [|x l IH]; simpl; [done|].
  by rewrite elem_of_insert_sorted, IH, elem_of_cons.
Qed.

Lemma set_field_defaults_spec entries fs (U : gset string) :
  NoDup (map FieldWrapper.name fs) ->
  U ⊆ list_to_set (dict_keys entries) ->
  (forall fw, fw ∈ fs -> is_Some (dict_get entries (FieldWrapper.name fw)) ->
     FieldWrapper.name fw ∈ U) ->
  DataclassWrapper.set_field_defaults entries fs U =
    (map (propagate_field entries) fs,
     U ∖ list_to_set (map FieldWrapper.name fs), None).
Proof.
  revert U. induction fs as [|fw fs IH]; intros U Hnd HU Hin; simpl.
  - f_equal. f_equal. set_solver.
  - inversion Hnd as [|? ? Hfw Hnd']; subst. unfold propagate_field at 1.
    destruct (dict_get entries (FieldWrapper.name fw)) as [v|] eqn:Hget.
    + unfold set_remove. rewrite bool_decide_eq_true_2; [|apply Hin; [left|by eexists]].
      rewrite IH.
      * f_equal. f_equal. set_solver.
      * exact Hnd'.
      * set_solver.
      * intros fw' Hfw' Hsome. apply elem_of_difference. split.
        -- apply Hin; [by right|done].
        -- intros Heq%elem_of_singleton. apply Hfw. rewrite <- Heq.
           by apply list_elem_of_fmap_2.
    + rewrite IH.
      * f_equal. f_equal. apply dict_get_None in Hget.
        assert (FieldWrapper.name fw ∉ U) by set_solver. set_solver.
      * exact Hnd'.
      * exact HU.
      * intros fw' Hfw' Hsome. apply Hin; [by right|done].
Qed.

Lemma set_child_defaults_ok set_child entries cs (U : gset string) :
  NoDup (map DataclassWrapper._name cs) ->
  U ⊆ list_to_set (dict_keys entries) ->
  (forall c, c ∈ cs -> is_Some (dict_get entries (DataclassWrapper._name c)) ->
     DataclassWrapper._name c ∈ U) ->
  children_accept set_child entries cs ->
  DataclassWrapper.set_child_defaults set_child entries cs U =
    (map (propagate_child set_child entries) cs,
     U ∖ list_to_set (map DataclassWrapper._name cs), None).
Proof.
  revert U. induction cs as [|c cs IH]; intros U Hnd HU Hin Hacc; simpl.
  - f_equal. f_equal. set_solver.
  - inversion Hnd as [|? ? Hc Hnd']; subst. unfold propagate_child at 1.
    assert (Hacc' : children_accept set_child entries cs).
    { intros c' cv Hc' Hget. apply Hacc; [by right|done]. }
    destruct (dict_get entries (DataclassWrapper._name c)) as [v|] eqn:Hget.
    + specialize (Hacc c v (list_elem_of_here _ _) Hget).
      destruct (set_child c v) as [c' e]. simpl in Hacc. subst e.
      unfold set_remove. rewrite bool_decide_eq_true_2; [|apply Hin; [left|by eexists]].
      rewrite IH.
      * f_equal. f_equal. set_solver.
      * exact Hnd'.
      * set_solver.
      * intros c'' Hc'' Hsome. apply elem_of_difference. split.
        -- apply Hin; [by right|done].
        -- intros Heq%elem_of_singleton. apply Hc. rewrite <- Heq.
           by apply list_elem_of_fmap_2.
      * exact Hacc'.
    + rewrite IH.
      * f_equal. f_equal. apply dict_get_None in Hget.
        assert (DataclassWrapper._name c ∉ U) by set_solver. set_solver.
      * exact Hnd'.
      * exact HU.
      * intros c' Hc' Hsome. apply Hin; [by right|done].
      * exact Hacc'.
Qed.

(** When the loop over the children ends without exception, none of them
    raised. *)
Lemma set_child_defaults_None set_child entries cs (U : gset string) :
  (DataclassWrapper.set_child_defaults set_child entries cs U).2 = None ->
  children_accept set_child entries cs.
Proof.
  revert U. induction cs as [|c cs IH]; intros U H c' cv Hc' Hget.
  - by apply elem_of_nil in Hc'.
  - simpl in H.
    destruct (dict_get entries (DataclassWrapper._name c)) as [v|] eqn:Hc.
    + destruct (set_child c v) as [c1 [e|]] eqn:Hset; [discriminate|].
      destruct (set_remove U (DataclassWrapper._name c)) as [U'|e]; [|discriminate].
      destruct (DataclassWrapper.set_child_defaults set_child entries cs U')
        as [[cs' U''] e'] eqn:Hrest. simpl in H. subst e'.
      apply elem_of_cons in Hc' as [->|Hc'].
      * assert (cv = v) by congruence. subst. by rewrite Hset.
      * eapply (IH U'); [by rewrite Hrest|done|done].
    + destruct (DataclassWrapper.set_child_defaults set_child entries cs U)
        as [[cs' U''] e'] eqn:Hrest. simpl in H. subst e'.
      apply elem_of_cons in Hc' as [->|Hc']; [congruence|].
      eapply (IH U); [by rewrite Hrest|done|done].
Qed.

(** An exception of the loop over the children is the exception a child
    raised on its value: with distinct names, removing a name from
    [unknown_names] never fails. *)
Lemma set_child_defaults_Some set_child entries cs (U : gset string) e :
  NoDup (map DataclassWrapper._name cs) ->
  (forall c, c ∈ cs -> is_Some (dict_get entries (DataclassWrapper._name c)) ->
     DataclassWrapper._name c ∈ U) ->
  (DataclassWrapper.set_child_defaults set_child entries cs U).2 = Some e ->
  exists c cv, c ∈ cs /\
    dict_get entries (DataclassWrapper._name c) = Some cv /\
    (set_child c cv).2 = Some e.
Proof.
  revert U. induction cs as [|c cs IH]; intros U Hnd Hin H; [done|].
  inversion Hnd as [|? ? Hc Hnd']; subst. simpl in H.
  destruct (dict_get entries (DataclassWrapper._name c)) as [v|] eqn:Hget.
  - destruct (set_child c v) as [c1 [e1|]] eqn:Hset.
    + simpl in H. injection H as ->. exists c, v.
      split; [left|]. split; [done|]. by rewrite Hset.
    + unfold set_remove in H.
      rewrite bool_decide_eq_true_2 in H; [|apply Hin; [left|by eexists]].
      destruct (DataclassWrapper.set_child_defaults set_child entries cs
                  (U ∖ {[DataclassWrapper._name c]})) as [[cs' U''] e'] eqn:Hrest.
      simpl in H. subst e'.
      destruct (IH (U ∖ {[DataclassWrapper._name c]}) Hnd') as (c' & cv & Hc' & Hg & He).
      * intros c' Hc' Hsome. apply elem_of_difference. split.
        -- apply Hin; [by right|done].
        -- intros Heq%elem_of_singleton. apply Hc. rewrite <- Heq.
           by apply list_elem_of_fmap_2.
      * by rewrite Hrest.
      * exists c', cv. split; [by right|done].
  - destruct (DataclassWrapper.set_child_defaults set_child entries cs U)
      as [[cs' U''] e'] eqn:Hrest. simpl in H. subst e'.
    destruct (IH U Hnd') as (c' & cv & Hc' & Hg & He).
    + intros c' Hc' Hsome. apply Hin; [by right|done].
    + by rewrite Hrest.
    + exists c', cv. split; [by right|done].
Qed.

Lemma dict_get_Some_key d k v : dict_get d k = Some v -> k ∈ dict_keys d.
Proof.
  intros H. destruct (decide (k ∈ dict_keys d)) as [Hin|Hnin]; [done|].
  apply dict_get_None in Hnin. congruence.
Qed.

Lemma well_named_unfold w :
  well_named w <->
  NoDup (wrapper_names w) /\ Forall well_named (DataclassWrapper._children w).
Proof.
  destruct w as [D n fn d p fld fs opt dests req children defaults].
  unfold wrapper_names. simpl.
  assert (Hall : (fix all (cs : list DataclassWrapper.t) : Prop :=
                    match cs with
                    | [] => True
                    | c :: cs' => well_named c /\ all cs'
                    end) children <-> Forall well_named children).
  { induction children as [|c cs IH]; [by split; [constructor|]|].
    rewrite Forall_cons, IH. done. }
  by rewrite Hall.
Qed.

Lemma accepts_unfold w v :
  accepts w v <->
  match DataclassWrapper.field_default_values_of v with
  | Ok VNone => True
  | Ok (VDict entries) =>
      (forall k, k ∈ dict_keys entries -> k = "_type_" \/ k ∈ wrapper_names w) /\
      Forall (fun c => forall cv,
                dict_get entries (DataclassWrapper._name c) = Some cv ->
                accepts c cv) (DataclassWrapper._children w)
  | _ => False
  end.
Proof.
  destruct w as [D n fn d p fld fs opt dests req children defaults].
  unfold wrapper_names. simpl.
  destruct (DataclassWrapper.field_default_values_of v) as [[]|]; try done.
  assert (Hall : (fix all (cs : list DataclassWrapper.t) : Prop :=
                    match cs with
                    | [] => True
                    | c :: cs' =>
                        (forall cv, dict_get entries (DataclassWrapper._name c) = Some cv ->
                           accepts c cv) /\ all cs'
                    end) children <->
                 Forall (fun c => forall cv,
                           dict_get entries (DataclassWrapper._name c) = Some cv ->
                           accepts c cv) children).
  { induction children as [|c cs IH]; [by split; [constructor|]|].
    rewrite Forall_cons, IH. done. }
  by rewrite Hall.
Qed.

(** [set_default] on a mapping, once the loop over the field wrappers is
    known to go through. *)
Lemma set_default_mapping lineage w v entries :
  DataclassWrapper.field_default_values_of v = Ok (VDict entries) ->
  NoDup (wrapper_names w) ->
  DataclassWrapper.set_default lineage w v =
    let '(children', unknown_names, e) :=
      DataclassWrapper.set_child_defaults
        (DataclassWrapper.set_default (lineage ++ [DataclassWrapper._name w]))
        entries (DataclassWrapper._children w)
        (list_to_set (dict_keys entries) ∖
         list_to_set (map FieldWrapper.name (DataclassWrapper.fields w))) in
    let self' :=
      DataclassWrapper.with_children children'
        (DataclassWrapper.with_fields
           (map (propagate_field entries) (DataclassWrapper.fields w))
           (DataclassWrapper.with_default v w)) in
    match e with
    | Some e => (self', Some e)
    | None =>
        if bool_decide (unknown_names ∖ {["_type_"]} = ∅) then (self', None)
        else (self',
              Some (RuntimeError (sorted (elements (unknown_names ∖ {["_type_"]})))
                      (qualname (DataclassWrapper.dataclass w))
                      (DataclassWrapper.dest lineage w)))
    end.
Proof.
  intros Hmap Hnd.
  destruct w as [D n fn d p fld fs opt dests req children defaults].
  unfold wrapper_names in Hnd. simpl in Hnd.
  apply NoDup_app in Hnd as (Hfs & _ & _).
  simpl. rewrite Hmap.
  rewrite set_field_defaults_spec; [|exact Hfs|done|].
  - destruct (DataclassWrapper.set_child_defaults _ entries children _)
      as [[cs' U'] [e|]]; reflexivity.
  - intros fw _ [x Hx]. apply elem_of_list_to_set. by eapply dict_get_Some_key.
Qed.

Lemma children_loop_conditions entries w :
  NoDup (wrapper_names w) ->
  NoDup (map DataclassWrapper._name (DataclassWrapper._children w)) /\
  (forall c, c ∈ DataclassWrapper._children w ->
     is_Some (dict_get entries (DataclassWrapper._name c)) ->
     DataclassWrapper._name c ∈
       (list_to_set (dict_keys entries) ∖
        list_to_set (map FieldWrapper.name (DataclassWrapper.fields w)) : gset string)).
Proof.
  unfold wrapper_names. intros Hnd.
  apply NoDup_app in Hnd as (_ & Hdisj & Hcs). split; [exact Hcs|].
  intros c Hc [x Hx]. apply elem_of_difference. split.
  - apply elem_of_list_to_set. by eapply dict_get_Some_key.
  - rewrite elem_of_list_to_set. intros Hin. apply (Hdisj _ Hin).
    by apply list_elem_of_fmap_2.
Qed.

Lemma unknown_keys_split entries w :
  (list_to_set (dict_keys entries) ∖
   list_to_set (map FieldWrapper.name (DataclassWrapper.fields w)) ∖
   list_to_set (map DataclassWrapper._name (DataclassWrapper._children w)) ∖
   {["_type_"]} : gset string) = unknown_keys entries w.
Proof.
  unfold unknown_keys, wrapper_names. rewrite list_to_set_app_L. set_solver.
Qed.

(** C4, as the code has it.  [set_default] on a record wrapper with a
    mapping (or an instance, converted by [asdict]): the matching keys are
    propagated into the field wrappers and, through their own [set_default],
    into the child wrappers; a key other than ["_type_"] that names neither a
    field wrapper nor a child makes the call raise, and unless the
    [set_default] of a child raised first the exception is the
    [RuntimeError] that names exactly those keys, sorted. *)
Theorem excess_key_detection (lineage : list string) (w : DataclassWrapper.t)
    (v : value) (entries : list (string * value)) :
  NoDup (wrapper_names w) ->
  DataclassWrapper.field_default_values_of v = Ok (VDict entries) ->
  DataclassWrapper._default (DataclassWrapper.set_default lineage w v).1 = v /\
  DataclassWrapper.fields (DataclassWrapper.set_default lineage w v).1 =
    map (propagate_field entries) (DataclassWrapper.fields w) /\
  (unknown_keys entries w <> ∅ ->
     (DataclassWrapper.set_default lineage w v).2 =
       Some (RuntimeError (sorted (elements (unknown_keys entries w)))
               (qualname (DataclassWrapper.dataclass w))
               (DataclassWrapper.dest lineage w)) \/
     exists c cv e,
       c ∈ DataclassWrapper._children w /\
       dict_get entries (DataclassWrapper._name c) = Some cv /\
       (DataclassWrapper.set_default (lineage ++ [DataclassWrapper._name w]) c cv).2 =
         Some e /\
       (DataclassWrapper.set_default lineage w v).2 = Some e) /\
  (children_accept
     (DataclassWrapper.set_default (lineage ++ [DataclassWrapper._name w]))
     entries (DataclassWrapper._children w) ->
   DataclassWrapper._children (DataclassWrapper.set_default lineage w v).1 =
     map (propagate_child
            (DataclassWrapper.set_default (lineage ++ [DataclassWrapper._name w]))
            entries) (DataclassWrapper._children w) /\
   (DataclassWrapper.set_default lineage w v).2 =
     (if bool_decide (unknown_keys entries w = ∅) then None
      else Some (RuntimeError (sorted (elements (unknown_keys entries w)))
                   (qualname (DataclassWrapper.dataclass w))
                   (DataclassWrapper.dest lineage w)))) /\
  (forall k, (k ∈ sorted (elements (unknown_keys entries w))) <->
     (k ∈ dict_keys entries /\ (k ∉ wrapper_names w) /\ k <> "_type_")).
Proof.
  intros Hnd Hmap.
  rewrite (set_default_mapping lineage w v entries Hmap Hnd).
  destruct (children_loop_conditions entries w Hnd) as (Hcs & Hin).
  pose proof (set_child_defaults_ok
                (DataclassWrapper.set_default (lineage ++ [DataclassWrapper._name w]))
                entries (DataclassWrapper._children w)
                (list_to_set (dict_keys entries) ∖
                 list_to_set (map FieldWrapper.name (DataclassWrapper.fields w)))
                Hcs ltac:(set_solver) Hin) as Hok.
  pose proof (set_child_defaults_None
                (DataclassWrapper.set_default (lineage ++ [DataclassWrapper._name w]))
                entries (DataclassWrapper._children w)
                (list_to_set (dict_keys entries) ∖
                 list_to_set (map FieldWrapper.name (DataclassWrapper.fields w))))
    as Hnone.
  destruct (DataclassWrapper.set_child_defaults _ entries _ _)
    as [[cs' U'] e] eqn:Hloop.
  assert (Hfields : forall e' : option exn,
            DataclassWrapper._default
              (DataclassWrapper.with_children cs'
                 (DataclassWrapper.with_fields
                    (map (propagate_field entries) (DataclassWrapper.fields w))
                    (DataclassWrapper.with_default v w))) = v /\
            DataclassWrapper.fields
              (DataclassWrapper.with_children cs'
                 (DataclassWrapper.with_fields
                    (map (propagate_field entries) (DataclassWrapper.fields w))
                    (DataclassWrapper.with_default v w))) =
              map (propagate_field entries) (DataclassWrapper.fields w)).
  { intros _. by destruct w. }
  split; [|split; [|split; [|split]]].
  - destruct e; [|case_bool_decide]; apply (Hfields None).
  - destruct e; [|case_bool_decide]; apply (Hfields None).
  - intros Hunknown. destruct e as [e|].
    + right.
      destruct (set_child_defaults_Some
                  (DataclassWrapper.set_default
                     (lineage ++ [DataclassWrapper._name w]))
                  entries (DataclassWrapper._children w) _ e Hcs Hin)
        as (c & cv & Hc & Hget & He); [by rewrite Hloop|].
      by exists c, cv, e.
    + left. specialize (Hok (Hnone eq_refl)). injection Hok as _ HU.
      rewrite HU, unknown_keys_split.
      by rewrite bool_decide_eq_false_2.
  - intros Hacc. specialize (Hok Hacc). injection Hok as Hcs' HU He.
    subst e. rewrite HU, unknown_keys_split. split.
    + rewrite Hcs'. case_bool_decide; by destruct w.
    + by case_bool_decide.
  - intros k. rewrite elem_of_sorted, elem_of_elements. unfold unknown_keys.
    rewrite !elem_of_difference, !elem_of_list_to_set, elem_of_singleton. tauto.
Qed.

Lemma excess_key_detection_witness :
  (DataclassWrapper.set_default [] point_wrapper bogus_mapping).2 =
    Some (RuntimeError ["bogus"] "Point" "p").
Proof.
  assert (Hnd : NoDup (wrapper_names point_wrapper)).
  { apply (bool_decide_unpack _). vm_compute. exact I. }
  destruct (excess_key_detection [] point_wrapper bogus_mapping
              [("x", VInt 1); ("bogus", VInt 2)] Hnd eq_refl)
    as (_ & _ & _ & Hraise & _).
  destruct Hraise as [_ Hexn].
  - intros c cv Hc. by apply elem_of_nil in Hc.
  - rewrite Hexn. vm_compute. reflexivity.
Defined.

(** C4, as stated, fails on the key ["_type_"]: it names neither a field
    wrapper nor a child of the wrapper of [Point], and the call raises
    nothing. *)
Lemma excess_key_type_counterexample :
  "_type_" ∈ dict_keys [("x", VInt 1); ("_type_", VStr "Point")] /\
  ("_type_" ∉ wrapper_names point_wrapper) /\
  (DataclassWrapper.set_default [] point_wrapper typed_mapping).2 = None.
Proof.
  split; [|split].
  - apply (bool_decide_unpack _). vm_compute. exact I.
  - apply (bool_decide_unpack _). vm_compute. exact I.
  - vm_compute. reflexivity.
Qed.

(** C9, as the code has it.  Excess-key detection exempts ["_type_"].  On
    a wrapper whose names are distinct, [set_default] with a mapping whose
    keys are fields or children of the record type except for ["_type_"]
    never reports ["_type_"]: the only exception it can raise is one raised
    by the [set_default] of a child on the value the mapping holds for it;
    and it raises nothing when those values are in turn defaults for the
    children ([None], or such mappings again): the ["_type_"] entry is
    discarded. *)
Theorem type_key_is_exempt (w : DataclassWrapper.t) (lineage : list string)
    (v : value) :
  well_named w ->
  (accepts w v -> (DataclassWrapper.set_default lineage w v).2 = None) /\
  (forall entries,
     DataclassWrapper.field_default_values_of v = Ok (VDict entries) ->
     (forall k, k ∈ dict_keys entries -> k = "_type_" \/ k ∈ wrapper_names w) ->
     (DataclassWrapper.set_default lineage w v).2 = None \/
     exists c cv,
       c ∈ DataclassWrapper._children w /\
       dict_get entries (DataclassWrapper._name c) = Some cv /\
       (DataclassWrapper.set_default (lineage ++ [DataclassWrapper._name w]) c cv).2 =
         (DataclassWrapper.set_default lineage w v).2).
Proof.
  intros Hwn. split.
  - revert lineage v Hwn.
    induction w as [D n fn d p fld fs opt dests req children defaults IH]
      using wrapper_ind.
    intros lineage v Hwn Hacc.
    set (self := DataclassWrapper.mk D n fn d p fld fs opt dests req children defaults)
      in *.
    apply well_named_unfold in Hwn as [Hnd Hchildren].
    apply accepts_unfold in Hacc.
    destruct (DataclassWrapper.field_default_values_of v) as [fdv|e] eqn:Hmap;
      [|done].
    destruct fdv as [| | | | | |entries| |]; try done.
    + subst self. simpl. by rewrite Hmap.
    + destruct Hacc as [Hkeys Hnested].
      rewrite (set_default_mapping lineage self v entries Hmap Hnd).
      destruct (children_loop_conditions entries self Hnd) as (Hcs & Hin).
      rewrite set_child_defaults_ok; [|exact Hcs|set_solver|exact Hin|].
      * rewrite unknown_keys_split. rewrite bool_decide_eq_true_2; [done|].
        unfold unknown_keys. apply set_eq. intros k.
        rewrite !elem_of_difference, !elem_of_list_to_set, elem_of_singleton.
        split; [|set_solver]. intros [[Hk Hn] Ht]. destruct (Hkeys k Hk); tauto.
      * intros c cv Hc Hget. simpl in Hc.
        rewrite Forall_forall in IH, Hchildren, Hnested.
        apply IH; [exact Hc|by apply Hchildren|by apply (Hnested c Hc)].
  - intros entries Hmap Hkeys.
    apply well_named_unfold in Hwn as [Hnd _].
    rewrite (set_default_mapping lineage w v entries Hmap Hnd).
    destruct (children_loop_conditions entries w Hnd) as (Hcs & Hin).
    pose proof (set_child_defaults_Some
                  (DataclassWrapper.set_default (lineage ++ [DataclassWrapper._name w]))
                  entries (DataclassWrapper._children w)
                  (list_to_set (dict_keys entries) ∖
                   list_to_set (map FieldWrapper.name (DataclassWrapper.fields w))))
      as Hsome.
    pose proof (set_child_defaults_None
                  (DataclassWrapper.set_default (lineage ++ [DataclassWrapper._name w]))
                  entries (DataclassWrapper._children w)
                  (list_to_set (dict_keys entries) ∖
                   list_to_set (map FieldWrapper.name (DataclassWrapper.fields w))))
      as Hnone.
    pose proof (set_child_defaults_ok
                  (DataclassWrapper.set_default (lineage ++ [DataclassWrapper._name w]))
                  entries (DataclassWrapper._children w)
                  (list_to_set (dict_keys entries) ∖
                   list_to_set (map FieldWrapper.name (DataclassWrapper.fields w)))
                  Hcs ltac:(set_solver) Hin) as Hok.
    destruct (DataclassWrapper.set_child_defaults _ entries _ _)
      as [[cs' U'] [e|]] eqn:Hloop.
    + right. destruct (Hsome e Hcs Hin eq_refl) as (c & cv & Hc & Hget & He).
      by exists c, cv.
    + left. specialize (Hok (Hnone eq_refl)). injection Hok as _ HU.
      rewrite HU, unknown_keys_split. rewrite bool_decide_eq_true_2; [done|].
      unfold unknown_keys. apply set_eq. intros k.
      rewrite !elem_of_difference, !elem_of_list_to_set, elem_of_singleton.
      split; [|set_solver]. intros [[Hk Hn] Ht]. destruct (Hkeys k Hk); tauto.
Qed.

Lemma shape_wrapper_well_named : well_named shape_wrapper.
Proof.
  simpl. repeat split; try (apply (bool_decide_unpack _); vm_compute; exact I).
Qed.

Lemma shape_mapping_accepted : accepts shape_wrapper shape_mapping.
Proof.
  simpl. repeat split.
  - intros k Hk.
    repeat (apply elem_of_cons in Hk as [->|Hk];
            [first [by left | right; apply (bool_decide_unpack _); vm_compute; exact I]|]).
    by apply elem_of_nil in Hk.
  - intros cv [= <-]. simpl. repeat split.
    intros k Hk.
    repeat (apply elem_of_cons in Hk as [->|Hk];
            [first [by left | right; apply (bool_decide_unpack _); vm_compute; exact I]|]).
    by apply elem_of_nil in Hk.
Qed.

Lemma type_key_is_exempt_witness :
  (DataclassWrapper.set_default [] shape_wrapper shape_mapping).2 = None.
Proof.
  exact (proj1 (type_key_is_exempt shape_wrapper [] shape_mapping
                  shape_wrapper_well_named) shape_mapping_accepted).
Defined.

(** C9, as stated, fails on a mapping that holds for a child a mapping
    with an unknown key: every key of
    [{"origin": {"zz": 1}, "_type_": "Shape"}] is a child of the wrapper of
    [Shape] or ["_type_"], and the call raises the [RuntimeError] of the
    child made for [origin]. *)
Lemma type_key_child_counterexample :
  (forall k,
     k ∈ dict_keys [("origin", VDict [("zz", VInt 1)]); ("_type_", VStr "Shape")] ->
     k = "_type_" \/ k ∈ wrapper_names shape_wrapper) /\
  well_named shape_wrapper /\
  (DataclassWrapper.set_default [] shape_wrapper
     (VDict [("origin", VDict [("zz", VInt 1)]); ("_type_", VStr "Shape")])).2 =
    Some (RuntimeError ["zz"] "Point" "shape.origin").
Proof.
  split; [|split].
  - intros k Hk.
    repeat (apply elem_of_cons in Hk as [->|Hk];
            [first [by left | right; apply (bool_decide_unpack _); vm_compute; exact I]|]).
    by apply elem_of_nil in Hk.
  - exact shape_wrapper_well_named.
  - vm_compute. reflexivity.
Qed.

(** ** Wrapper construction *)

(** *** The two cached properties *)

Lemma with_destinations_same w :
  DataclassWrapper.with_destinations (DataclassWrapper._destinations w) w = w.
Proof. by destruct w. Qed.

Lemma destinations_spec parent w :
  (DataclassWrapper.destinations parent w).1 =
    DataclassWrapper.with_destinations (DataclassWrapper.destinations parent w).2 w.
Proof.
  unfold DataclassWrapper.destinations.
  destruct (DataclassWrapper._destinations w) eqn:Hds; simpl; [done|].
  by rewrite <- Hds, with_destinations_same.
Qed.

Lemma destinations_stored parent w :
  DataclassWrapper._destinations w <> [] ->
  DataclassWrapper.destinations parent w = (w, DataclassWrapper._destinations w).
Proof.
  unfold DataclassWrapper.destinations.
  by destruct (DataclassWrapper._destinations w).
Qed.

Lemma destinations_computed parent w :
  (DataclassWrapper.destinations parent w).2 =
    match DataclassWrapper._destinations w with
    | [] => computed_destinations (DataclassWrapper.pv_destinations <$> parent)
              (DataclassWrapper._name w)
    | stored => stored
    end.
Proof.
  unfold DataclassWrapper.destinations.
  destruct (DataclassWrapper._destinations w); [|done]. by destruct parent.
Qed.

(** A cache that holds nothing or the computed list does not change what
    the property returns. *)
Lemma destinations_cached parent w :
  cached (DataclassWrapper.pv_destinations <$> parent) (DataclassWrapper._name w)
    (DataclassWrapper._destinations w) ->
  (DataclassWrapper.destinations parent w).2 =
    computed_destinations (DataclassWrapper.pv_destinations <$> parent)
      (DataclassWrapper._name w).
Proof.
  rewrite destinations_computed. intros [-> | ->]; [done|].
  by destruct (computed_destinations _ _).
Qed.

Lemma defaults_keeps parent w w' l stored :
  DataclassWrapper.defaults parent w = Ok (w', l, stored) ->
  w' = (if stored then DataclassWrapper.with_defaults l w else w) /\
  (stored = false -> DataclassWrapper._defaults w = [] /\ l = []).
Proof.
  unfold DataclassWrapper.defaults.
  destruct (DataclassWrapper._defaults w) as [|d ds] eqn:Hd.
  - destruct (DataclassWrapper._field w) as [fld|]; [|by intros [= <- <- <-]].
    destruct parent as [p|]; [|done].
    destruct (DataclassWrapper.pv_defaults p) as [[|pd pds]|]; cbn [bind];
      [| |done].
    + destruct (default_value fld); by intros [= <- <- <-].
    + destruct (for_each _ (pd :: pds) []); cbn [bind]; [|done].
      by intros [= <- <- <-].
  - intros [= <- <- <-]. split; [|done]. rewrite <- Hd. by destruct w.
Qed.

Lemma defaults_stores parent w w' l stored :
  DataclassWrapper.defaults parent w = Ok (w', l, stored) ->
  w' = DataclassWrapper.with_defaults l w.
Proof.
  intros H. destruct (defaults_keeps _ _ _ _ _ H) as [-> Hfresh].
  destruct stored; [done|]. destruct (Hfresh eq_refl) as [Hd ->].
  rewrite <- Hd. by destruct w.
Qed.

(** [defaults] looks at the name, the originating field and the cached
    list only. *)
Lemma defaults_of_rebuilt parent ds fs cs w :
  defaults_of parent (rebuilt ds fs cs w) = defaults_of parent w.
Proof.
  unfold defaults_of, DataclassWrapper.defaults, rebuilt. destruct w as
    [D n fn d p fld fs0 opt dests req children [|x xs]]; simpl; [|done].
  destruct fld as [f|]; [|done]. destruct parent as [pv|]; [|done].
  destruct (DataclassWrapper.pv_defaults pv) as [[|pd pds]|]; cbn [bind]; [| |done].
  - by destruct (default_value f).
  - by destruct (for_each _ (pd :: pds) []).
Qed.

(** What [self] shows its children does not change while [__init__] fills
    its lists and caches its destinations. *)
Lemma view_of_rebuilt parent ds fs cs w :
  ds = DataclassWrapper._destinations w \/
  ds = (DataclassWrapper.destinations parent w).2 ->
  DataclassWrapper.view_of parent (rebuilt ds fs cs w) =
  DataclassWrapper.view_of parent w.
Proof.
  intros Hds. unfold DataclassWrapper.view_of. f_equal.
  - rewrite !destinations_computed.
    destruct w as [D n fn d p fld fs0 opt dests req children dflts].
    unfold rebuilt. simpl in *. destruct Hds as [-> | ->]; [done|].
    rewrite destinations_computed. simpl.
    destruct dests; [|done]. by destruct (computed_destinations _ _).
  - pose proof (defaults_of_rebuilt parent ds fs cs w) as H.
    unfold defaults_of in H.
    destruct (DataclassWrapper.defaults parent (rebuilt ds fs cs w)) as [[[? ?] ?]|];
      destruct (DataclassWrapper.defaults parent w) as [[[? ?] ?]|];
      simpl in *; congruence.
Qed.

Lemma rebuilt_same w :
  rebuilt (DataclassWrapper._destinations w) (DataclassWrapper.fields w)
    (DataclassWrapper._children w) w = w.
Proof. by destruct w. Qed.

Lemma rebuilt_rebuilt ds fs cs ds' fs' cs' w :
  rebuilt ds' fs' cs' (rebuilt ds fs cs w) = rebuilt ds' fs' cs' w.
Proof. by destruct w. Qed.

Lemma read_destinations_rebuilt parent w read :
  exists ds,
    (DataclassWrapper.read_destinations parent w read).1 =
      rebuilt ds (DataclassWrapper.fields w) (DataclassWrapper._children w) w /\
    (ds = DataclassWrapper._destinations w \/
     ds = (DataclassWrapper.destinations parent w).2).
Proof.
  unfold DataclassWrapper.read_destinations. destruct read; simpl.
  - exists (DataclassWrapper.destinations parent w).2.
    split; [|by right]. rewrite destinations_spec. by destruct w.
  - exists (DataclassWrapper._destinations w). split; [|by left].
    by rewrite rebuilt_same.
Qed.

Section InitFacts.
Variables is_subparser_field is_choice : DataclassField -> bool.
Variable field_wrapper_message :
  option DataclassWrapper.ParentView -> DataclassWrapper.t -> FieldWrapper.t ->
  result bool.

Local Abbreviation wrap_fields :=
  (DataclassWrapper.wrap_fields is_subparser_field is_choice field_wrapper_message).
Local Abbreviation init_type :=
  (DataclassWrapper.init_type is_subparser_field is_choice field_wrapper_message).
Local Abbreviation as_child := (wrapped_as_child is_subparser_field is_choice).

Lemma included_skip f :
  negb (f_init f) || cmd_is_False f = negb (included f).
Proof. unfold included. by destruct (f_init f), (cmd_is_False f). Qed.

Lemma wrap_fields_app construct parent fn default prefix pre rest self r :
  wrap_fields construct parent fn default prefix (pre ++ rest) self r =
  let* built := wrap_fields construct parent fn default prefix pre self r in
  wrap_fields construct parent fn default prefix rest built.1 built.2.
Proof.
  revert self r. induction pre as [|f pre IH]; intros self r; simpl; [done|].
  destruct (negb (f_init f) || cmd_is_False f); [apply IH|].
  destruct (DataclassWrapper.field_default fn default f) as [fd|e]; simpl; [|done].
  destruct (is_tuple_or_list_of_dataclasses (f_type f)); [done|].
  destruct (is_subparser_field f || is_choice f); [apply IH|].
  destruct (is_dataclass (f_type f) && negb (default_is_None f)).
  { destruct (construct _ _ _ _ _ _ _) as [[c read]|]; simpl; [|done].
    destruct (DataclassWrapper.read_destinations parent self read). apply IH. }
  destruct (contains_dataclass_type_arg (f_type f)).
  { destruct (construct _ _ _ _ _ _ _) as [[c read]|]; simpl; [|done].
    destruct (DataclassWrapper.read_destinations parent self read). apply IH. }
  destruct (field_wrapper_message _ _ _) as [read|]; simpl; [|done].
  destruct (DataclassWrapper.read_destinations parent self read). apply IH.
Qed.

Lemma wrap_fields_cons construct parent fn default prefix f rest self r :
  wrap_fields construct parent fn default prefix (f :: rest) self r =
  let* built := wrap_fields construct parent fn default prefix [f] self r in
  wrap_fields construct parent fn default prefix rest built.1 built.2.
Proof. apply (wrap_fields_app _ _ _ _ _ [f]). Qed.

(** The loop skips the fields kept off the command line: it is the loop
    over the others. *)
Lemma wrap_fields_included construct parent fn default prefix fs self r :
  wrap_fields construct parent fn default prefix fs self r =
  wrap_fields construct parent fn default prefix (List.filter included fs) self r.
Proof.
  revert self r. induction fs as [|f fs IH]; intros self r; [done|].
  cbn [List.filter]. destruct (included f) eqn:Hinc.
  - rewrite wrap_fields_cons, (wrap_fields_cons _ _ _ _ _ f (List.filter _ _)).
    destruct (wrap_fields construct parent fn default prefix [f] self r);
      simpl; [apply IH|done].
  - simpl. rewrite included_skip, Hinc. simpl. apply IH.
Qed.

Lemma wrap_fields_unsupported construct parent fn default prefix f rest self r :
  included f = true ->
  is_tuple_or_list_of_dataclasses (f_type f) = true ->
  wrap_fields construct parent fn default prefix (f :: rest) self r =
    match DataclassWrapper.field_default fn default f with
    | Ok _ => Raise (NotImplementedError (f_name f))
    | Raise e => Raise e
    end.
Proof.
  intros Hinc Hty. simpl. rewrite included_skip, Hinc. simpl.
  destruct (DataclassWrapper.field_default fn default f); simpl; [|done].
  by rewrite Hty.
Qed.

Lemma wrap_fields_reaches_unsupported construct parent fn default prefix
    pre f post self r :
  included f = true ->
  is_tuple_or_list_of_dataclasses (f_type f) = true ->
  wrap_fields construct parent fn default prefix (pre ++ f :: post) self r =
    match wrap_fields construct parent fn default prefix pre self r with
    | Ok _ =>
        match DataclassWrapper.field_default fn default f with
        | Ok _ => Raise (NotImplementedError (f_name f))
        | Raise e => Raise e
        end
    | Raise e => Raise e
    end.
Proof.
  intros Hinc Hty. rewrite wrap_fields_app.
  destruct (wrap_fields construct parent fn default prefix pre self r)
    as [built|e]; [|done].
  cbn [bind]. by apply wrap_fields_unsupported.
Qed.

(** One turn of the loop, for a field it does not skip. *)
Lemma wrap_field_turn construct parent fn default prefix f self r self' r' :
  included f = true ->
  DataclassWrapper.prefix self = prefix ->
  wrap_fields construct parent fn default prefix [f] self r = Ok (self', r') ->
  exists ds,
    (ds = DataclassWrapper._destinations self \/
     ds = (DataclassWrapper.destinations parent self).2) /\
    if as_child f then
      exists c,
        built_child construct (DataclassWrapper.view_of parent self) fn default f c /\
        self' = rebuilt ds (DataclassWrapper.fields self)
                  (DataclassWrapper._children self ++ [c]) self
    else
      exists fw,
        wrapper_of_field fn default prefix f fw /\
        self' = rebuilt ds (DataclassWrapper.fields self ++ [fw])
                  (DataclassWrapper._children self) self.
Proof.
  intros Hinc Hp H. simpl in H. rewrite included_skip, Hinc in H. simpl in H.
  apply bind_Ok in H as (fd & Hfd & H).
  destruct (is_tuple_or_list_of_dataclasses (f_type f)); [done|].
  unfold wrapped_as_child.
  destruct (is_subparser_field f || is_choice f); simpl.
  { injection H as <- <-. exists (DataclassWrapper._destinations self).
    split; [by left|]. exists (DataclassWrapper.wrap_field f prefix fd).
    split; [by exists fd|]. by destruct self. }
  destruct (is_dataclass (f_type f) && negb (default_is_None f)) eqn:Hdc; simpl.
  { apply bind_Ok in H as ([c read] & Hc & H).
    destruct (read_destinations_rebuilt parent self read) as (ds & Hs & Hds).
    destruct (DataclassWrapper.read_destinations parent self read) as [s up].
    simpl in Hs. subst s. injection H as <- <-.
    exists ds. split; [done|]. exists c. split.
    - exists fd, c, read. by rewrite Hdc.
    - by destruct self. }
  destruct (contains_dataclass_type_arg (f_type f)) eqn:Hcd; simpl.
  { apply bind_Ok in H as ([c read] & Hc & H).
    destruct (read_destinations_rebuilt parent self read) as (ds & Hs & Hds).
    destruct (DataclassWrapper.read_destinations parent self read) as [s up].
    simpl in Hs. subst s. injection H as <- <-.
    exists ds. split; [done|]. eexists. split.
    - exists fd, c, read. by rewrite Hdc.
    - by destruct self. }
  apply bind_Ok in H as (read & Hread & H).
  destruct (read_destinations_rebuilt parent self read) as (ds & Hs & Hds).
  destruct (DataclassWrapper.read_destinations parent self read) as [s up].
  simpl in Hs. subst s. injection H as <- <-.
  exists ds. split; [done|]. exists (DataclassWrapper.wrap_field f prefix fd).
  split; [by exists fd|].
  unfold DataclassWrapper.wrap_field. rewrite <- Hp. by destruct self.
Qed.

(** What the loop leaves: the wrapper it started with, its destinations
    cached or not, with one more field wrapper or child for each field it
    does not skip, in declaration order. *)
Lemma wrap_fields_shape construct parent fn default prefix rest :
  forall self r self' r',
    DataclassWrapper.prefix self = prefix ->
    wrap_fields construct parent fn default prefix rest self r = Ok (self', r') ->
    exists ds fws cs,
      self' = rebuilt ds (DataclassWrapper.fields self ++ fws)
                (DataclassWrapper._children self ++ cs) self /\
      (ds = DataclassWrapper._destinations self \/
       ds = (DataclassWrapper.destinations parent self).2) /\
      Forall2 (wrapper_of_field fn default prefix)
        (List.filter (fun f => included f && negb (as_child f)) rest) fws /\
      Forall2 (built_child construct (DataclassWrapper.view_of parent self)
                 fn default)
        (List.filter (fun f => included f && as_child f) rest) cs.
Proof.
  induction rest as [|f rest IH]; intros self r self' r' Hp H.
  - simpl in H. injection H as <- <-.
    exists (DataclassWrapper._destinations self), [], [].
    rewrite !app_nil_r, rebuilt_same. repeat split; [by left|constructor..].
  - cbn [List.filter]. destruct (included f) eqn:Hinc; simpl.
    2:{ simpl in H. rewrite included_skip, Hinc in H. by apply IH in H. }
    rewrite wrap_fields_cons in H. apply bind_Ok in H as ([s1 r1] & Hturn & H).
    destruct (wrap_field_turn _ _ _ _ _ _ _ _ _ _ Hinc Hp Hturn)
      as (ds1 & Hds1 & Hs1).
    simpl in H.
    assert (Hstable : forall fws cs,
              s1 = rebuilt ds1 fws cs self ->
              DataclassWrapper.prefix s1 = prefix /\
              DataclassWrapper.view_of parent s1 =
                DataclassWrapper.view_of parent self /\
              DataclassWrapper._destinations s1 = ds1 /\
              (DataclassWrapper.destinations parent s1).2 =
                (DataclassWrapper.destinations parent self).2 /\
              DataclassWrapper.fields s1 = fws /\
              DataclassWrapper._children s1 = cs).
    { intros fws cs ->. split; [rewrite <- Hp; by destruct self|].
      pose proof (view_of_rebuilt parent ds1 fws cs self Hds1) as Hv.
      split; [exact Hv|]. split; [by destruct self|].
      split; [|split; by destruct self].
      by apply (f_equal DataclassWrapper.pv_destinations) in Hv. }
    destruct (as_child f) eqn:Hchild; simpl.
    + destruct Hs1 as (c & Hc & Hs1).
      destruct (Hstable _ _ Hs1) as (Hp1 & Hv1 & Hd1 & Hd1' & Hf1 & Hc1).
      destruct (IH _ _ _ _ Hp1 H) as (ds & fws & cs & -> & Hds & Hfws & Hcs).
      rewrite Hv1 in Hcs. rewrite Hd1, Hd1' in Hds. rewrite Hf1, Hc1.
      exists ds, fws, (c :: cs). split.
      { rewrite Hs1, rebuilt_rebuilt. by rewrite <- app_assoc. }
      split; [destruct Hds as [->|Hds]; [exact Hds1|by right]|].
      split; [done|]. by constructor.
    + destruct Hs1 as (fw & Hfw & Hs1).
      destruct (Hstable _ _ Hs1) as (Hp1 & Hv1 & Hd1 & Hd1' & Hf1 & Hc1).
      destruct (IH _ _ _ _ Hp1 H) as (ds & fws & cs & -> & Hds & Hfws & Hcs).
      rewrite Hv1 in Hcs. rewrite Hd1, Hd1' in Hds. rewrite Hf1, Hc1.
      exists ds, (fw :: fws), cs. split.
      { rewrite Hs1, rebuilt_rebuilt. by rewrite <- app_assoc. }
      split; [destruct Hds as [->|Hds]; [exact Hds1|by right]|].
      split; [by constructor|done].
Qed.

Lemma init_type_unfold D name default prefix parent _field fn :
  init_type (TDataclass D) name default prefix parent _field fn =
  let self :=
    DataclassWrapper.mk D name fn default prefix _field [] false [] false []
      (initial_defaults default) in
  let* built :=
    wrap_fields init_type parent fn default prefix (dc_fields D) self false in
  let* self_defaults := DataclassWrapper.defaults parent built.1 in
  Ok (self_defaults.1.1, built.2).
Proof.
  simpl. unfold initial_defaults.
  destruct (DataclassWrapper.wrap_fields _ _ _ _ _ _ _ _ _ _ _) as [[s r]|]; done.
Qed.

Lemma init_unfold D name default prefix parent _field fn :
  DataclassWrapper.init is_subparser_field is_choice field_wrapper_message
    D name default prefix parent _field fn =
  let* built := init_type (TDataclass D) name default prefix parent _field fn in
  Ok built.1.
Proof. reflexivity. Qed.

(** The wrapper the constructor returns for a dataclass. *)
Lemma init_type_shape D name default prefix parent _field fn w read :
  init_type (TDataclass D) name default prefix parent _field fn = Ok (w, read) ->
  exists ds fws cs l,
    w = DataclassWrapper.mk D name fn default prefix _field fws false ds false cs l /\
    caches_of parent w /\
    Forall2 (wrapper_of_field fn default prefix)
      (List.filter (fun f => included f && negb (as_child f)) (dc_fields D)) fws /\
    Forall2 (built_child init_type
               (DataclassWrapper.view_of parent
                  (DataclassWrapper.mk D name fn default prefix _field [] false []
                     false [] (initial_defaults default)))
               fn default)
      (List.filter (fun f => included f && as_child f) (dc_fields D)) cs.
Proof.
  rewrite init_type_unfold. cbv zeta. intros H.
  apply bind_Ok in H as ([s r] & Hloop & H).
  apply bind_Ok in H as ([[s' l] stored] & Hdef & [= <- <-]). simpl in *.
  destruct (wrap_fields_shape _ _ _ _ _ _ _ _ _ _ eq_refl Hloop)
    as (ds & fws & cs & -> & Hds & Hfws & Hcs).
  simpl in Hds, Hdef |- *.
  pose proof (defaults_stores _ _ _ _ _ Hdef) as ->.
  exists ds, fws, cs, l. split; [done|]. split; [|by split].
  split.
  - simpl. destruct Hds as [-> | ->]; [by left|right]. by destruct parent.
  - exists stored. unfold defaults_of, rebuilt in *. simpl in *.
    by rewrite Hdef.
Qed.
End InitFacts.

(** C7, as the code has it.  A field that [__init__] does not skip (an
    init field without [cmd=False]) and whose declared type is a list or
    tuple of a nested record type makes the construction of the wrapper
    fail: no wrapper is produced, and when the fields before it are wrapped
    and its own default resolves the exception is the [NotImplementedError]
    naming the field.  A field kept off the command line is skipped before
    its type is looked at: the loop is the loop over the other fields.  The
    constructor only builds the wrapper: options are registered later, by
    [add_arguments]. *)
Theorem unsupported_container_of_records
    (is_subparser_field is_choice : DataclassField -> bool)
    (field_wrapper_message :
       option DataclassWrapper.ParentView -> DataclassWrapper.t ->
       FieldWrapper.t -> result bool)
    (D : Dataclass) (pre post : list DataclassField) (f : DataclassField)
    (name : string) (default : value) (prefix : string)
    (parent : option DataclassWrapper.ParentView)
    (_field : option DataclassField)
    (dataclass_fn : option (list (string * value))) :
  dc_fields D = pre ++ f :: post ->
  included f = true ->
  is_tuple_or_list_of_dataclasses (f_type f) = true ->
  is_ok (DataclassWrapper.init is_subparser_field is_choice field_wrapper_message
           D name default prefix parent _field dataclass_fn) = false /\
  (is_ok (DataclassWrapper.wrap_fields is_subparser_field is_choice
            field_wrapper_message
            (DataclassWrapper.init_type is_subparser_field is_choice
               field_wrapper_message)
            parent dataclass_fn default prefix pre
            (DataclassWrapper.mk D name dataclass_fn default prefix _field []
               false [] false [] (initial_defaults default)) false) = true ->
   is_ok (DataclassWrapper.field_default dataclass_fn default f) = true ->
   DataclassWrapper.init is_subparser_field is_choice field_wrapper_message
     D name default prefix parent _field dataclass_fn =
     Raise (NotImplementedError (f_name f))) /\
  (forall fs self parent_read,
     DataclassWrapper.wrap_fields is_subparser_field is_choice
       field_wrapper_message
       (DataclassWrapper.init_type is_subparser_field is_choice
          field_wrapper_message)
       parent dataclass_fn default prefix fs self parent_read =
     DataclassWrapper.wrap_fields is_subparser_field is_choice
       field_wrapper_message
       (DataclassWrapper.init_type is_subparser_field is_choice
          field_wrapper_message)
       parent dataclass_fn default prefix (List.filter included fs) self
       parent_read).
Proof.
  intros Hfs Hinc Hty.
  rewrite init_unfold, init_type_unfold, Hfs. cbv zeta.
  rewrite (wrap_fields_reaches_unsupported _ _ _ _ _ _ _ _ pre f post _ _ Hinc Hty).
  split; [|split].
  - destruct (DataclassWrapper.wrap_fields _ _ _ _ _ _ _ _ pre _ _) as [built|e];
      simpl; [|done].
    by destruct (DataclassWrapper.field_default dataclass_fn default f).
  - destruct (DataclassWrapper.wrap_fields _ _ _ _ _ _ _ _ pre _ _) as [built|e];
      simpl; [|done].
    by destruct (DataclassWrapper.field_default dataclass_fn default f).
  - intros fs self parent_read. apply wrap_fields_included.
Qed.

Lemma unsupported_container_of_records_witness :
  DataclassWrapper.init no_field no_field silent_message Polygon "polygon" VNone ""
    None None None = Raise (NotImplementedError "corners").
Proof.
  apply (unsupported_container_of_records no_field no_field silent_message Polygon
           [seed_field] [] corners_field); reflexivity.
Defined.

(** C7, as stated, fails on a field kept off the command line: [points], a
    list of [Point] records declared with [cmd=False], is skipped and the
    wrapper is built without it. *)
Lemma excluded_container_counterexample :
  dc_fields Batch = [seed_field; points_field] /\
  is_tuple_or_list_of_dataclasses (f_type points_field) = true /\
  DataclassWrapper.init no_field no_field silent_message Batch "batch" VNone ""
    None None None =
    Ok (DataclassWrapper.mk Batch "batch" None VNone "" None
          [FieldWrapper.init seed_field ""] false [] false [] []).
Proof. repeat split. Qed.

(** The exception is another one when a field before the container fails:
    with the mapping [{"seed": 3}] as default, the child made for [origin]
    has no default of its own and asks the mapping for its attribute
    [origin]. *)
Example nested_before_container_fails :
  DataclassWrapper.init no_field no_field silent_message Outline "outline"
    (VDict [("seed", VInt 3)]) "" None None None =
    Raise (AttributeError "origin").
Proof. reflexivity. Qed.

(** ** [merge] *)

Example point_wrapper_q_built :
  DataclassWrapper.init no_field no_field silent_message Point "q" point_instance "" None None None =
    Ok point_wrapper_q.
Proof. reflexivity. Qed.

(** C5 fails on the code where the claim is what [merge] sets out to do:
    [self.defaults.extend(other.defaults)] extends the list the [defaults]
    property returns, and for a wrapper without originating field and
    without defaults the property returns a fresh [[]], not [self._defaults].
    Merging the wrapper of [Point] at ["q"], which has a default, into the
    one at ["p"], which has none, unions the destinations but leaves the
    default list empty instead of holding the default of ["q"]. *)
Lemma merge_drops_other_defaults :
  exists merged,
    DataclassWrapper.merge None None point_wrapper point_wrapper_q = Ok merged /\
    DataclassWrapper._destinations merged = ["p"; "q"] /\
    DataclassWrapper.defaults None point_wrapper = Ok (point_wrapper, [], false) /\
    DataclassWrapper.defaults None point_wrapper_q =
      Ok (point_wrapper_q, [point_instance], true) /\
    DataclassWrapper.defaults None merged = Ok (merged, [], false).
Proof.
  eexists. split; [vm_compute; reflexivity|]. repeat split.
Qed.

Lemma absorb_nonempty mine other : mine <> [] -> absorb mine other <> [].
Proof.
  unfold absorb. revert mine. induction other as [|d other IH]; intros mine H; [done|].
  simpl. apply IH. case_bool_decide; [done|]. by destruct mine.
Qed.

(** The first loop of [merge], once [self] holds its destinations. *)
Lemma absorb_destinations parent w ds other :
  ds <> [] ->
  foldl (DataclassWrapper.absorb_destination parent)
    (DataclassWrapper.with_destinations ds w) other =
  DataclassWrapper.with_destinations (absorb ds other) w.
Proof.
  unfold absorb. revert ds. induction other as [|d other IH]; intros ds Hds; [done|].
  simpl.
  assert (Hstep : DataclassWrapper.absorb_destination parent
                    (DataclassWrapper.with_destinations ds w) d =
                  DataclassWrapper.with_destinations
                    (if bool_decide (d ∈ ds) then ds else ds ++ [d]) w).
  { unfold DataclassWrapper.absorb_destination.
    rewrite destinations_stored by (by destruct w).
    replace (DataclassWrapper._destinations (DataclassWrapper.with_destinations ds w))
      with ds by (by destruct w).
    case_bool_decide; [done|].
    rewrite destinations_stored by (by destruct w). by destruct w. }
  rewrite Hstep. apply IH. case_bool_decide; [done|by destruct ds].
Qed.

Lemma merge_children_spec merge_child cs os cs' :
  DataclassWrapper.merge_children merge_child cs os = Ok cs' ->
  length cs' = length cs /\
  (forall i, length os <= i -> cs' !! i = cs !! i) /\
  (forall i c o, cs !! i = Some c -> os !! i = Some o ->
     exists c', merge_child c o = Ok c' /\ cs' !! i = Some c').
Proof.
  revert os cs'. induction cs as [|c cs IH]; intros os cs' H.
  - simpl in H. injection H as <-. repeat split; try done.
    all: intros i c o Hc; by rewrite lookup_nil in Hc.
  - destruct os as [|o os]; simpl in H.
    + injection H as <-. repeat split; try done.
      all: intros i c0 o Hc Ho; by rewrite lookup_nil in Ho.
    + apply bind_Ok in H as (c' & Hc' & H).
      apply bind_Ok in H as (rest & Hrest & [= <-]).
      apply IH in Hrest as (Hlen & Hextra & Hpair).
      split; [simpl; by rewrite Hlen|]. split.
      * intros [|i] Hi; simpl in *; [lia|]. apply Hextra. lia.
      * intros [|i] c0 o0 Hc0 Ho0; simpl in *.
        -- injection Hc0 as <-. injection Ho0 as <-. by exists c'.
        -- by apply (Hpair i).
Qed.

(** A length mismatch of the child lists never makes the loop fail: an
    exception of the loop is the exception of a pair it merged. *)
Lemma merge_children_raise merge_child cs os e :
  DataclassWrapper.merge_children merge_child cs os = Raise e ->
  exists i c o, cs !! i = Some c /\ os !! i = Some o /\ merge_child c o = Raise e.
Proof.
  revert os. induction cs as [|c cs IH]; intros os H; [done|].
  destruct os as [|o os]; [done|]. simpl in H.
  destruct (merge_child c o) as [c'|e'] eqn:Hc; simpl in H.
  - destruct (DataclassWrapper.merge_children merge_child cs os) as [rest|e'']
      eqn:Hrest; simpl in H; [done|]. injection H as ->.
    destruct (IH os Hrest) as (i & c0 & o0 & H1 & H2 & H3).
    by exists (S i), c0, o0.
  - injection H as ->. by exists 0, c, o.
Qed.

Lemma children_with_children cs w :
  DataclassWrapper._children (DataclassWrapper.with_children cs w) = cs.
Proof. by destruct w. Qed.

Lemma merge_unfold parent other_parent self other :
  DataclassWrapper.merge parent other_parent self other =
  (let (self1, _) := DataclassWrapper.destinations parent self in
   let (other1, other_destinations) :=
     DataclassWrapper.destinations other_parent other in
   let self2 :=
     foldl (DataclassWrapper.absorb_destination parent) self1 other_destinations in
   let* self_defaults := DataclassWrapper.defaults parent self2 in
   let '(self3, own, stored) := self_defaults in
   let* other_defaults := DataclassWrapper.defaults other_parent other1 in
   let '(other2, theirs, _) := other_defaults in
   let self4 :=
     if stored : bool
     then DataclassWrapper.with_defaults (own ++ theirs) self3 else self3 in
   let self5 :=
     DataclassWrapper.with_fields
       (map clear_default (DataclassWrapper.fields self)) self4 in
   let* children' :=
     DataclassWrapper.merge_children
       (DataclassWrapper.merge
          (Some (DataclassWrapper.view_of parent self5))
          (Some (DataclassWrapper.view_of other_parent other2)))
       (DataclassWrapper._children self) (DataclassWrapper._children other2) in
   Ok (DataclassWrapper.with_children children' self5)).
Proof. destruct self; reflexivity. Qed.

Lemma defaults_of_with_destinations parent ds w :
  defaults_of parent (DataclassWrapper.with_destinations ds w) =
  defaults_of parent w.
Proof.
  unfold defaults_of, DataclassWrapper.defaults. destruct w as
    [D n fn d p fld fs opt dests req children [|x xs]]; simpl; [|done].
  destruct fld as [f|]; [|done]. destruct parent as [pv|]; [|done].
  destruct (DataclassWrapper.pv_defaults pv) as [[|pd pds]|]; cbn [bind]; [| |done].
  - by destruct (default_value f).
  - by destruct (for_each _ (pd :: pds) []).
Qed.

Lemma destinations_again parent w :
  DataclassWrapper.destinations parent
    (DataclassWrapper.with_destinations
       (DataclassWrapper.destinations parent w).2 w) =
  (DataclassWrapper.with_destinations
     (DataclassWrapper.destinations parent w).2 w,
   (DataclassWrapper.destinations parent w).2).
Proof.
  unfold DataclassWrapper.destinations at 2 3 4.
  destruct (DataclassWrapper._destinations w) as [|d ds] eqn:Hds; simpl.
  - unfold DataclassWrapper.destinations.
    destruct w as [D n fn df p fld fs opt dests req children dflts].
    simpl in *. subst dests.
    destruct parent as [pv|]; simpl; [|done].
    by destruct (map _ (DataclassWrapper.pv_destinations pv)).
  - rewrite <- Hds, with_destinations_same.
    apply destinations_stored. by rewrite Hds.
Qed.

Lemma destinations_with_defaults parent l w :
  (DataclassWrapper.destinations parent (DataclassWrapper.with_defaults l w)).2 =
  (DataclassWrapper.destinations parent w).2.
Proof.
  destruct w as [D n fn df p fld fs opt dests req children dflts].
  unfold DataclassWrapper.destinations. simpl. by destruct dests.
Qed.

(** What [merge] returns, step by step. *)
Lemma merge_steps parent other_parent self other merged :
  DataclassWrapper.merge parent other_parent self other = Ok merged ->
  (DataclassWrapper.destinations parent self).2 <> [] ->
  exists own stored theirs other_stored children',
    let M := absorb (DataclassWrapper.destinations parent self).2
               (DataclassWrapper.destinations other_parent other).2 in
    let self3 := DataclassWrapper.with_destinations M self in
    let self5 :=
      DataclassWrapper.with_fields
        (map clear_default (DataclassWrapper.fields self))
        (if stored : bool
         then DataclassWrapper.with_defaults (own ++ theirs) self3 else self3) in
    let other1 :=
      DataclassWrapper.with_destinations
        (DataclassWrapper.destinations other_parent other).2 other in
    let other2 :=
      if other_stored : bool
      then DataclassWrapper.with_defaults theirs other1 else other1 in
    DataclassWrapper.merge_children
      (DataclassWrapper.merge
         (Some (DataclassWrapper.view_of parent self5))
         (Some (DataclassWrapper.view_of other_parent other2)))
      (DataclassWrapper._children self) (DataclassWrapper._children other) =
      Ok children' /\
    merged = DataclassWrapper.with_children children' self5 /\
    defaults_of parent self = Ok (own, stored) /\
    defaults_of other_parent other = Ok (theirs, other_stored).
Proof.
  intros H Hds. rewrite merge_unfold in H.
  pose proof (destinations_spec parent self) as Hself1.
  pose proof (destinations_spec other_parent other) as Hother1.
  destruct (DataclassWrapper.destinations parent self) as [self1 ds] eqn:Hd1.
  destruct (DataclassWrapper.destinations other_parent other) as [other1 ods] eqn:Hd2.
  simpl in Hself1, Hother1, Hds |- *. subst self1 other1.
  rewrite absorb_destinations in H by done. cbv zeta in H.
  pose proof (defaults_of_with_destinations parent (absorb ds ods) self) as Hdo1.
  pose proof (defaults_of_with_destinations other_parent ods other) as Hdo2.
  unfold defaults_of in Hdo1, Hdo2.
  destruct (DataclassWrapper.defaults parent
              (DataclassWrapper.with_destinations (absorb ds ods) self))
    as [[[self3 own] stored]|e] eqn:Hdef1; cbn [bind] in H; [|done].
  destruct (DataclassWrapper.defaults other_parent
              (DataclassWrapper.with_destinations ods other))
    as [[[other2 theirs] other_stored]|e] eqn:Hdef2; cbn [bind] in H; [|done].
  apply bind_Ok in H as (children' & Hchildren & [= <-]).
  apply defaults_keeps in Hdef1 as [-> Hfresh].
  apply defaults_keeps in Hdef2 as [-> _].
  cbn [bind] in Hdo1, Hdo2. simpl in Hdo1, Hdo2.
  exists own, stored, theirs, other_stored, children'.
  assert (Hoc : DataclassWrapper._children
                  (if other_stored
                   then DataclassWrapper.with_defaults theirs
                          (DataclassWrapper.with_destinations ods other)
                   else DataclassWrapper.with_destinations ods other) =
                DataclassWrapper._children other).
  { destruct other_stored; by destruct other. }
  rewrite Hoc in Hchildren.
  assert (Hnorm :
    (if stored
     then DataclassWrapper.with_defaults (own ++ theirs)
            (if stored
             then DataclassWrapper.with_defaults own
                    (DataclassWrapper.with_destinations (absorb ds ods) self)
             else DataclassWrapper.with_destinations (absorb ds ods) self)
     else if stored
          then DataclassWrapper.with_defaults own
                 (DataclassWrapper.with_destinations (absorb ds ods) self)
          else DataclassWrapper.with_destinations (absorb ds ods) self) =
    (if stored
     then DataclassWrapper.with_defaults (own ++ theirs)
            (DataclassWrapper.with_destinations (absorb ds ods) self)
     else DataclassWrapper.with_destinations (absorb ds ods) self)).
  { destruct stored; by destruct self. }
  rewrite Hnorm in Hchildren. rewrite Hnorm. by repeat split.
Qed.

Lemma defaults_again parent w w' l stored :
  DataclassWrapper.defaults parent w = Ok (w', l, stored) ->
  defaults_of parent w' = Ok (l, true) \/
  (w' = w /\ l = [] /\ defaults_of parent w = Ok ([], stored)).
Proof.
  intros H. pose proof (defaults_stores _ _ _ _ _ H) as ->.
  destruct l as [|d l].
  - right. destruct (defaults_keeps _ _ _ _ _ H) as [_ Hfresh].
    unfold defaults_of. rewrite H. simpl.
    destruct (DataclassWrapper._defaults w) as [|x xs] eqn:Hd.
    + split; [|done]. rewrite <- Hd. by destruct w.
    + unfold DataclassWrapper.defaults in H. rewrite Hd in H. done.
  - left. unfold defaults_of, DataclassWrapper.defaults. by destruct w.
Qed.

(** What a wrapper shows its children is the same once its two caches hold
    what the properties returned. *)
Lemma view_of_cached parent w w' l stored :
  DataclassWrapper.defaults parent
    (DataclassWrapper.with_destinations
       (DataclassWrapper.destinations parent w).2 w) = Ok (w', l, stored) ->
  DataclassWrapper.view_of parent w' = DataclassWrapper.view_of parent w.
Proof.
  intros H. unfold DataclassWrapper.view_of.
  pose proof (defaults_of_with_destinations parent
                (DataclassWrapper.destinations parent w).2 w) as Hdo.
  assert (Hl : defaults_of parent w = Ok (l, stored)).
  { rewrite <- Hdo. unfold defaults_of. by rewrite H. }
  f_equal.
  - pose proof (defaults_stores _ _ _ _ _ H) as ->.
    rewrite destinations_with_defaults. by rewrite destinations_again.
  - assert (Hsame : forall a, defaults_of parent a =
              (let* r := DataclassWrapper.defaults parent a in Ok (r.1.2, r.2))) by done.
    assert (Hv : forall a x, defaults_of parent a = Ok x ->
              (let* r := DataclassWrapper.defaults parent a in Ok r.1.2) = Ok x.1).
    { intros a x. unfold defaults_of.
      by destruct (DataclassWrapper.defaults parent a); simpl; [intros [= <-]|]. }
    rewrite (Hv _ _ Hl). simpl.
    destruct (defaults_again _ _ _ _ _ H) as [H'|(-> & -> & H')].
    + by rewrite (Hv _ _ H').
    + pose proof (defaults_of_with_destinations parent
                    (DataclassWrapper.destinations parent w).2 w) as Hdo'.
      rewrite Hl in Hdo'. by rewrite (Hv _ _ Hdo').
Qed.

Lemma view_of_with_children parent cs w :
  DataclassWrapper.view_of parent (DataclassWrapper.with_children cs w) =
  DataclassWrapper.view_of parent w.
Proof.
  rewrite <- (view_of_rebuilt parent (DataclassWrapper._destinations w)
                (DataclassWrapper.fields w) cs w) by (by left).
  by destruct w.
Qed.

(** What [merge] achieves (the parts of C5 that hold on every input, and
    the default list as the code leaves it).  When it returns: the
    destinations of [other] that [self] lacks are appended to those of
    [self], in order; every field wrapper has its default cleared; the
    children are merged pairwise by position, each pair by [merge] itself
    under the merged wrapper and [other] as parents, those without partner
    staying as they are; and the default list becomes [self]'s defaults
    followed by [other]'s exactly when the [defaults] property of [self]
    returned its stored list.  When it raises, the exception is one of a
    [defaults] property or of the merge of a pair of children: child lists
    of different lengths are no error. *)
Theorem merge_absorbs (parent other_parent : option DataclassWrapper.ParentView)
    (self other : DataclassWrapper.t) :
  (DataclassWrapper.destinations parent self).2 <> [] ->
  match DataclassWrapper.merge parent other_parent self other with
  | Ok merged =>
      DataclassWrapper._destinations merged =
        absorb (DataclassWrapper.destinations parent self).2
          (DataclassWrapper.destinations other_parent other).2 /\
      DataclassWrapper.fields merged =
        map clear_default (DataclassWrapper.fields self) /\
      (forall fw, fw ∈ DataclassWrapper.fields merged ->
         FieldWrapper._default fw = VNone) /\
      length (DataclassWrapper._children merged) =
        length (DataclassWrapper._children self) /\
      (forall i, length (DataclassWrapper._children other) <= i ->
         DataclassWrapper._children merged !! i =
           DataclassWrapper._children self !! i) /\
      (forall i c o,
         DataclassWrapper._children self !! i = Some c ->
         DataclassWrapper._children other !! i = Some o ->
         exists c',
           DataclassWrapper.merge
             (Some (DataclassWrapper.view_of parent merged))
             (Some (DataclassWrapper.view_of other_parent other)) c o = Ok c' /\
           DataclassWrapper._children merged !! i = Some c') /\
      exists own theirs stored other_stored,
        defaults_of parent self = Ok (own, stored) /\
        defaults_of other_parent other = Ok (theirs, other_stored) /\
        DataclassWrapper._defaults merged =
          (if stored then own ++ theirs else DataclassWrapper._defaults self)
  | Raise e =>
      defaults_of parent self = Raise e \/
      defaults_of other_parent other = Raise e \/
      exists i c o pv,
        DataclassWrapper._children self !! i = Some c /\
        DataclassWrapper._children other !! i = Some o /\
        DataclassWrapper.pv_destinations pv =
          absorb (DataclassWrapper.destinations parent self).2
            (DataclassWrapper.destinations other_parent other).2 /\
        DataclassWrapper.merge (Some pv)
          (Some (DataclassWrapper.view_of other_parent other)) c o = Raise e
  end.
Proof.
  intros Hds. rewrite merge_unfold.
  pose proof (destinations_spec parent self) as Hself1.
  pose proof (destinations_spec other_parent other) as Hother1.
  pose proof (view_of_cached other_parent other) as Hview.
  destruct (DataclassWrapper.destinations parent self) as [self1 ds] eqn:Hd1.
  destruct (DataclassWrapper.destinations other_parent other) as [other1 ods] eqn:Hd2.
  simpl in Hself1, Hother1, Hds, Hview |- *. subst self1 other1.
  rewrite absorb_destinations by done.
  pose proof (defaults_of_with_destinations parent (absorb ds ods) self) as Hdo1.
  pose proof (defaults_of_with_destinations other_parent ods other) as Hdo2.
  unfold defaults_of in Hdo1, Hdo2.
  destruct (DataclassWrapper.defaults parent
              (DataclassWrapper.with_destinations (absorb ds ods) self))
    as [[[self3 own] stored]|e] eqn:Hdef1; cbn [bind] in Hdo1 |- *;
    [|left; unfold defaults_of; by rewrite <- Hdo1].
  destruct (DataclassWrapper.defaults other_parent
              (DataclassWrapper.with_destinations ods other))
    as [[[other2 theirs] other_stored]|e] eqn:Hdef2; cbn [bind] in Hdo2 |- *;
    [|right; left; unfold defaults_of; by rewrite <- Hdo2].
  rewrite (Hview _ _ _ eq_refl).
  pose proof (defaults_keeps _ _ _ _ _ Hdef1) as [-> Hfresh].
  pose proof (defaults_stores _ _ _ _ _ Hdef2) as ->.
  replace (DataclassWrapper._children
             (DataclassWrapper.with_defaults theirs
                (DataclassWrapper.with_destinations ods other)))
    with (DataclassWrapper._children other) by (by destruct other).
  set (self5 := DataclassWrapper.with_fields _ _).
  assert (Hpv : DataclassWrapper.pv_destinations
                  (DataclassWrapper.view_of parent self5) = absorb ds ods).
  { unfold DataclassWrapper.view_of. simpl.
    pose proof (absorb_nonempty ds ods Hds) as Hne.
    rewrite destinations_stored; subst self5; destruct stored; by destruct self. }
  destruct (DataclassWrapper.merge_children _ _ _) as [children'|e] eqn:Hchildren;
    cbn [bind].
  - apply merge_children_spec in Hchildren as (Hlen & Hextra & Hpair).
    rewrite view_of_with_children, children_with_children.
    split; [subst self5; by destruct stored; destruct self|].
    split; [subst self5; by destruct stored; destruct self|].
    split.
    { intros fw Hfw.
      assert (Hfs : fw ∈ map clear_default (DataclassWrapper.fields self))
        by (subst self5; by destruct stored; destruct self).
      apply list_elem_of_fmap in Hfs as (fw0 & -> & _). done. }
    split; [done|]. split; [done|]. split; [done|].
    exists own, theirs, stored, other_stored.
    simpl in Hdo1, Hdo2. split; [done|]. split; [done|].
    subst self5. destruct stored; [by destruct self|].
    destruct (Hfresh eq_refl) as [Hempty _]. by destruct self.
  - right. right.
    apply merge_children_raise in Hchildren as (i & c & o & Hc & Ho & He).
    by exists i, c, o, (DataclassWrapper.view_of parent self5).
Qed.

Lemma merge_absorbs_witness :
  exists merged,
    DataclassWrapper.merge None None point_wrapper_q point_wrapper = Ok merged /\
    DataclassWrapper._destinations merged = ["q"; "p"].
Proof.
  pose proof (merge_absorbs None None point_wrapper_q point_wrapper) as H.
  destruct (DataclassWrapper.merge None None point_wrapper_q point_wrapper)
    as [merged|e] eqn:Hrun; [|vm_compute in Hrun; discriminate Hrun].
  exists merged. split; [reflexivity|].
  destruct H as (Hdests & _); [discriminate|].
  rewrite Hdests. vm_compute. reflexivity.
Defined.

(** ** Wrappers built by [__init__] have distinct names *)

Lemma distinct_names_dataclass D :
  distinct_names (TDataclass D) <->
  NoDup (map f_name (dc_fields D)) /\
  Forall (fun f => distinct_names (f_type f)) (dc_fields D).
Proof.
  simpl.
  assert (Hall : forall fs : list DataclassField,
            (fix all (fs : list DataclassField) : Prop :=
               match fs with
               | [] => True
               | f :: fs' => distinct_names (f_type f) /\ all fs'
               end) fs <-> Forall (fun f => distinct_names (f_type f)) fs).
  { induction fs as [|f fs IH]; [by split; [constructor|]|].
    by rewrite Forall_cons, IH. }
  by rewrite Hall.
Qed.

Lemma distinct_names_union Ts :
  distinct_names (TUnion Ts) <-> Forall distinct_names Ts.
Proof.
  simpl. induction Ts as [|A Ts IH]; [by split; [constructor|]|].
  by rewrite Forall_cons, IH.
Qed.

Lemma set_required_named b w :
  DataclassWrapper._name (DataclassWrapper.set_required b w) =
    DataclassWrapper._name w /\
  (well_named w -> well_named (DataclassWrapper.set_required b w)).
Proof.
  induction w as [D n fn d p fld fs opt dests req children defaults IH]
    using wrapper_ind.
  split; [done|]. intros Hwn.
  apply well_named_unfold in Hwn as [Hnd Hchildren].
  change (DataclassWrapper.set_required b
            (DataclassWrapper.mk D n fn d p fld fs opt dests req children defaults))
    with (DataclassWrapper.mk D n fn d p fld
            (map (fun f => FieldWrapper.set_required f b) fs) opt dests b
            (map (DataclassWrapper.set_required b) children) defaults).
  apply well_named_unfold. unfold wrapper_names in *. simpl in *. split.
  - rewrite !map_map.
    assert (Hnames : map (fun c => DataclassWrapper._name
                                     (DataclassWrapper.set_required b c)) children =
                     map DataclassWrapper._name children).
    { apply map_ext_in. intros c Hc%list_elem_of_In.
      rewrite Forall_forall in IH. by apply IH. }
    rewrite Hnames. exact Hnd.
  - apply Forall_fmap. rewrite Forall_forall in IH, Hchildren.
    apply Forall_forall. intros c Hc. simpl.
    by apply (proj2 (IH c Hc)), Hchildren.
Qed.

Lemma set_optional_named b w :
  DataclassWrapper._name (DataclassWrapper.set_optional b w) =
    DataclassWrapper._name w /\
  (well_named w -> well_named (DataclassWrapper.set_optional b w)).
Proof. by destruct w. Qed.

Lemma filter_split_names (p q : DataclassField -> bool) (fs : list DataclassField) :
  map f_name (List.filter (fun f => p f && negb (q f)) fs) ++
  map f_name (List.filter (fun f => p f && q f) fs) ≡ₚ
  map f_name (List.filter p fs).
Proof.
  induction fs as [|f fs IH]; simpl; [done|].
  destruct (p f), (q f); simpl; try done.
  - rewrite <- IH. by rewrite Permutation_middle.
  - by rewrite IH.
Qed.

Lemma filter_names_NoDup (p : DataclassField -> bool) (fs : list DataclassField) :
  NoDup (map f_name fs) -> NoDup (map f_name (List.filter p fs)).
Proof.
  induction fs as [|f fs IH]; simpl; [done|].
  intros Hnd. inversion Hnd as [|? ? Hf Hrest]; subst.
  destruct (p f); simpl; [|by apply IH].
  constructor; [|by apply IH].
  intros (g & Hname & Hg)%list_elem_of_fmap. apply Hf.
  apply list_elem_of_In, filter_In in Hg as [Hg _]. rewrite Hname.
  apply list_elem_of_fmap_2. by apply list_elem_of_In.
Qed.

Lemma wrapper_field_name fn default prefix f fw :
  wrapper_of_field fn default prefix f fw -> FieldWrapper.name fw = f_name f.
Proof.
  intros (fd & _ & ->). unfold DataclassWrapper.wrap_field. by destruct fd.
Qed.

Lemma wrapper_field_names fn default prefix fs fws :
  Forall2 (wrapper_of_field fn default prefix) fs fws ->
  map FieldWrapper.name fws = map f_name fs.
Proof.
  induction 1 as [|f fw fs fws Hf _ IH]; [done|].
  simpl. by rewrite IH, (wrapper_field_name _ _ _ _ _ Hf).
Qed.

(** The children the loop makes with a constructor that names its wrappers
    well bear the names of their fields and are well named. *)
Lemma built_children_named construct pv fn default fs cs :
  Forall (fun f => builds_named construct (f_type f)) fs ->
  Forall2 (built_child construct pv fn default) fs cs ->
  map DataclassWrapper._name cs = map f_name fs /\ Forall well_named cs.
Proof.
  intros Hall H. induction H as [|f c fs cs Hc _ IH]; [done|].
  inversion Hall as [|? ? Hf Hfs]; subst.
  destruct (IH Hfs) as [Hnames Hwn].
  destruct Hc as (fd & c0 & read & _ & Hc0 & ->).
  destruct (Hf _ _ _ _ _ _ _ _ Hc0) as [Hname Hc0wn].
  assert (Hc : DataclassWrapper._name
                 (if is_dataclass (f_type f) && negb (default_is_None f) then c0
                  else DataclassWrapper.set_optional true
                         (DataclassWrapper.set_required false c0)) = f_name f /\
               well_named
                 (if is_dataclass (f_type f) && negb (default_is_None f) then c0
                  else DataclassWrapper.set_optional true
                         (DataclassWrapper.set_required false c0))).
  { destruct (is_dataclass (f_type f) && negb (default_is_None f)); [done|].
    destruct (set_required_named false c0) as [Hn Hw].
    destruct (set_optional_named true (DataclassWrapper.set_required false c0))
      as [Hn' Hw'].
    split; [by rewrite Hn', Hn|by apply Hw', Hw]. }
  destruct Hc as [Hcn Hcw]. simpl. rewrite Hcn, Hnames. split; [done|].
  by constructor.
Qed.

Section InitNames.
Variables is_subparser_field is_choice : DataclassField -> bool.
Variable field_wrapper_message :
  option DataclassWrapper.ParentView -> DataclassWrapper.t -> FieldWrapper.t ->
  result bool.

Local Abbreviation init_type :=
  (DataclassWrapper.init_type is_subparser_field is_choice field_wrapper_message).
Local Abbreviation as_child := (wrapped_as_child is_subparser_field is_choice).

(** The names of what [__init__] wraps are the names of the fields it does
    not skip, when the constructor names the children after their fields. *)
Lemma init_type_names D name default prefix parent fld fn w read :
  Forall (fun f => builds_named init_type (f_type f)) (dc_fields D) ->
  init_type (TDataclass D) name default prefix parent fld fn = Ok (w, read) ->
  wrapper_names w ≡ₚ map f_name (List.filter included (dc_fields D)) /\
  Forall well_named (DataclassWrapper._children w).
Proof.
  intros Hall H.
  apply init_type_shape in H as (ds & fws & cs & l & -> & _ & Hfws & Hcs).
  apply built_children_named in Hcs as [Hnames Hwn].
  2:{ rewrite Forall_forall in Hall. apply Forall_forall.
      intros f Hf. apply Hall.
      apply list_elem_of_In. apply list_elem_of_In, filter_In in Hf. tauto. }
  split; [|done]. unfold wrapper_names. simpl.
  rewrite (wrapper_field_names _ _ _ _ _ Hfws), Hnames.
  apply (filter_split_names included as_child).
Qed.

(** Every wrapper [__init__] returns for a schema with distinct field
    names carries the name it was given and has distinct names, in itself
    and in its descendants: the hypotheses of the statements on
    [set_default] hold of the wrappers the code builds. *)
Theorem init_builds_well_named (T : ftype) :
  distinct_names T ->
  builds_named init_type T.
Proof.
  induction T as [| | | | E | T IH | T IH | T IH | Ts IH | D IH] using type_ind;
    intros Hdn name default prefix parent fld fn w read H; try discriminate H.
  - simpl in H. destruct (is_dataclass T); [|discriminate H].
    by apply (IH Hdn name default prefix parent fld fn w read).
  - apply distinct_names_union in Hdn. simpl in H.
    induction Ts as [|A Ts IHTs]; [discriminate H|].
    inversion IH as [|? ? HA HTs]; subst.
    inversion Hdn as [|? ? HdA HdTs]; subst.
    destruct (is_dataclass A).
    + by apply (HA HdA name default prefix parent fld fn w read).
    + by apply IHTs.
  - apply distinct_names_dataclass in Hdn as [Hnd Hfields].
    assert (Hall : Forall (fun f => builds_named init_type (f_type f)) (dc_fields D)).
    { rewrite Forall_forall in IH, Hfields. apply Forall_forall.
      intros f Hf. by apply IH, Hfields. }
    destruct (init_type_names _ _ _ _ _ _ _ _ _ Hall H) as [Hnames Hwn].
    split.
    { by apply init_type_shape in H as (ds & fws & cs & l & -> & _). }
    apply well_named_unfold. split; [|done].
    rewrite Hnames. by apply filter_names_NoDup.
Qed.
End InitNames.

Lemma init_builds_well_named_witness :
  well_named shape_wrapper.
Proof.
  assert (Hdn : distinct_names (TDataclass Shape)).
  { simpl. repeat split; apply (bool_decide_unpack _); vm_compute; exact I. }
  exact (proj2 (init_builds_well_named no_field no_field silent_message
                  (TDataclass Shape) Hdn
                  "shape" VNone "" None None None shape_wrapper false eq_refl)).
Defined.

(** The specification's scenario through [parse_args]: [Point] requested at
    ["p1"] and ["p2"], the engine having parsed [--x 1 2 --y 3 3]. *)
Example point_scenario_destinations :
  exists self' ns',
    parse_args (fixed_engine two_points_namespace)
      (add_arguments (add_arguments empty_parser Point "p1") Point "p2")
      None None = Ok (self', ns') /\
    ns' !! "p1" = Some (VInstance "Point" [("x", VInt 1); ("y", VInt 3)]) /\
    ns' !! "p2" = Some (VInstance "Point" [("x", VInt 2); ("y", VInt 3)]) /\
    ns' !! "x" = Some (VList [VInt 1; VInt 2]) /\
    map title (_action_groups self') = ["Point ['p1', 'p2']"].
Proof.
  eexists _, _. split; [vm_compute; reflexivity|].
  repeat split; vm_compute; reflexivity.
Qed.

(** ** The deferred requests *)

Lemma same_class_spec D D' :
  same_class D D' = true <-> class_id D = class_id D'.
Proof. unfold same_class. apply Nat.eqb_eq. Qed.

Lemma same_class_false D D' :
  same_class D D' = false <-> class_id D <> class_id D'.
Proof. unfold same_class. apply Nat.eqb_neq. Qed.

Ltac class_cases :=
  repeat match goal with
  | |- context [same_class ?A ?B] =>
      let E := fresh "E" in
      destruct (same_class A B) eqn:E;
      [apply same_class_spec in E | apply same_class_false in E]
  end.

Lemma args_to_add_get_append tbl D dest D' :
  args_to_add_get (append_dest tbl D dest) D' =
  args_to_add_get tbl D' ++ (if same_class D D' then [dest] else []).
Proof.
  induction tbl as [|[D0 dests] tbl IH]; simpl.
  - class_cases; done.
  - destruct (same_class D0 D) eqn:E0;
      [apply same_class_spec in E0 | apply same_class_false in E0]; simpl.
    + class_cases; try done; try congruence. by rewrite app_nil_r.
    + destruct (same_class D0 D') eqn:E1;
        [apply same_class_spec in E1 | apply same_class_false in E1].
      * class_cases; [congruence|by rewrite app_nil_r].
      * exact IH.
Qed.

Lemma append_dest_keys tbl D dest :
  map (fun r => class_id r.1) (append_dest tbl D dest) =
  map (fun r : Dataclass * list string => class_id r.1) tbl ++
  (if bool_decide (class_id D ∈ map (fun r : Dataclass * list string => class_id r.1) tbl)
   then [] else [class_id D]).
Proof.
  induction tbl as [|[D0 dests] tbl IH]; simpl; [done|].
  destruct (same_class D0 D) eqn:E0;
    [apply same_class_spec in E0 | apply same_class_false in E0]; simpl.
  - rewrite bool_decide_true; [by rewrite app_nil_r|]. rewrite E0. left.
  - rewrite IH. f_equal. f_equal.
    rewrite (bool_decide_ext _ (class_id D ∈ class_id D0 ::
      map (fun r : Dataclass * list string => class_id r.1) tbl)); [done|].
    rewrite elem_of_cons. naive_solver.
Qed.

Lemma append_dest_wf tbl D dest :
  requests_wf tbl -> requests_wf (append_dest tbl D dest).
Proof.
  intros [Hnd Hne]. split.
  - unfold distinct_classes in *. rewrite append_dest_keys.
    case_bool_decide as Hin; [by rewrite app_nil_r|].
    apply NoDup_app. split; [done|]. split; [|apply NoDup_singleton].
    intros k Hk ->%list_elem_of_singleton. done.
  - clear Hnd. induction Hne as [|[D0 dests] tbl H0 Hrest IH]; simpl.
    + by repeat constructor.
    + destruct (same_class D0 D); constructor; simpl; try done.
      by destruct dests.
Qed.

(** The deferred requests accumulate.  The table is keyed by the class
    itself, not by its name.  After any sequence of
    [add_arguments] calls the list kept for a class is the one it had,
    followed by the destinations the calls asked for that class, in call
    order; nothing is registered with the engine yet; and the table keeps
    distinct classes, none with an empty list. *)
Theorem add_arguments_accumulates (self : ArgumentParser)
    (calls : list (Dataclass * string)) (D : Dataclass) :
  args_to_add_get (_args_to_add (add_all self calls)) D =
    args_to_add_get (_args_to_add self) D ++ requested_for D calls /\
  _action_groups (add_all self calls) = _action_groups self /\
  (requests_wf (_args_to_add self) ->
   requests_wf (_args_to_add (add_all self calls))).
Proof.
  revert self. induction calls as [|[D0 dest] calls IH]; intros self.
  - simpl. rewrite app_nil_r. done.
  - destruct (IH (add_arguments self D0 dest)) as (Hget & Hgroups & Hwf).
    change (add_all self ((D0, dest) :: calls))
      with (add_all (add_arguments self D0 dest) calls).
    rewrite Hget, Hgroups. split; [|split; [done|]].
    + simpl _args_to_add. rewrite args_to_add_get_append.
      unfold requested_for. simpl List.filter.
      destruct (same_class D0 D); simpl; [by rewrite <- app_assoc|].
      by rewrite app_nil_r.
    + intros H. apply Hwf. simpl. by apply append_dest_wf.
Qed.

Lemma add_arguments_accumulates_witness :
  args_to_add_get
    (_args_to_add
       (add_all empty_parser [(Point, "p"); (Options, "o"); (Point, "q")]))
    Point = ["p"; "q"] /\
  requests_wf
    (_args_to_add
       (add_all empty_parser [(Point, "p"); (Options, "o"); (Point, "q")])).
Proof.
  destruct (add_arguments_accumulates empty_parser
              [(Point, "p"); (Options, "o"); (Point, "q")] Point)
    as (Hget & _ & Hwf).
  split; [exact Hget|]. apply Hwf. split; constructor.
Defined.

(** Two classes of the same name are two keys. *)
Example same_name_two_classes :
  qualname PointTwin = qualname Point /\
  _args_to_add (add_all empty_parser [(Point, "p"); (PointTwin, "q")]) =
    [(Point, ["p"]); (PointTwin, ["q"])].
Proof. split; reflexivity. Qed.

Lemma args_to_add_get_member tbl D dests :
  distinct_classes tbl -> (D, dests) ∈ tbl -> args_to_add_get tbl D = dests.
Proof.
  unfold distinct_classes.
  induction tbl as [|[D0 dests0] tbl IH]; intros Hnd Hin;
    [by apply elem_of_nil in Hin|].
  simpl in *. inversion Hnd as [|? ? Hfresh Hrest]; subst.
  apply elem_of_cons in Hin as [[= <- <-]|Hin].
  - unfold same_class. by rewrite Nat.eqb_refl.
  - unfold same_class.
    destruct (Nat.eqb_spec (class_id D0) (class_id D)) as [Heq|_].
    + exfalso. apply Hfresh. rewrite Heq.
      by apply (list_elem_of_fmap_2 (fun r : Dataclass * list string => class_id r.1)
                  _ (D, dests)).
    + by apply IH.
Qed.

Lemma registration_groups self (requests : list (Dataclass * list string)) self' :
  distinct_classes (_args_to_add self) ->
  (forall r, r ∈ requests -> r ∈ _args_to_add self) ->
  for_each (fun self request =>
              _add_arguments self request.1 (Nat.ltb 1 (length request.2)))
    requests self = Ok self' ->
  exists groups,
    _action_groups self' = _action_groups self ++ groups /\
    map title groups = map group_title requests /\
    map description groups = map (fun r => dc_doc r.1) requests /\
    Forall2 (fun group r => group_options r (group_actions group)) groups requests.
Proof.
  revert self. induction requests as [|[D dests] requests IH]; intros self Hnd Hin H.
  - injection H as <-. exists []. by rewrite app_nil_r.
  - cbn [for_each fst snd] in H. apply bind_Ok in H as (self1 & Hstep & Hrest).
    destruct (add_arguments_registers _ _ _ _ Hstep)
      as (Htbl & actions & Hgroups & Hactions & _).
    rewrite (args_to_add_touch_present _ D dests) in Htbl by (apply Hin; left).
    rewrite (args_to_add_get_member _ D dests Hnd) in Hgroups by (apply Hin; left).
    destruct (IH self1) as (groups & Hg & Ht & Hd & Ho); [by rewrite Htbl| |done|].
    { intros r Hr. rewrite Htbl. apply Hin. by right. }
    eexists (_ :: groups). rewrite Hg, Hgroups, <- app_assoc.
    split; [done|]. simpl. rewrite Ht, Hd. split; [done|]. split; [done|].
    by constructor.
Qed.

(** What [parse_args] registers with the engine, the table holding each
    class once (as the table [add_arguments] fills does): after the groups
    the parser already had, one group per requested class, in the order of the
    first requests, titled with the class name and its quoted destinations,
    described by the class docstring, holding one option [--name] per field
    in declaration order, declared for several instances exactly when the
    class has more than one destination; this is the parser the engine
    parses with. *)
Theorem parse_args_registers_groups
    (super_parse_args :
       ArgumentParser -> option (list string) -> option (gmap string value) ->
       result (gmap string value))
    (self self' : ArgumentParser) (args : option (list string))
    (namespace : option (gmap string value)) (ns' : gmap string value) :
  parse_args super_parse_args self args namespace = Ok (self', ns') ->
  distinct_classes (_args_to_add self) ->
  is_ok (super_parse_args self' args namespace) = true /\
  exists groups,
    _action_groups self' = _action_groups self ++ groups /\
    map title groups = map group_title (_args_to_add self) /\
    map description groups = map (fun r => dc_doc r.1) (_args_to_add self) /\
    Forall2 (fun group r => group_options r (group_actions group))
      groups (_args_to_add self).
Proof.
  intros Hrun Hnd. unfold parse_args in Hrun.
  apply bind_Ok in Hrun as (self1 & Hreg & Hrun).
  apply bind_Ok in Hrun as (parsed_args & Hengine & Hrun).
  apply bind_Ok in Hrun as (ns1 & _ & [= <- <-]).
  split; [by rewrite Hengine|].
  by apply registration_groups.
Qed.

Lemma parse_args_registers_groups_witness :
  exists self' ns' groups,
    parse_args (fixed_engine two_points_namespace)
      (add_arguments (add_arguments empty_parser Point "p") Point "q")
      None None = Ok (self', ns') /\
    _action_groups self' = groups /\
    map title groups = ["Point ['p', 'q']"].
Proof.
  destruct (parse_args (fixed_engine two_points_namespace)
      (add_arguments (add_arguments empty_parser Point "p") Point "q")
      None None) as [[self' ns']|e] eqn:Hrun; [|by vm_compute in Hrun].
  destruct (parse_args_registers_groups _ _ _ _ _ _ Hrun)
    as (_ & groups & Hgroups & Htitles & _).
  { repeat constructor. set_solver. }
  exists self', ns', groups. split; [done|]. split; [exact Hgroups|].
  rewrite Htitles. reflexivity.
Defined.

(** Two requested classes with a field of the same name ask for the same
    option string, which the engine refuses. *)
Example same_option_twice :
  parse_args (fixed_engine xy_namespace)
    (add_all empty_parser [(Point, "p"); (PointTwin, "q")]) None None =
    Raise (ArgumentError "--x").
Proof. vm_compute. reflexivity. Qed.

(** ** What reconstruction reads *)

Lemma constructor_arg_agree f args args' :
  args !! f_name f = args' !! f_name f ->
  constructor_arg f args = constructor_arg f args'.
Proof.
  intros H. unfold constructor_arg, getitem. by rewrite H.
Qed.

Lemma instantiate_dataclass_agree D args args' :
  agree_on (dc_fields D) args args' ->
  _instantiate_dataclass D args = _instantiate_dataclass D args'.
Proof.
  intros H. unfold _instantiate_dataclass.
  rewrite (for_each_ext _
    (fun acc f => let* v := constructor_arg f args' in
                  Ok (dict_set acc (f_name f) v))); [done|].
  intros acc f Hf. by rewrite (constructor_arg_agree f args args' (H f Hf)).
Qed.

Lemma instantiate_multiple_agree D args args' N :
  agree_on (dc_fields D) args args' ->
  _instantiate_multiple_dataclasses D args N =
  _instantiate_multiple_dataclasses D args' N.
Proof.
  intros H. unfold _instantiate_multiple_dataclasses.
  rewrite (for_each_ext _
    (fun acc f => let* v := getitem args' (f_name f) in
                  Ok (dict_set acc (f_name f) v))); [done|].
  intros acc f Hf. unfold getitem. by rewrite (H f Hf).
Qed.

(** Reconstruction reads the namespace under the names of the fields and
    nowhere else: two namespaces that agree there give the same instance,
    the same instances, or the same exception. *)
Theorem reconstruction_reads_fields_only (D : Dataclass)
    (args args' : gmap string value) :
  agree_on (dc_fields D) args args' ->
  _instantiate_dataclass D args = _instantiate_dataclass D args' /\
  forall N,
    _instantiate_multiple_dataclasses D args N =
    _instantiate_multiple_dataclasses D args' N.
Proof.
  intros H. split.
  - by apply instantiate_dataclass_agree.
  - intros N. by apply instantiate_multiple_agree.
Qed.

Lemma reconstruction_reads_fields_only_witness :
  _instantiate_dataclass Point (<["p" := VInt 7]> xy_namespace) =
  _instantiate_dataclass Point xy_namespace.
Proof.
  apply (reconstruction_reads_fields_only Point).
  intros f Hf. apply lookup_insert_ne.
  repeat (apply elem_of_cons in Hf as [->|Hf]; [done|]).
  by apply elem_of_nil in Hf.
Defined.

Lemma bind_instances_zip ns insts dests i d :
  NoDup dests -> length insts = length dests ->
  dests !! i = Some d ->
  bind_instances ns (zip insts dests) !! d = insts !! i.
Proof.
  unfold bind_instances. revert ns insts i.
  induction dests as [|d0 dests IH]; intros ns insts i Hnd Hlen Hi; [done|].
  destruct insts as [|inst insts]; [done|]. simpl in Hlen.
  inversion Hnd as [|? ? Hd0 Hnd']; subst. simpl.
  destruct i as [|i]; simpl in *.
  - injection Hi as ->.
    change (bind_instances (<[d:=inst]> ns) (zip insts dests) !! d = Some inst).
    rewrite bind_instances_frame; [by rewrite lookup_insert_eq|].
    intros Hin. apply Hd0. apply list_elem_of_fmap in Hin as ([a b] & -> & Hin).
    apply elem_of_zip_r in Hin. exact Hin.
  - apply IH; [done|lia|done].
Qed.

Lemma all_destinations_cons r requests :
  all_destinations (r :: requests) = r.2 ++ all_destinations requests.
Proof. done. Qed.

Lemma bind_dataclass_agree ns ns0 D dests :
  agree_on (dc_fields D) ns ns0 ->
  bind_dataclass ns (D, dests) =
  match dests with
  | [dest] =>
      let* inst := _instantiate_dataclass D ns0 in Ok (<[dest := inst]> ns)
  | _ =>
      let* insts := _instantiate_multiple_dataclasses D ns0 (length dests) in
      Ok (bind_instances ns (zip insts dests))
  end.
Proof.
  intros H. pose proof (instantiate_dataclass_agree D ns ns0 H) as H1.
  pose proof (fun N => instantiate_multiple_agree D ns ns0 N H) as HN.
  unfold bind_dataclass. destruct dests as [|d [|d' dests]].
  - by rewrite HN.
  - by rewrite H1.
  - by rewrite HN.
Qed.

Lemma bind_all_bound requests ns0 ns ns' :
  for_each bind_dataclass requests ns = Ok ns' ->
  NoDup (all_destinations requests) ->
  (forall D dests, (D, dests) ∈ requests -> agree_on (dc_fields D) ns ns0) ->
  fields_apart requests ->
  forall r, r ∈ requests -> bound_to ns0 ns' r.
Proof.
  revert ns. induction requests as [|[D dests] requests IH];
    intros ns Hrun Hnd Hagree Hapart r Hr; [by apply elem_of_nil in Hr|].
  cbn [for_each] in Hrun. apply bind_Ok in Hrun as (ns1 & Hbind & Hrest).
  rewrite all_destinations_cons in Hnd. simpl in Hnd.
  apply NoDup_app in Hnd as (Hnd1 & Hdisj & Hnd2).
  destruct (bind_all_spec requests ns1 ns' Hrest) as (Hframe & _ & _).
  destruct (bind_dataclass_spec ns D dests ns1 Hbind) as (Hframe1 & _ & _).
  apply elem_of_cons in Hr as [->|Hr].
  - rewrite (bind_dataclass_agree ns ns0) in Hbind; [|eapply Hagree; left].
    unfold bound_to. simpl.
    destruct dests as [|d [|d' dests]].
    + apply bind_Ok in Hbind as (insts & Hinsts & _).
      exists insts. split; [done|]. intros i dest Hi. done.
    + apply bind_Ok in Hbind as (inst & Hinst & [= <-]).
      exists inst. split; [done|].
      rewrite Hframe; [by rewrite lookup_insert_eq|].
      apply Hdisj. left.
    + apply bind_Ok in Hbind as (insts & Hinsts & [= <-]).
      exists insts. split; [done|]. intros i dest Hi.
      rewrite Hframe; [|apply Hdisj; by eapply list_elem_of_lookup_2].
      apply bind_instances_zip; [done| |done].
      by destruct (instantiate_multiple_inv _ _ _ _ Hinsts) as [-> _].
  - apply (IH ns1); [done|done| |  |done].
    + intros D' dests' Hin f Hf.
      rewrite Hframe1; [eapply Hagree; [right; exact Hin|exact Hf]|].
      intros Hd. eapply (Hapart D' dests' f); [by right|done|].
      rewrite all_destinations_cons. apply elem_of_app. by left.
    + intros D' dests' f Hin Hf Hd. eapply (Hapart D' dests' f); [by right|done|].
      rewrite all_destinations_cons. apply elem_of_app. by right.
Qed.

(** [parse_args] binds every destination to the reconstruction from the
    namespace the engine returned: when the destinations are distinct and
    none is named like a field of a requested class, a class requested once
    has its instance under its destination, and a class requested at several
    has the [i]-th of its instances under the [i]-th of them. *)
Theorem parse_args_binds_destinations
    (super_parse_args :
       ArgumentParser -> option (list string) -> option (gmap string value) ->
       result (gmap string value))
    (self self' : ArgumentParser) (args : option (list string))
    (namespace : option (gmap string value)) (ns' : gmap string value) :
  parse_args super_parse_args self args namespace = Ok (self', ns') ->
  NoDup (all_destinations (_args_to_add self)) ->
  fields_apart (_args_to_add self) ->
  exists parsed_args,
    super_parse_args self' args namespace = Ok parsed_args /\
    forall request, request ∈ _args_to_add self -> bound_to parsed_args ns' request.
Proof.
  intros Hrun Hnd Hapart. unfold parse_args in Hrun.
  apply bind_Ok in Hrun as (self1 & Hreg & Hrun).
  apply registration_keeps_requests in Hreg; [|auto]. rewrite Hreg in Hrun.
  apply bind_Ok in Hrun as (parsed_args & Hengine & Hrun).
  apply bind_Ok in Hrun as (ns1 & Hbind & [= <- <-]).
  exists parsed_args. split; [exact Hengine|].
  eapply bind_all_bound; [exact Hbind|exact Hnd| |exact Hapart].
  intros D dests _ f _. done.
Qed.

Lemma parse_args_binds_destinations_witness :
  exists self' ns',
    parse_args (fixed_engine two_points_namespace)
      (add_arguments (add_arguments empty_parser Point "p") Point "q")
      None None = Ok (self', ns') /\
    ns' !! "p" = Some (VInstance "Point" [("x", VInt 1); ("y", VInt 3)]) /\
    ns' !! "q" = Some (VInstance "Point" [("x", VInt 2); ("y", VInt 3)]).
Proof.
  destruct (parse_args (fixed_engine two_points_namespace)
      (add_arguments (add_arguments empty_parser Point "p") Point "q")
      None None) as [[self' ns']|e] eqn:Hrun; [|by vm_compute in Hrun].
  exists self', ns'. split; [done|].
  destruct (parse_args_binds_destinations _ _ _ _ _ _ Hrun)
    as (parsed_args & Hengine & Hbound).
  - simpl. repeat constructor; set_solver.
  - intros D dests f HD Hf. simpl in HD.
    apply list_elem_of_singleton in HD as [= -> ->].
    simpl in Hf. simpl. set_solver.
  - injection Hengine as <-.
    destruct (Hbound (Point, ["p"; "q"])) as (insts & Hinsts & Hat); [left|].
    change (_instantiate_multiple_dataclasses Point two_points_namespace 2 =
            Ok insts) in Hinsts.
    unfold two_points_namespace in Hinsts.
    rewrite point_scenario in Hinsts. injection Hinsts as <-.
    split; [apply (Hat 0 "p")|apply (Hat 1 "q")]; done.
Defined.

(** ** Failures of reconstruction *)

Lemma dict_keys_set d k v x :
  x ∈ dict_keys (dict_set d k v) <-> x = k \/ x ∈ dict_keys d.
Proof.
  induction d as [|[k' v'] d IH]; simpl.
  - rewrite list_elem_of_singleton. set_solver.
  - destruct (String.eqb_spec k' k) as [->|Hne]; simpl.
    + set_solver.
    + rewrite !elem_of_cons, IH. naive_solver.
Qed.

Lemma collect_keys {A} (key : A -> string) (g : A -> result value) xs acc d :
  for_each (collect_step key g) xs acc = Ok d ->
  forall k, k ∈ dict_keys d <-> k ∈ dict_keys acc \/ k ∈ map key xs.
Proof.
  revert acc. induction xs as [|x xs IH]; intros acc H k.
  - injection H as <-. simpl. set_solver.
  - cbn [for_each] in H. apply bind_Ok in H as (acc' & Hstep & Hrest).
    unfold collect_step in Hstep. apply bind_Ok in Hstep as (v & _ & [= <-]).
    rewrite (IH _ Hrest), dict_keys_set. simpl. set_solver.
Qed.

Lemma find_is_Some {A} (p : A -> bool) (l : list A) x :
  x ∈ l -> p x = true -> is_Some (find p l).
Proof.
  induction l as [|y l IH]; intros Hin Hp; [by apply elem_of_nil in Hin|].
  simpl. destruct (p y) eqn:Hy; [by eexists|].
  apply elem_of_cons in Hin as [->|Hin]; [congruence|by apply IH].
Qed.

(** With distinct names a field is known by its name. *)
Lemma field_of_name (fs : list DataclassField) f g :
  NoDup (map f_name fs) -> f ∈ fs -> g ∈ fs -> f_name g = f_name f -> g = f.
Proof.
  intros Hnd Hf Hg Hname.
  apply list_elem_of_lookup in Hg as [i Hi], Hf as [j Hj].
  assert (i = j) as ->; [|congruence].
  eapply NoDup_lookup; [exact Hnd| |].
  - by rewrite list_lookup_fmap, Hi.
  - rewrite list_lookup_fmap, Hj. simpl. by rewrite Hname.
Qed.

Lemma is_init_field_false D f :
  NoDup (map f_name (dc_fields D)) ->
  f ∈ dc_fields D -> f_init f = false ->
  is_init_field D (f_name f) = false.
Proof.
  intros Hnd Hf Hinit. unfold is_init_field.
  apply not_true_is_false. intros (g & Hg & Hgn)%existsb_exists.
  apply andb_true_iff in Hgn as [Hname%String.eqb_eq Hginit].
  apply list_elem_of_In in Hg.
  assert (g = f) as ->; [|congruence].
  by eapply field_of_name.
Qed.

Lemma dataclass_call_unexpected D kwargs k :
  k ∈ dict_keys kwargs -> is_init_field D k = false ->
  dataclass_call D kwargs = Raise (TypeError "unexpected keyword argument").
Proof.
  intros Hk Hinit. unfold dataclass_call.
  apply list_elem_of_fmap in Hk as ([k' v] & -> & Hin).
  destruct (find_is_Some (fun kv : string * value => negb (is_init_field D kv.1))
              kwargs (k', v) Hin) as [kv ->]; [|done].
  simpl in *. by rewrite Hinit.
Qed.

(** A field that is not a parameter of the generated [__init__]
    ([init=False]) makes reconstruction impossible: both functions pass a
    keyword for every field of the dataclass, so that no instance is ever
    returned, and the call of the dataclass raises [TypeError] as soon as
    every parsed value has been collected. *)
Theorem non_init_field_blocks_reconstruction (D : Dataclass)
    (f : DataclassField) (args : gmap string value) :
  NoDup (map f_name (dc_fields D)) ->
  f ∈ dc_fields D ->
  f_init f = false ->
  is_ok (_instantiate_dataclass D args) = false /\
  (inspectable D -> Forall (reconstructs args) (dc_fields D) ->
   _instantiate_dataclass D args =
     Raise (TypeError "unexpected keyword argument")) /\
  (forall N, 0 < N ->
     is_ok (_instantiate_multiple_dataclasses D args N) = false).
Proof.
  intros Hnd Hf Hinit.
  pose proof (is_init_field_false D f Hnd Hf Hinit) as Hk.
  assert (Hsingle : forall kwargs,
    for_each (collect_step f_name (fun f => constructor_arg f args))
      (dc_fields D) [] = Ok kwargs ->
    dataclass_call D kwargs = Raise (TypeError "unexpected keyword argument")).
  { intros kwargs Hloop. apply (dataclass_call_unexpected D kwargs (f_name f)); [|done].
    apply (collect_keys _ _ _ _ _ Hloop). right. by apply list_elem_of_fmap_2. }
  split; [|split].
  - unfold _instantiate_dataclass.
    change (is_ok (let* kwargs :=
                     for_each (collect_step f_name (fun f => constructor_arg f args))
                       (dc_fields D) [] in dataclass_call D kwargs) = false).
    destruct (for_each _ _ _) as [kwargs|e] eqn:Hloop; [|done].
    simpl. by rewrite (Hsingle kwargs).
  - intros _ Hall. unfold _instantiate_dataclass.
    change ((let* kwargs :=
               for_each (collect_step f_name (fun f => constructor_arg f args))
                 (dc_fields D) [] in dataclass_call D kwargs) =
            Raise (TypeError "unexpected keyword argument")).
    destruct (for_each _ _ _) as [kwargs|e] eqn:Hloop.
    + simpl. by apply Hsingle.
    + exfalso. destruct (entries_exist f_name _ _ Hall) as [kvs Hent].
      rewrite (collect_ok f_name _ _ kvs [] Hent Hnd) in Hloop; [done|].
      intros ? _. apply not_elem_of_nil.
  - intros N HN. apply not_true_is_false. intros (insts & Hrun)%is_ok_true.
    unfold _instantiate_multiple_dataclasses in Hrun.
    apply bind_Ok in Hrun as (kvs & Hkvs & Hrun).
    apply bind_Ok in Hrun as (per_instance & Hper & Hcalls).
    change (for_each (collect_step f_name (fun f => getitem args (f_name f)))
              (dc_fields D) [] = Ok kvs) in Hkvs.
    change (for_each (append_step (instance_arguments N kvs)) (seq 0 N) [] =
            Ok per_instance) in Hper.
    change (for_each (append_step (dataclass_call D)) per_instance [] = Ok insts)
      in Hcalls.
    apply append_inv in Hper as (per & -> & Hper).
    apply append_inv in Hcalls as (built & _ & Hcalls). simpl in Hcalls.
    destruct N as [|N]; [lia|]. simpl in Hper.
    inversion Hper as [|? kws0 ? ? Hkws0 _]; subst.
    inversion Hcalls as [|? inst0 ? ? Hinst0 _]; subst.
    rewrite (dataclass_call_unexpected D kws0 (f_name f)) in Hinst0; [done| |done].
    unfold instance_arguments in Hkws0.
    change (for_each (collect_step fst
              (fun kv => instance_argument (S N) 0 kv.1 kv.2)) kvs [] = Ok kws0)
      in Hkws0.
    apply (collect_keys _ _ _ _ _ Hkws0). right.
    change (map fst kvs) with (dict_keys kvs).
    apply (collect_keys _ _ _ _ _ Hkvs). right. by apply list_elem_of_fmap_2.
Qed.

Lemma non_init_field_blocks_reconstruction_witness :
  _instantiate_dataclass Cache {[ "seed" := VInt 1; "hits" := VInt 0 ]} =
    Raise (TypeError "unexpected keyword argument").
Proof.
  apply (non_init_field_blocks_reconstruction Cache hits_field).
  - apply (bool_decide_unpack _). vm_compute. exact I.
  - right. left.
  - reflexivity.
  - repeat constructor.
  - repeat constructor.
Defined.

Lemma instantiate_dataclass_reconstructs D args inst :
  _instantiate_dataclass D args = Ok inst ->
  Forall (reconstructs args) (dc_fields D).
Proof.
  unfold _instantiate_dataclass. intros (kwargs & Hloop & _)%bind_Ok.
  exact (collect_inv f_name (fun f => constructor_arg f args) _ _ _ Hloop).
Qed.

(** Single-instance reconstruction succeeds exactly when every field
    reconstructs, and otherwise raises the exception of the first field, in
    declaration order, that does not: a [KeyError] naming the field when the
    namespace has no entry for it, the [KeyError] of the lookup when the
    parsed value of an enumeration field is not the name of a member, the
    [TypeError] of the conversion when the parsed value of a list or tuple
    field cannot be iterated. *)
Theorem reconstruction_stops_at_first_failure (D : Dataclass)
    (args : gmap string value) :
  plain_dataclass D ->
  inspectable D ->
  (is_ok (_instantiate_dataclass D args) = true <->
   Forall (reconstructs args) (dc_fields D)) /\
  (forall pre f post,
     dc_fields D = pre ++ f :: post ->
     Forall (reconstructs args) pre ->
     (forall e, constructor_arg f args = Raise e ->
        _instantiate_dataclass D args = Raise e) /\
     (args !! f_name f = None ->
        _instantiate_dataclass D args = Raise (KeyError (VStr (f_name f)))) /\
     (forall E n, f_type f = TEnum E -> args !! f_name f = Some (VStr n) ->
        n ∉ dict_keys (_member_map_ E) ->
        _instantiate_dataclass D args = Raise (KeyError (VStr n))) /\
     (forall v, is_tuple_or_list (f_type f) = true ->
        args !! f_name f = Some v ->
        isinstance_list_or_tuple v = false -> (forall s, v <> VStr s) ->
        (forall kvs, v <> VDict kvs) ->
        _instantiate_dataclass D args =
          Raise (TypeError "object is not iterable"))).
Proof.
  intros HD Hmros. split.
  - split.
    + intros (inst & H)%is_ok_true. by eapply instantiate_dataclass_reconstructs.
    + intros H. destruct (instantiate_dataclass_ok D args HD H) as (kw & -> & _).
      done.
  - intros pre f post Hfs Hpre.
    assert (Hmro : has_mro (f_type f) = true).
    { unfold inspectable in Hmros. rewrite Hfs in Hmros.
      apply Forall_app in Hmros as [_ Hmros]. by inversion Hmros. }
    assert (Hraise : forall e, constructor_arg f args = Raise e ->
                               _instantiate_dataclass D args = Raise e).
    { intros e He. by eapply instantiate_dataclass_raise. }
    split; [exact Hraise|]. split; [|split].
    + intros Hnone. apply Hraise. unfold constructor_arg, Enum_in_mro, getitem.
      rewrite Hmro, Hnone. by destruct (f_type f).
    + intros E n Hty Hv Hname. apply Hraise. unfold constructor_arg, getitem.
      rewrite Hty, Hv. simpl. unfold enum_getitem.
      by rewrite (proj2 (dict_get_None _ _) Hname).
    + intros v Hseq Hv Hnot Hstr Hdict. apply Hraise.
      unfold constructor_arg, Enum_in_mro, getitem. rewrite Hmro, Hv.
      unfold is_tuple_or_list in Hseq.
      destruct (f_type f); try done; simpl;
        destruct v; try done; simpl; exfalso; naive_solver.
Qed.

Lemma reconstruction_stops_at_first_failure_witness :
  _instantiate_dataclass Point {[ "x" := VInt 1 ]} = Raise (KeyError (VStr "y")).
Proof.
  destruct (reconstruction_stops_at_first_failure Point {[ "x" := VInt 1 ]}
              Point_plain) as [_ Hfail].
  - repeat constructor.
  - destruct (Hfail [x_field] y_field [] eq_refl) as (_ & Hmissing & _).
    + repeat constructor.
    + apply Hmissing. reflexivity.
Defined.

Lemma find_ext {A} (p q : A -> bool) (l : list A) :
  (forall x, p x = q x) -> find p l = find q l.
Proof.
  intros H. induction l as [|x l IH]; simpl; [done|]. by rewrite H, IH.
Qed.

(** Multi-instance reconstruction applies none of the conversions of the
    single-instance one: it never looks at the declared type of a field, so
    that an enumeration field receives the parsed name and not the member,
    and a tuple field the parsed list. *)
Theorem multiple_ignores_declared_types (D D' : Dataclass)
    (args : gmap string value) (N : nat) :
  same_signature D D' ->
  _instantiate_multiple_dataclasses D args N =
  _instantiate_multiple_dataclasses D' args N.
Proof.
  intros [Hq Hfs]. unfold _instantiate_multiple_dataclasses.
  assert (Hloop : forall acc,
    for_each (fun acc (f : DataclassField) =>
                let* v := getitem args (f_name f) in
                Ok (dict_set acc (f_name f) v)) (dc_fields D) acc =
    for_each (fun acc (f : DataclassField) =>
                let* v := getitem args (f_name f) in
                Ok (dict_set acc (f_name f) v)) (dc_fields D') acc).
  { induction Hfs as [|f f' fs fs' (Hn & _ & _) _ IH]; intros acc; [done|].
    simpl. rewrite Hn. destruct (getitem args (f_name f')); simpl; [|done].
    apply IH. }
  rewrite Hloop. clear Hloop.
  assert (Hcall : forall kwargs, dataclass_call D kwargs = dataclass_call D' kwargs).
  { intros kwargs. unfold dataclass_call.
    assert (Hinit : forall k, is_init_field D k = is_init_field D' k).
    { intros k. unfold is_init_field.
      induction Hfs as [|f f' fs fs' (Hn & Hi & _) _ IH]; [done|].
      simpl. by rewrite Hn, Hi, IH. }
    rewrite (find_ext (fun kv => negb (is_init_field D kv.1))
               (fun kv => negb (is_init_field D' kv.1)) kwargs).
    2:{ intros kv. by rewrite Hinit. }
    destruct (find _ kwargs); [done|]. rewrite Hq.
    assert (Hattrs : forall acc,
      for_each (bind_field kwargs) (dc_fields D) acc =
      for_each (bind_field kwargs) (dc_fields D') acc).
    { induction Hfs as [|f f' fs fs' (Hn & Hi & Hd) _ IH]; intros acc; [done|].
      simpl. unfold bind_field at 1 3. rewrite Hn, Hi, Hd.
      destruct (match (if f_init f' then dict_get kwargs (f_name f') else None) with
                | Some v => Ok (dict_set acc (f_name f') v)
                | None => _ end); simpl; [apply IH|done]. }
    by rewrite Hattrs. }
  destruct (for_each _ (dc_fields D') []) as [kvs|e]; simpl; [|done].
  destruct (for_each _ (seq 0 N) []) as [per|e]; simpl; [|done].
  apply for_each_ext. intros acc kw _. by rewrite Hcall.
Qed.

Lemma multiple_ignores_declared_types_witness :
  _instantiate_multiple_dataclasses Logger two_loggers_namespace 2 =
    Ok [VInstance "Logger" [("seed", VInt 1); ("logging", VStr "JSONL")];
        VInstance "Logger" [("seed", VInt 1); ("logging", VStr "PRINT")]].
Proof.
  rewrite (multiple_ignores_declared_types Logger RawLogger).
  - reflexivity.
  - split; [reflexivity|]. repeat constructor.
Defined.

(** ** From the command line to the fields *)

Lemma entries_unique {A} (key : A -> string) (g g' : A -> result value) xs kvs kvs' :
  Forall2 (entry_of key g) xs kvs ->
  Forall2 (entry_of key g') xs kvs' ->
  (forall x, x ∈ xs -> g x = g' x) ->
  kvs = kvs'.
Proof.
  intros H. revert kvs'.
  induction H as [|x [k v] xs kvs [Hk Hv] _ IH]; intros kvs' H' Hg.
  - by inversion H'.
  - inversion H' as [|? [k' v'] ? kvs'' [Hk' Hv'] Hrest]; subst. simpl in *.
    rewrite (Hg x) in Hv by left. f_equal; [congruence|].
    apply IH; [done|]. intros y Hy. apply Hg. by right.
Qed.

Lemma dataclass_call_defaults D :
  plain_dataclass D ->
  Forall (fun f => is_Some (field_fallback f)) (dc_fields D) ->
  exists attrs,
    dataclass_call D [] = Ok (VInstance (qualname D) attrs) /\
    Forall2 (entry_of f_name
               (fun f => match field_fallback f with
                         | Some d => Ok d
                         | None => Raise (TypeError "missing required argument")
                         end)) (dc_fields D) attrs.
Proof.
  intros [Hnd Hinit] Hall.
  set (g := fun f : DataclassField =>
              match field_fallback f with
              | Some d => Ok d
              | None => Raise (TypeError "missing required argument")
              end).
  destruct (entries_exist f_name g (dc_fields D)) as [attrs Hent].
  { eapply Forall_impl; [exact Hall|]. intros f [d Hd]. unfold g. by rewrite Hd. }
  exists attrs. split; [|exact Hent].
  unfold dataclass_call. simpl.
  rewrite (for_each_ext _ (collect_step f_name g)).
  - rewrite (collect_ok f_name g _ attrs); [done|exact Hent|exact Hnd|].
    intros ? _. apply not_elem_of_nil.
  - intros acc f Hf. unfold bind_field, collect_step, g.
    rewrite Forall_forall in Hall. destruct (Hall f Hf) as [d Hd].
    rewrite Hd. by destruct (f_init f).
Qed.

Lemma member_is_Enum E d :
  enum_wf E -> d ∈ enum_iter E -> isinstance_Enum d = true.
Proof.
  intros Hwf Hm. unfold enum_iter in Hm.
  apply list_elem_of_omap in Hm as (n & Hn & Hget).
  destruct (Hwf n Hn) as [w Hw].
  by assert (d = VEnum (enum_qualname E) n w) as -> by congruence.
Qed.

(** What the engine stores for a field that is not supplied and whose
    default fits its type. *)
Lemma unsupplied_stored convert f d :
  (forall s, convert (conv_type TStr) s = Ok (VStr s)) ->
  field_fallback f = Some d ->
  default_fits f d ->
  stored convert false f NotSupplied =
    Ok (match f_type f with TEnum _ => VStr (enum_name d) | _ => d end).
Proof.
  intros Hstr Hd Hfits.
  destruct (base_arg_options f) as (Hbd & Hbr & Hbn & Hbt & Hbc).
  rewrite Hd in Hbd, Hbr.
  unfold default_fits in Hfits.
  unfold stored, store_value, field_arg_options, Enum_in_mro.
  destruct (f_type f) as [| | | |E|T|T|T|Ts|D'] eqn:Hty; simpl in *.
  - destruct Hfits as (Hdef & b & ->). rewrite Hdef. simpl. by rewrite Hbr.
  - rewrite Hbr, Hbd. destruct d; try done. by destruct (Hfits s).
  - rewrite Hbr, Hbd. destruct d; try done. by destruct (Hfits s).
  - rewrite Hbr, Hbd. destruct d; try done.
    unfold convert_value. by rewrite Hbt, Hstr.
  - destruct Hfits as [Hwf Hm]. rewrite Hbd.
    rewrite (member_is_Enum E d Hwf Hm). simpl. rewrite Hbr.
    unfold convert_value. simpl. by rewrite Hstr.
  - destruct Hfits as [l ->]. simpl. by rewrite Hbr, Hbd.
  - destruct Hfits as [l ->]. simpl. by rewrite Hbr, Hbd.
  - done.
  - done.
  - rewrite Hbr, Hbd. destruct d; try done. by destruct (Hfits s).
Qed.

Lemma unsupplied_reconstructs convert f d v args :
  (forall s, convert (conv_type TStr) s = Ok (VStr s)) ->
  field_fallback f = Some d ->
  default_fits f d ->
  stored convert false f NotSupplied = Ok v ->
  args !! f_name f = Some v ->
  constructor_arg f args = Ok d.
Proof.
  intros Hstr Hd Hfits Hstore Hargs.
  rewrite (unsupplied_stored convert f d Hstr Hd Hfits) in Hstore.
  injection Hstore as <-.
  unfold default_fits in Hfits.
  unfold constructor_arg, Enum_in_mro, getitem. rewrite Hargs.
  destruct (f_type f) as [| | | |E|T|T|T|Ts|D'] eqn:Hty; simpl in *; try done.
  - by destruct Hfits as (_ & b & ->).
  - destruct Hfits as [Hwf Hm]. by apply enum_getitem_member.
  - by destruct Hfits as [l ->].
  - by destruct Hfits as [l ->].
Qed.

(** Parsing an empty command line gives back the defaults.  When every field
    has a default (or a factory; a boolean field a default) that is a value
    of its declared type, a class and no [Optional] or [Union], the
    engine accepts the absence of every option, and the instance
    reconstructed from the namespace it then leaves is the instance the
    dataclass builds when called without arguments: each field holds its
    default (an enumeration default goes out as its name and comes back as
    the member). *)
Theorem defaults_round_trip (convert : converter -> string -> result value)
    (D : Dataclass) (args : gmap string value) :
  plain_dataclass D ->
  (forall s, convert (conv_type TStr) s = Ok (VStr s)) ->
  (forall f, f ∈ dc_fields D ->
     exists d, field_fallback f = Some d /\ default_fits f d) ->
  (forall f, f ∈ dc_fields D ->
     is_ok (stored convert false f NotSupplied) = true) /\
  (nothing_supplied convert (dc_fields D) args ->
   exists inst,
     _instantiate_dataclass D args = Ok inst /\
     dataclass_call D [] = Ok inst /\
     forall f d, f ∈ dc_fields D -> field_fallback f = Some d ->
       getattr inst (f_name f) = Ok d).
Proof.
  intros HD Hstr Hfits. split.
  - intros f Hf. destruct (Hfits f Hf) as (d & Hd & Hfit).
    by rewrite (unsupplied_stored convert f d Hstr Hd Hfit).
  - intros Hargs.
    assert (Hrec : forall f, f ∈ dc_fields D ->
              constructor_arg f args =
              match field_fallback f with
              | Some d => Ok d
              | None => Raise (TypeError "missing required argument")
              end).
    { intros f Hf. destruct (Hfits f Hf) as (d & Hd & Hfit).
      destruct (Hargs f Hf) as (v & Hstore & Hv). rewrite Hd.
      by eapply unsupplied_reconstructs. }
    destruct (dataclass_call_defaults D HD) as (attrs & Hcall & Hattrs).
    { apply Forall_forall. intros f Hf. destruct (Hfits f Hf) as (d & -> & _).
      by eexists. }
    destruct (instantiate_dataclass_ok D args HD) as (kwargs & Hinst & Hkw).
    { apply Forall_forall. intros f Hf. unfold reconstructs.
      rewrite (Hrec f Hf). by destruct (Hfits f Hf) as (d & -> & _). }
    assert (kwargs = attrs) as -> by (eapply entries_unique; eauto).
    exists (VInstance (qualname D) attrs). split; [done|]. split; [done|].
    intros f d Hf Hd. simpl.
    erewrite (entries_get f_name _ _ attrs f d Hattrs (proj1 HD) Hf); [done|].
    by rewrite Hd.
Qed.

Lemma defaults_round_trip_witness :
  _instantiate_dataclass Logger default_logger_namespace =
    Ok (VInstance "Logger"
          [("seed", VInt 13);
           ("logging", VEnum "LoggingTypes" "PRINT" (VStr "print"))]) /\
  dataclass_call Logger [] = _instantiate_dataclass Logger default_logger_namespace.
Proof.
  destruct (defaults_round_trip keep_token Logger default_logger_namespace
              Logger_plain) as [_ Hback].
  - reflexivity.
  - intros f Hf.
    apply elem_of_cons in Hf as [->|Hf];
      [|apply list_elem_of_singleton in Hf as ->].
    + exists (VInt 13). split; [reflexivity|]. intros s. discriminate.
    + exists (VEnum "LoggingTypes" "PRINT" (VStr "print")).
      split; [reflexivity|]. split; [exact LoggingTypes_wf|]. right. left.
  - destruct Hback as (inst & Hinst & Hcall & _).
    + intros f Hf.
      apply elem_of_cons in Hf as [->|Hf];
        [|apply list_elem_of_singleton in Hf as ->].
      * exists (VInt 13). split; reflexivity.
      * exists (VStr "PRINT"). split; reflexivity.
    + split; [reflexivity|]. by rewrite Hinst, Hcall.
Defined.

Lemma sequence_arg_options multiple f A :
  sequence_of (f_type f) A ->
  exists o,
    field_arg_options multiple f = Ok o /\
    opt_nargs o = Some "*" /\
    opt_choices o = None /\
    opt_type o =
      (if multiple then conv_parse_multiple_containers (f_type f)
       else conv_type A).
Proof.
  intros Hseq.
  destruct (base_arg_options f) as (Hbd & Hbr & Hbn & Hbt & Hbc).
  unfold field_arg_options, Enum_in_mro.
  destruct Hseq as [Hty|Hty]; rewrite Hty in *; simpl;
    destruct multiple; simpl; (eexists; split; [reflexivity|]); simpl;
    by rewrite ?Hbc.
Qed.

Lemma get_values_ok convert o tokens vs :
  opt_choices o = None ->
  Forall2 (fun t v => convert (opt_type o) t = Ok v) tokens vs ->
  get_values convert o tokens = Ok vs.
Proof.
  intros Hc H. unfold get_values.
  apply (append_ok (get_value convert o) tokens vs []).
  eapply Forall2_impl; [exact H|]. intros t v Hv.
  unfold get_value, convert_value, check_value.
  by rewrite Hv, Hc.
Qed.

Lemma get_values_error convert o tokens :
  Exists (fun t => is_ok (convert (opt_type o) t) = false) tokens ->
  get_values convert o tokens = Raise (SystemExit 2).
Proof.
  unfold get_values.
  assert (Hloop : forall acc,
    Exists (fun t => is_ok (convert (opt_type o) t) = false) tokens ->
    for_each (fun acc t => let* v := get_value convert o t in Ok (acc ++ [v]))
      tokens acc = Raise (SystemExit 2)); [|by apply Hloop].
  induction tokens as [|t tokens IH]; intros acc H; [by inversion H|].
  simpl. unfold get_value at 1, convert_value, check_value.
  destruct (convert (opt_type o) t) as [v|e] eqn:Hv; [|done].
  inversion H as [? ? Ht|? ? Hrest]; subst; [by rewrite Hv in Ht|].
  cbn [bind].
  destruct (opt_choices o) as [cs|]; simpl.
  - destruct v; try done. case_bool_decide; simpl; [by apply IH|done].
  - by apply IH.
Qed.

(** A list or tuple field and its tokens.  Declared for one destination,
    the option takes any number of tokens, each converted with the item
    type; the engine stores the converted items as a list, in command-line
    order, and reconstruction hands them to the field as a tuple or a list
    according to its annotation.  A token the item type refuses ends the
    parse with the engine's error.  Declared for several destinations, each
    token is parsed into one container, and with as many tokens as
    destinations the [i]-th instance receives the [i]-th container. *)
Theorem sequence_field_round_trip (convert : converter -> string -> result value)
    (f : DataclassField) (A : ftype) (tokens : list string) :
  sequence_of (f_type f) A ->
  (forall vs,
     Forall2 (fun t v => convert (conv_type A) t = Ok v) tokens vs ->
     stored convert false f (Supplied tokens) = Ok (VList vs) /\
     forall args, args !! f_name f = Some (VList vs) ->
       constructor_arg f args =
         Ok (if is_tuple (f_type f) then VTuple vs else VList vs)) /\
  (Exists (fun t => is_ok (convert (conv_type A) t) = false) tokens ->
   stored convert false f (Supplied tokens) = Raise (SystemExit 2)) /\
  (forall containers,
     Forall2 (fun t c =>
                convert (conv_parse_multiple_containers (f_type f)) t = Ok c)
       tokens containers ->
     stored convert true f (Supplied tokens) = Ok (VList containers) /\
     forall i c, 1 < length tokens -> containers !! i = Some c ->
       instance_argument (length tokens) i (f_name f) (VList containers) = Ok c).
Proof.
  intros Hseq.
  destruct (sequence_arg_options false f A Hseq) as (o & Ho & Hn & Hc & Ht).
  destruct (sequence_arg_options true f A Hseq) as (o' & Ho' & Hn' & Hc' & Ht').
  rewrite !(stored_spec _ _ _ _ _ Ho), !(stored_spec _ _ _ _ _ Ho').
  split; [|split].
  - intros vs Hvs. split.
    + unfold store_value. rewrite Hn. simpl.
      rewrite (get_values_ok convert _ tokens vs); [done|done|by rewrite Ht].
    + intros args Hargs. unfold constructor_arg, Enum_in_mro, getitem.
      rewrite Hargs. destruct Hseq as [-> | ->]; done.
  - intros Hbad. unfold store_value. rewrite Hn. simpl.
    rewrite get_values_error; [done|by rewrite Ht].
  - intros containers Hcs. split.
    + unfold store_value. rewrite Hn'. simpl.
      rewrite (get_values_ok convert _ tokens containers); [done|done|by rewrite Ht'].
    + intros i c Hlen Hi. rewrite instance_argument_list.
      pose proof (Forall2_length _ _ _ Hcs) as Hl.
      destruct containers as [|c0 [|c1 containers]]; simpl in Hl; try lia.
      rewrite Hl. cbn [length]. rewrite Nat.eqb_refl. by rewrite Hi.
Qed.

Lemma sequence_field_round_trip_witness :
  stored digit_token false ids_field (Supplied ["1"; "2"]) =
    Ok (VList [VInt 1; VInt 2]) /\
  constructor_arg ids_field {[ "ids" := VList [VInt 1; VInt 2] ]} =
    Ok (VTuple [VInt 1; VInt 2]).
Proof.
  destruct (sequence_field_round_trip digit_token ids_field TInt ["1"; "2"])
    as (Hback & _ & _); [by right|].
  destruct (Hback [VInt 1; VInt 2]) as [Hstore Hrec]; [by repeat constructor|].
  split; [exact Hstore|]. by apply Hrec.
Defined.

(** Tokens under several destinations.  A field that is neither an
    enumeration nor a list or tuple, declared for a class requested at
    several destinations, takes one or more tokens when it is required
    (zero or more when it has a default, or is a boolean); the engine
    stores the converted tokens as a list, and reconstruction gives the
    [i]-th instance the [i]-th of them when there are as many as instances,
    every instance the only one when there is one, and raises
    [InconsistentArgumentError] for any other number.  An option supplied
    without tokens, where that is allowed, leaves the empty list, which
    every instance then receives as it is. *)
Theorem tokens_under_multiple (convert : converter -> string -> result value)
    (f : DataclassField) (tokens : list string) (vs : list value) :
  has_mro (f_type f) = true ->
  is_enum (f_type f) = false ->
  is_tuple_or_list (f_type f) = false ->
  Forall2 (fun t v =>
             convert (if is_bool (f_type f) then conv_str2bool
                      else conv_type (f_type f)) t = Ok v)
    tokens vs ->
  declared opt_type true f =
    Ok (if is_bool (f_type f) then conv_str2bool else conv_type (f_type f)) /\
  (declared opt_nargs true f = Ok (Some "+") <->
   is_bool (f_type f) = false /\ field_fallback f = None) /\
  (tokens <> [] \/ declared opt_nargs true f <> Ok (Some "+") ->
   stored convert true f (Supplied tokens) = Ok (VList vs)) /\
  (tokens = [] -> declared opt_nargs true f = Ok (Some "+") ->
   stored convert true f (Supplied tokens) = Raise (SystemExit 2)) /\
  (forall N i,
     (vs = [] -> instance_argument N i (f_name f) (VList vs) = Ok (VList [])) /\
     (forall v, vs = [v] -> instance_argument N i (f_name f) (VList vs) = Ok v) /\
     (forall v, length vs = N -> 1 < N -> vs !! i = Some v ->
        instance_argument N i (f_name f) (VList vs) = Ok v) /\
     (length vs <> 0 -> length vs <> 1 -> length vs <> N ->
        instance_argument N i (f_name f) (VList vs) =
          Raise (InconsistentArgumentError (f_name f) (length vs) N))).
Proof.
  intros Hmro He Hs Hvs.
  destruct (plain_arg_options_multiple f Hmro He Hs) as (o & Ho & Hc & Ht & Hn & _).
  rewrite (declared_spec opt_type _ _ _ Ho), (declared_spec opt_nargs _ _ _ Ho).
  rewrite !(stored_spec _ _ _ _ _ Ho). rewrite <- Ht in Hvs.
  assert (Hplus : opt_nargs o = Some "+" <->
                  is_bool (f_type f) = false /\ field_fallback f = None).
  { rewrite Hn. destruct (is_bool (f_type f)), (field_fallback f); simpl;
      split; try done; by intros [? ?]. }
  split; [by rewrite Ht|].
  split; [split; [intros [= H]; by apply Hplus|intros H; f_equal; by apply Hplus]|].
  split; [|split].
  - intros Hok. unfold store_value.
    destruct (decide (opt_nargs o = Some "+")) as [Hp|Hp].
    + rewrite Hp. simpl.
      destruct tokens as [|t tokens]; [destruct Hok as [?|Hok]; [done|]|].
      * exfalso. apply Hok. by rewrite Hp.
      * by rewrite (get_values_ok convert _ _ vs Hc Hvs).
    + rewrite Hn in Hp |- *.
      destruct (negb (is_bool (f_type f)) &&
                match field_fallback f with None => true | Some _ => false end);
        [done|]. simpl.
      by rewrite (get_values_ok convert _ _ vs Hc Hvs).
  - intros -> [= Hp]. unfold store_value. by rewrite Hp.
  - intros N i. rewrite instance_argument_list. repeat split.
    + by intros ->.
    + by intros v ->.
    + intros v Hlen HN Hi. subst N.
      destruct vs as [|v0 [|v1 vs']]; simpl in HN; try lia.
      cbn [length]. rewrite Nat.eqb_refl. by rewrite Hi.
    + intros H0 H1 HN. destruct vs as [|v0 [|v1 vs']]; try done.
      by rewrite (proj2 (Nat.eqb_neq _ _) HN).
Qed.

Lemma tokens_under_multiple_witness :
  stored digit_token true rate_field (Supplied ["1"; "2"]) =
    Ok (VList [VInt 1; VInt 2]) /\
  instance_argument 2 1 "rate" (VList [VInt 1; VInt 2]) = Ok (VInt 2).
Proof.
  destruct (tokens_under_multiple digit_token rate_field ["1"; "2"]
              [VInt 1; VInt 2]) as (_ & _ & Hstore & _ & Hinst);
    try reflexivity.
  - by repeat constructor.
  - split; [apply Hstore; by left|].
    destruct (Hinst 2 1) as (_ & _ & Hpos & _). apply Hpos; [done|lia|done].
Defined.

(** ** The wrapper tree: [required], [descendants], [dest], [destinations] *)

Lemma descendants_unfold w :
  DataclassWrapper.descendants w =
  concat (map (fun c => c :: DataclassWrapper.descendants c)
            (DataclassWrapper._children w)).
Proof.
  destruct w as [D n fn d p fld fs opt dests req children defaults]. simpl.
  induction children as [|c cs IH]; simpl; [done|]. by rewrite IH.
Qed.

Lemma set_required_unfold value w :
  DataclassWrapper.set_required value w =
  DataclassWrapper.mk (DataclassWrapper.dataclass w) (DataclassWrapper._name w)
    (DataclassWrapper.dataclass_fn w) (DataclassWrapper._default w)
    (DataclassWrapper.prefix w) (DataclassWrapper._field w)
    (map (fun f => FieldWrapper.set_required f value) (DataclassWrapper.fields w))
    (DataclassWrapper.optional w) (DataclassWrapper._destinations w) value
    (map (DataclassWrapper.set_required value) (DataclassWrapper._children w))
    (DataclassWrapper._defaults w).
Proof. by destruct w. Qed.

Lemma descendants_set_required value w :
  DataclassWrapper.descendants (DataclassWrapper.set_required value w) =
  map (DataclassWrapper.set_required value) (DataclassWrapper.descendants w).
Proof.
  induction w as [D n fn d p fld fs opt dests req children defaults IH]
    using wrapper_ind.
  rewrite !descendants_unfold, set_required_unfold. simpl.
  induction IH as [|c cs Hc _ IHcs]; simpl; [done|].
  rewrite map_app, Hc. f_equal. f_equal. exact IHcs.
Qed.

Lemma set_required_twice value value' w :
  DataclassWrapper.set_required value (DataclassWrapper.set_required value' w) =
  DataclassWrapper.set_required value w.
Proof.
  induction w as [D n fn d p fld fs opt dests req children defaults IH]
    using wrapper_ind.
  simpl. f_equal.
  - rewrite map_map. apply map_ext. by intros [].
  - rewrite map_map. apply map_ext_in. intros c Hc.
    rewrite Forall_forall in IH. apply IH. by apply list_elem_of_In.
Qed.

(** The [required] setter reaches the whole subtree: after
    [w.required = value] the wrapper, each of its descendants and every
    field wrapper of theirs hold [value]; the tree keeps its shape, its
    names, destinations and defaults; and a later assignment overrides an
    earlier one everywhere. *)
Theorem required_setter_reaches_descendants (value : bool)
    (w : DataclassWrapper.t) :
  DataclassWrapper.required (DataclassWrapper.set_required value w) = value /\
  fields_required value (DataclassWrapper.set_required value w) /\
  DataclassWrapper.descendants (DataclassWrapper.set_required value w) =
    map (DataclassWrapper.set_required value) (DataclassWrapper.descendants w) /\
  Forall (fun d => DataclassWrapper.required d = value /\ fields_required value d)
    (DataclassWrapper.descendants (DataclassWrapper.set_required value w)) /\
  Forall2 (fun d d' =>
             DataclassWrapper._name d' = DataclassWrapper._name d /\
             DataclassWrapper._destinations d' = DataclassWrapper._destinations d /\
             DataclassWrapper._defaults d' = DataclassWrapper._defaults d /\
             DataclassWrapper.optional d' = DataclassWrapper.optional d /\
             map FieldWrapper.name (DataclassWrapper.fields d') =
               map FieldWrapper.name (DataclassWrapper.fields d))
    (w :: DataclassWrapper.descendants w)
    (DataclassWrapper.set_required value w ::
     DataclassWrapper.descendants (DataclassWrapper.set_required value w)) /\
  (forall value',
     DataclassWrapper.set_required value (DataclassWrapper.set_required value' w) =
     DataclassWrapper.set_required value w).
Proof.
  assert (Hself : forall w,
    DataclassWrapper.required (DataclassWrapper.set_required value w) = value /\
    fields_required value (DataclassWrapper.set_required value w)).
  { intros w'. rewrite set_required_unfold. split; [done|].
    unfold fields_required. simpl. apply Forall_forall.
    intros fw (fw0 & -> & _)%list_elem_of_fmap. done. }
  assert (Hkeep : forall d,
    DataclassWrapper._name (DataclassWrapper.set_required value d) =
      DataclassWrapper._name d /\
    DataclassWrapper._destinations (DataclassWrapper.set_required value d) =
      DataclassWrapper._destinations d /\
    DataclassWrapper._defaults (DataclassWrapper.set_required value d) =
      DataclassWrapper._defaults d /\
    DataclassWrapper.optional (DataclassWrapper.set_required value d) =
      DataclassWrapper.optional d /\
    map FieldWrapper.name
      (DataclassWrapper.fields (DataclassWrapper.set_required value d)) =
      map FieldWrapper.name (DataclassWrapper.fields d)).
  { intros d. rewrite set_required_unfold. simpl. repeat split.
    rewrite map_map. by apply map_ext. }
  split; [apply Hself|]. split; [apply Hself|].
  split; [apply descendants_set_required|]. split; [|split].
  - rewrite descendants_set_required. apply Forall_forall.
    intros d (d0 & -> & _)%list_elem_of_fmap. apply Hself.
  - constructor; [apply Hkeep|]. rewrite descendants_set_required.
    apply Forall2_fmap_r. apply Forall_Forall2_diag. apply Forall_forall.
    intros d _. apply Hkeep.
  - intros value'. apply set_required_twice.
Qed.

Lemma string_app_assoc (a b c : string) : (a +:+ b) +:+ c = a +:+ b +:+ c.
Proof.
  induction a as [|x a IH]; [done|].
  change (String x ((a +:+ b) +:+ c) = String x (a +:+ b +:+ c)). by rewrite IH.
Qed.

Lemma join_snoc sep l a b :
  join sep (l ++ [a; b]) = join sep (l ++ [a]) +:+ sep +:+ b.
Proof.
  induction l as [|x l IH]; [done|].
  change (join sep ((x :: l) ++ [a; b]))
    with (join sep (x :: (l ++ [a; b]))).
  change (join sep ((x :: l) ++ [a])) with (join sep (x :: (l ++ [a]))).
  destruct (l ++ [a; b]) as [|y ys] eqn:E1; [by destruct l|].
  destruct (l ++ [a]) as [|z zs] eqn:E2; [by destruct l|].
  change (join sep (x :: y :: ys)) with (x +:+ sep +:+ join sep (y :: ys)).
  change (join sep (x :: z :: zs)) with (x +:+ sep +:+ join sep (z :: zs)).
  rewrite IH. by rewrite !string_app_assoc.
Qed.

Lemma dest_of_child lineage parent child :
  DataclassWrapper.dest (lineage ++ [DataclassWrapper.name parent]) child =
  DataclassWrapper.dest lineage parent +:+ "." +:+ DataclassWrapper.name child.
Proof.
  unfold DataclassWrapper.dest. rewrite <- app_assoc. apply join_snoc.
Qed.

Lemma chain_view_snoc ancestors parent :
  chain_view (ancestors ++ [parent]) =
  Some (DataclassWrapper.view_of (chain_view ancestors) parent).
Proof. unfold chain_view. by rewrite foldl_app. Qed.

Lemma unresolved_destinations ancestors w :
  Forall unresolved ancestors -> unresolved w ->
  (DataclassWrapper.destinations (chain_view ancestors) w).2 =
    [DataclassWrapper.dest (map DataclassWrapper.name ancestors) w].
Proof.
  revert w. induction ancestors as [|parent ancestors IH] using rev_ind;
    intros w Hanc Hw.
  - unfold DataclassWrapper.destinations. rewrite Hw. done.
  - apply Forall_app in Hanc as [Hanc Hparent].
    apply (proj1 (Forall_singleton _ _)) in Hparent.
    rewrite chain_view_snoc. unfold DataclassWrapper.destinations at 1.
    rewrite Hw. simpl. rewrite (IH parent Hanc Hparent). simpl.
    rewrite map_app. cbn [List.map]. by rewrite dest_of_child.
Qed.

(** The dotted path of a wrapper.  [dest] of a child is the [dest] of its
    parent, a dot, and the child's name; and where no destination has been
    set, in the wrapper and in its ancestors, the [destinations] of the
    wrapper are its [dest] alone, whatever its depth, so that it is not
    [multiple] and its title is the dataclass name with that one quoted
    path. *)
Theorem destinations_follow_dest (ancestors : list DataclassWrapper.t)
    (w : DataclassWrapper.t) :
  (forall child,
     DataclassWrapper.dest (map DataclassWrapper.name (ancestors ++ [w])) child =
       DataclassWrapper.dest (map DataclassWrapper.name ancestors) w
         +:+ "." +:+ DataclassWrapper.name child) /\
  (Forall unresolved ancestors -> unresolved w ->
   let here := DataclassWrapper.dest (map DataclassWrapper.name ancestors) w in
   (DataclassWrapper.destinations (chain_view ancestors) w).2 = [here] /\
   (DataclassWrapper.multiple (chain_view ancestors) w).2 = false /\
   (DataclassWrapper.title (chain_view ancestors) w).2 =
     qualname (DataclassWrapper.dataclass w) +:+ " ['" +:+ here +:+ "']").
Proof.
  split.
  - intros child. rewrite map_app. cbn [List.map]. apply dest_of_child.
  - intros Hanc Hw here.
    pose proof (unresolved_destinations _ w Hanc Hw) as Hd.
    split; [exact Hd|].
    unfold DataclassWrapper.multiple, DataclassWrapper.title.
    destruct (DataclassWrapper.destinations _ w) as [w' ds] eqn:E.
    simpl in Hd. subst ds. split; [done|]. simpl.
    assert (DataclassWrapper.dataclass w' = DataclassWrapper.dataclass w) as ->.
    { unfold DataclassWrapper.destinations in E. rewrite Hw in E.
      injection E as <-. by destruct w. }
    fold here. by rewrite !string_app_assoc.
Qed.

Lemma destinations_follow_dest_witness :
  (DataclassWrapper.destinations (chain_view [shape_wrapper]) origin_wrapper).2 =
    ["shape.origin"] /\
  (DataclassWrapper.title (chain_view [shape_wrapper]) origin_wrapper).2 =
    "Point ['shape.origin']".
Proof.
  destruct (destinations_follow_dest [shape_wrapper] origin_wrapper)
    as [_ Hfresh].
  destruct Hfresh as (Hdests & _ & Htitle); [by repeat constructor|done|].
  split; [exact Hdests|exact Htitle].
Defined.

Lemma with_ancestors_unfold ancestors w :
  with_ancestors ancestors w =
  (ancestors, w) ::
  concat (map (with_ancestors (ancestors ++ [w])) (DataclassWrapper._children w)).
Proof.
  destruct w as [D n fn d p fld fs opt dests req children defaults]. simpl.
  f_equal.
  generalize (ancestors ++
    [DataclassWrapper.mk D n fn d p fld fs opt dests req children defaults]).
  intros a. induction children as [|c cs IH]; simpl; [done|]. by rewrite IH.
Qed.

Lemma with_ancestors_nodes w :
  forall ancestors,
    map snd (with_ancestors ancestors w) = w :: DataclassWrapper.descendants w.
Proof.
  induction w as [D n fn d p fld fs opt dests req children defaults IH]
    using wrapper_ind.
  intros ancestors. rewrite with_ancestors_unfold, descendants_unfold.
  simpl. f_equal.
  generalize (ancestors ++
    [DataclassWrapper.mk D n fn d p fld fs opt dests req children defaults]).
  intros a. induction IH as [|c cs Hc _ IHcs]; simpl; [done|].
  by rewrite map_app, Hc, IHcs.
Qed.

Lemma paths_cached_unfold parent w :
  paths_cached parent w <->
  cached parent (DataclassWrapper._name w) (DataclassWrapper._destinations w) /\
  Forall (paths_cached
            (Some (computed_destinations parent (DataclassWrapper._name w))))
    (DataclassWrapper._children w).
Proof.
  destruct w as [D n fn d p fld fs opt dests req children defaults]. simpl.
  assert (Hall : forall cs : list DataclassWrapper.t,
            (fix all (cs : list DataclassWrapper.t) : Prop :=
               match cs with
               | [] => True
               | c :: cs' =>
                   paths_cached (Some (computed_destinations parent n)) c /\ all cs'
               end) cs <->
            Forall (paths_cached (Some (computed_destinations parent n))) cs).
  { induction cs as [|c cs IH]; [by split; [constructor|]|].
    by rewrite Forall_cons, IH. }
  by rewrite Hall.
Qed.

Lemma set_required_paths value parent w :
  paths_cached parent w ->
  paths_cached parent (DataclassWrapper.set_required value w).
Proof.
  revert parent.
  induction w as [D n fn d p fld fs opt dests req children defaults IH]
    using wrapper_ind.
  intros parent. rewrite set_required_unfold, !paths_cached_unfold. simpl.
  intros [Hc Hchildren]. split; [done|].
  apply Forall_fmap. rewrite Forall_forall in IH, Hchildren.
  apply Forall_forall. intros c Hc'. simpl. by apply IH, Hchildren.
Qed.

Lemma set_optional_paths value parent w :
  paths_cached parent w ->
  paths_cached parent (DataclassWrapper.set_optional value w).
Proof. rewrite !paths_cached_unfold. by destruct w. Qed.

(** With such caches the [destinations] of every wrapper of a tree are its
    dotted path alone. *)
Lemma paths_cached_paths w :
  forall ancestors,
    (forall c,
       computed_destinations
         (DataclassWrapper.pv_destinations <$> chain_view ancestors)
         (DataclassWrapper._name c) =
       [DataclassWrapper.dest (map DataclassWrapper.name ancestors) c]) ->
    paths_cached (DataclassWrapper.pv_destinations <$> chain_view ancestors) w ->
    Forall (fun p =>
              (DataclassWrapper.destinations (chain_view p.1) p.2).2 =
                [DataclassWrapper.dest (map DataclassWrapper.name p.1) p.2] /\
              (DataclassWrapper._destinations p.2 = [] \/
               DataclassWrapper._destinations p.2 =
                 [DataclassWrapper.dest (map DataclassWrapper.name p.1) p.2]))
      (with_ancestors ancestors w).
Proof.
  induction w as [D n fn d p fld fs opt dests req children defaults IH]
    using wrapper_ind.
  intros ancestors Hpath Hw.
  apply paths_cached_unfold in Hw as [Hc Hchildren].
  set (w := DataclassWrapper.mk D n fn d p fld fs opt dests req children defaults)
    in *.
  pose proof (destinations_cached (chain_view ancestors) w Hc) as Hd.
  rewrite Hpath in Hd.
  rewrite with_ancestors_unfold. constructor.
  - split; [exact Hd|]. simpl. destruct Hc as [Hc|Hc]; [by left|right].
    by rewrite <- (Hpath w).
  - apply Forall_forall. intros q Hq.
    apply list_elem_of_In, in_concat in Hq as (l & Hl & Hq).
    apply in_map_iff in Hl as (c & <- & Hin). apply list_elem_of_In in Hin.
    rewrite Forall_forall in IH, Hchildren.
    assert (Hview : DataclassWrapper.pv_destinations <$> chain_view (ancestors ++ [w]) =
                    Some (computed_destinations
                            (DataclassWrapper.pv_destinations <$> chain_view ancestors)
                            (DataclassWrapper._name w))).
    { rewrite chain_view_snoc. simpl. f_equal. rewrite Hd.
      exact (eq_sym (Hpath w)). }
    pose proof (IH c Hin (ancestors ++ [w])) as Hall.
    rewrite Hview in Hall.
    assert (Hall' := Hall
      ltac:(intros c'; rewrite Hpath; simpl; rewrite map_app; cbn [List.map];
            by rewrite dest_of_child)
      (Hchildren c Hin)).
    rewrite Forall_forall in Hall'. apply Hall'. by apply list_elem_of_In.
Qed.

Section InitTree.
Variables is_subparser_field is_choice : DataclassField -> bool.
Variable field_wrapper_message :
  option DataclassWrapper.ParentView -> DataclassWrapper.t -> FieldWrapper.t ->
  result bool.

Local Abbreviation init_type :=
  (DataclassWrapper.init_type is_subparser_field is_choice field_wrapper_message).

Lemma built_children_paths pv fn default fs cs :
  Forall (fun f => builds_paths init_type (f_type f)) fs ->
  Forall2 (built_child init_type pv fn default) fs cs ->
  Forall (paths_cached (Some (DataclassWrapper.pv_destinations pv))) cs.
Proof.
  intros Hall H. induction H as [|f c fs cs Hc _ IH]; [done|].
  inversion Hall as [|? ? Hf Hfs]; subst. constructor; [|by apply IH].
  destruct Hc as (fd & c0 & read & _ & Hc0 & ->).
  pose proof (Hf _ _ _ _ _ _ _ _ Hc0) as Hp. simpl in Hp.
  destruct (is_dataclass (f_type f) && negb (default_is_None f)); [done|].
  by apply set_optional_paths, set_required_paths.
Qed.

Lemma init_type_paths T : builds_paths init_type T.
Proof.
  induction T as [| | | | E | T IH | T IH | T IH | Ts IH | D IH] using type_ind;
    intros name default prefix parent fld fn w read H; try discriminate H.
  - simpl in H. destruct (is_dataclass T); [|discriminate H]. by eapply IH.
  - simpl in H. induction Ts as [|A Ts IHTs]; [discriminate H|].
    inversion IH as [|? ? HA HTs]; subst.
    destruct (is_dataclass A); [by eapply HA|by apply IHTs].
  - apply init_type_shape in H as (ds & fws & cs & l & -> & [Hc _] & _ & Hcs).
    apply paths_cached_unfold. split; [exact Hc|]. simpl.
    apply built_children_paths in Hcs.
    + unfold DataclassWrapper.view_of in Hcs.
      cbn [DataclassWrapper.pv_destinations] in Hcs.
      by rewrite destinations_computed in Hcs.
    + rewrite Forall_forall in IH. apply Forall_forall. intros f Hf. apply IH.
      apply list_elem_of_In. apply list_elem_of_In, filter_In in Hf. tauto.
Qed.
End InitTree.

(** In the tree [__init__] builds for a wrapper without parent, a wrapper
    has no destination cached, or its dotted path [dest] alone (the message
    the constructor logs for a field reads the destinations, which caches
    them); either way the [destinations] of every wrapper in the tree, at
    any depth, are its dotted path alone: the names of its ancestors and its
    own, from the root. *)
Theorem init_destinations_are_paths
    (is_subparser_field is_choice : DataclassField -> bool)
    (field_wrapper_message :
       option DataclassWrapper.ParentView -> DataclassWrapper.t ->
       FieldWrapper.t -> result bool)
    (D : Dataclass) (name : string) (default : value) (prefix : string)
    (fld : option DataclassField) (fn : option (list (string * value)))
    (w : DataclassWrapper.t) :
  DataclassWrapper.init is_subparser_field is_choice field_wrapper_message
    D name default prefix None fld fn = Ok w ->
  map snd (with_ancestors [] w) = w :: DataclassWrapper.descendants w /\
  Forall (fun p =>
            (DataclassWrapper.destinations (chain_view p.1) p.2).2 =
              [DataclassWrapper.dest (map DataclassWrapper.name p.1) p.2] /\
            (DataclassWrapper._destinations p.2 = [] \/
             DataclassWrapper._destinations p.2 =
               [DataclassWrapper.dest (map DataclassWrapper.name p.1) p.2]))
    (with_ancestors [] w).
Proof.
  intros H. rewrite init_unfold in H.
  apply bind_Ok in H as ([w' read] & H & [= <-]).
  apply init_type_paths in H.
  split; [apply with_ancestors_nodes|].
  by apply (paths_cached_paths w' []).
Qed.

Lemma init_destinations_are_paths_witness :
  Forall (fun p =>
            (DataclassWrapper.destinations (chain_view p.1) p.2).2 =
              [DataclassWrapper.dest (map DataclassWrapper.name p.1) p.2] /\
            (DataclassWrapper._destinations p.2 = [] \/
             DataclassWrapper._destinations p.2 =
               [DataclassWrapper.dest (map DataclassWrapper.name p.1) p.2]))
    [([], shape_wrapper); ([shape_wrapper], origin_wrapper)].
Proof.
  exact (proj2 (init_destinations_are_paths no_field no_field silent_message
                  Shape "shape" VNone "" None None shape_wrapper eq_refl)).
Defined.

(** With a message that reads the destinations the caches are filled: the
    wrapper of [Shape] holds its name and the child made for [origin] its
    dotted path. *)
Example shape_wrapper_read_built :
  exists w c,
    DataclassWrapper.init no_field no_field reading_message Shape "shape" VNone ""
      None None None = Ok w /\
    DataclassWrapper._children w = [c] /\
    DataclassWrapper._destinations w = ["shape"] /\
    DataclassWrapper._destinations c = ["shape.origin"].
Proof. do 2 eexists. vm_compute. repeat split; reflexivity. Qed.

(** ** [merge] and the destinations *)

Lemma absorb_snoc mine other d :
  absorb mine (other ++ [d]) =
  (if bool_decide (d ∈ absorb mine other) then absorb mine other
   else absorb mine other ++ [d]).
Proof. unfold absorb. by rewrite foldl_app. Qed.

Lemma absorb_elem mine other d :
  d ∈ absorb mine other <-> d ∈ mine \/ d ∈ other.
Proof.
  revert d. induction other as [|x other IH] using rev_ind; intros d.
  - simpl. set_solver.
  - rewrite absorb_snoc. case_bool_decide as Hx.
    + rewrite IH in Hx |- *. set_solver.
    + rewrite !elem_of_app, IH. set_solver.
Qed.

Lemma absorb_prefix mine other : mine `prefix_of` absorb mine other.
Proof.
  induction other as [|x other IH] using rev_ind; [done|].
  rewrite absorb_snoc. case_bool_decide; [done|].
  by apply prefix_app_r.
Qed.

Lemma absorb_NoDup mine other : NoDup mine -> NoDup (absorb mine other).
Proof.
  intros Hnd. induction other as [|x other IH] using rev_ind; [done|].
  rewrite absorb_snoc. case_bool_decide as Hx; [done|].
  apply NoDup_app. split; [done|]. split; [|apply NoDup_singleton].
  intros d Hd ->%list_elem_of_singleton. done.
Qed.

Lemma absorb_known mine other :
  (forall d, d ∈ other -> d ∈ mine) -> absorb mine other = mine.
Proof.
  intros H. induction other as [|x other IH] using rev_ind; [done|].
  rewrite absorb_snoc, IH.
  - rewrite bool_decide_true; [done|]. apply H. set_solver.
  - intros d Hd. apply H. set_solver.
Qed.

Lemma merge_destinations parent other_parent self other merged :
  DataclassWrapper.merge parent other_parent self other = Ok merged ->
  (DataclassWrapper.destinations parent self).2 <> [] ->
  DataclassWrapper._destinations merged =
    absorb (DataclassWrapper.destinations parent self).2
      (DataclassWrapper.destinations other_parent other).2.
Proof.
  intros H Hds.
  destruct (merge_steps _ _ _ _ _ H Hds)
    as (own & stored & theirs & other_stored & children' & _ & -> & _).
  by destruct stored; destruct self.
Qed.

(** [merge] and the destinations.  The destinations of [self] after the
    merge start with those it had and hold exactly its own and those of
    [other], without repetition if it had none; they are stored, so the
    property returns them whatever the parent says later.  A pair of
    children that had no destinations yet and bear the same name end up
    with the merged destinations of the parent, each followed by a dot and
    that name. *)
Theorem merge_unions_destinations
    (parent other_parent : option DataclassWrapper.ParentView)
    (self other merged : DataclassWrapper.t) :
  DataclassWrapper.merge parent other_parent self other = Ok merged ->
  (DataclassWrapper.destinations parent self).2 <> [] ->
  (DataclassWrapper.destinations parent self).2
    `prefix_of` DataclassWrapper._destinations merged /\
  (forall d, d ∈ DataclassWrapper._destinations merged <->
     d ∈ (DataclassWrapper.destinations parent self).2 \/
     d ∈ (DataclassWrapper.destinations other_parent other).2) /\
  (NoDup (DataclassWrapper.destinations parent self).2 ->
   NoDup (DataclassWrapper._destinations merged)) /\
  (forall parent',
     DataclassWrapper.destinations parent' merged =
       (merged, DataclassWrapper._destinations merged)) /\
  (forall i c o,
     DataclassWrapper._children self !! i = Some c ->
     DataclassWrapper._children other !! i = Some o ->
     unresolved c -> unresolved o ->
     DataclassWrapper.name c = DataclassWrapper.name o ->
     exists c',
       DataclassWrapper._children merged !! i = Some c' /\
       DataclassWrapper._destinations c' =
         map (fun d => d +:+ "." +:+ DataclassWrapper.name c)
           (DataclassWrapper._destinations merged)).
Proof.
  intros H Hds.
  pose proof (merge_destinations _ _ _ _ _ H Hds) as HM.
  rewrite HM.
  split; [apply absorb_prefix|]. split; [apply absorb_elem|].
  split; [apply absorb_NoDup|]. split.
  { intros parent'. rewrite <- HM. apply destinations_stored. rewrite HM.
    by apply absorb_nonempty. }
  intros i c o Hc Ho Huc Huo Hname.
  destruct (merge_steps _ _ _ _ _ H Hds)
    as (own & stored & theirs & other_stored & children' & Hch & -> & _).
  cbv zeta in Hch.
  set (M := absorb (DataclassWrapper.destinations parent self).2
              (DataclassWrapper.destinations other_parent other).2) in *.
  destruct (merge_children_spec _ _ _ _ Hch) as (_ & _ & Hpair).
  destruct (Hpair i c o Hc Ho) as (c' & Hc' & Hi).
  exists c'. rewrite children_with_children. split; [exact Hi|].
  assert (HMne : M <> []) by (by apply absorb_nonempty).
  assert (Hpv : DataclassWrapper.pv_destinations
                  (DataclassWrapper.view_of parent
                     (DataclassWrapper.with_fields
                        (map clear_default (DataclassWrapper.fields self))
                        (if stored
                         then DataclassWrapper.with_defaults (own ++ theirs)
                                (DataclassWrapper.with_destinations M self)
                         else DataclassWrapper.with_destinations M self))) = M).
  { unfold DataclassWrapper.view_of. simpl.
    rewrite destinations_stored; destruct stored; by destruct self. }
  assert (Hpv' : DataclassWrapper.pv_destinations
                   (DataclassWrapper.view_of other_parent
                      (if other_stored
                       then DataclassWrapper.with_defaults theirs
                              (DataclassWrapper.with_destinations
                                 (DataclassWrapper.destinations other_parent other).2
                                 other)
                       else DataclassWrapper.with_destinations
                              (DataclassWrapper.destinations other_parent other).2
                              other)) =
                 (DataclassWrapper.destinations other_parent other).2).
  { unfold DataclassWrapper.view_of. simpl.
    pose proof (destinations_again other_parent other) as Hag.
    destruct other_stored; [|by rewrite Hag].
    rewrite destinations_with_defaults. by rewrite Hag. }
  assert (Hcd : forall pv w, unresolved w ->
            (DataclassWrapper.destinations (Some pv) w).2 =
            map (fun d => d +:+ "." +:+ DataclassWrapper.name w)
              (DataclassWrapper.pv_destinations pv)).
  { intros pv w Hw. unfold DataclassWrapper.destinations. by rewrite Hw. }
  rewrite (merge_destinations _ _ _ _ _ Hc').
  - rewrite !Hcd, Hpv, Hpv' by done. rewrite <- Hname.
    apply absorb_known. intros d (d0 & -> & Hd0)%list_elem_of_fmap.
    apply (list_elem_of_fmap_2 (fun d => d +:+ "." +:+ DataclassWrapper.name c)).
    apply absorb_elem. by right.
  - rewrite Hcd, Hpv by done. by destruct M.
Qed.

Lemma merge_unions_destinations_witness :
  exists merged child,
    DataclassWrapper.merge None None shape_wrapper other_shape_wrapper = Ok merged /\
    DataclassWrapper._children merged !! 0 = Some child /\
    DataclassWrapper._destinations merged = ["shape"; "other"] /\
    DataclassWrapper._destinations child = ["shape.origin"; "other.origin"].
Proof.
  destruct (DataclassWrapper.merge None None shape_wrapper other_shape_wrapper)
    as [merged|e] eqn:Hrun; [|vm_compute in Hrun; discriminate Hrun].
  destruct (merge_unions_destinations None None shape_wrapper other_shape_wrapper
              merged Hrun) as (_ & _ & _ & _ & Hchildren); [discriminate|].
  destruct (Hchildren 0 origin_wrapper other_origin_wrapper)
    as (child & Hchild & Hdests); try reflexivity.
  exists merged, child. split; [reflexivity|]. split; [exact Hchild|].
  assert (Hm : DataclassWrapper._destinations merged = ["shape"; "other"]).
  { vm_compute in Hrun. injection Hrun as <-. reflexivity. }
  split; [exact Hm|]. rewrite Hdests, Hm. reflexivity.
Defined.

Example point_wrapper_r_built :
  DataclassWrapper.init no_field no_field silent_message Point "r" other_point_instance "" None None None =
    Ok point_wrapper_r.
Proof. reflexivity. Qed.

Lemma absorb_disjoint mine other :
  NoDup other -> (forall d, d ∈ other -> d ∉ mine) ->
  absorb mine other = mine ++ other.
Proof.
  induction other as [|x other IH] using rev_ind; intros Hnd Hdisj.
  - by rewrite app_nil_r.
  - apply NoDup_app in Hnd as (Hnd & Hx & _).
    rewrite absorb_snoc, IH; [|done|intros d Hd; apply Hdisj; set_solver].
    rewrite bool_decide_false; [by rewrite app_assoc|].
    rewrite elem_of_app. intros [Hin|Hin].
    + apply (Hdisj x); [set_solver|done].
    + apply (Hx x Hin). left.
Qed.

(** [merge] keeps the defaults aligned with the destinations.  When [self]
    returns its stored default list, one default per destination, and
    [other] brings new, distinct destinations with one default each, the
    merged wrapper holds the destinations of [self] followed by those of
    [other] and the defaults of [self] followed by those of [other]: the
    default at each position is still the default of the destination at
    that position. *)
Theorem merge_keeps_defaults_aligned
    (parent other_parent : option DataclassWrapper.ParentView)
    (self other merged : DataclassWrapper.t) (own theirs : list value)
    (other_stored : bool) :
  DataclassWrapper.merge parent other_parent self other = Ok merged ->
  (DataclassWrapper.destinations parent self).2 <> [] ->
  NoDup (DataclassWrapper.destinations other_parent other).2 ->
  (forall d, d ∈ (DataclassWrapper.destinations other_parent other).2 ->
     d ∉ (DataclassWrapper.destinations parent self).2) ->
  defaults_of parent self = Ok (own, true) ->
  defaults_of other_parent other = Ok (theirs, other_stored) ->
  length own = length (DataclassWrapper.destinations parent self).2 ->
  length theirs = length (DataclassWrapper.destinations other_parent other).2 ->
  DataclassWrapper._destinations merged =
    (DataclassWrapper.destinations parent self).2 ++
    (DataclassWrapper.destinations other_parent other).2 /\
  DataclassWrapper._defaults merged = own ++ theirs /\
  zip (DataclassWrapper._destinations merged) (DataclassWrapper._defaults merged) =
    zip (DataclassWrapper.destinations parent self).2 own ++
    zip (DataclassWrapper.destinations other_parent other).2 theirs.
Proof.
  intros H Hds Hnd Hdisj Hown Htheirs Hlen1 Hlen2.
  destruct (merge_steps _ _ _ _ _ H Hds)
    as (own' & stored & theirs' & other_stored' & children' & _ & -> & Ho & Ht).
  rewrite Hown in Ho. rewrite Htheirs in Ht.
  injection Ho as <- <-. injection Ht as <- <-.
  rewrite absorb_disjoint by done.
  assert (Hd : DataclassWrapper._destinations
                 (DataclassWrapper.with_children children'
                    (DataclassWrapper.with_fields
                       (map clear_default (DataclassWrapper.fields self))
                       (DataclassWrapper.with_defaults (own ++ theirs)
                          (DataclassWrapper.with_destinations
                             ((DataclassWrapper.destinations parent self).2 ++
                              (DataclassWrapper.destinations other_parent other).2)
                             self)))) =
               (DataclassWrapper.destinations parent self).2 ++
               (DataclassWrapper.destinations other_parent other).2)
    by (by destruct self).
  assert (Hf : DataclassWrapper._defaults
                 (DataclassWrapper.with_children children'
                    (DataclassWrapper.with_fields
                       (map clear_default (DataclassWrapper.fields self))
                       (DataclassWrapper.with_defaults (own ++ theirs)
                          (DataclassWrapper.with_destinations
                             ((DataclassWrapper.destinations parent self).2 ++
                              (DataclassWrapper.destinations other_parent other).2)
                             self)))) = own ++ theirs)
    by (by destruct self).
  rewrite Hd, Hf. split; [done|]. split; [done|].
  apply zip_with_app. by rewrite Hlen1.
Qed.

Lemma merge_keeps_defaults_aligned_witness :
  exists merged,
    DataclassWrapper.merge None None point_wrapper_q point_wrapper_r = Ok merged /\
    zip (DataclassWrapper._destinations merged) (DataclassWrapper._defaults merged) =
      [("q", point_instance); ("r", other_point_instance)].
Proof.
  destruct (DataclassWrapper.merge None None point_wrapper_q point_wrapper_r)
    as [merged|e] eqn:Hrun; [|vm_compute in Hrun; discriminate Hrun].
  exists merged. split; [reflexivity|].
  destruct (merge_keeps_defaults_aligned None None point_wrapper_q point_wrapper_r
              merged [point_instance] [other_point_instance] true Hrun)
    as (_ & _ & Hzip); try reflexivity.
  - discriminate.
  - apply NoDup_singleton.
  - intros d ->%list_elem_of_singleton. simpl. set_solver.
  - exact Hzip.
Defined.

(** ** The defaults of a nested wrapper *)

Lemma derive_loop name pds acc :
  for_each (fun acc default =>
              if negb (is_None_or_SUPPRESS default)
              then let* d := getattr default name in Ok (acc ++ [d])
              else Ok (acc ++ [default])) pds acc =
  for_each (append_step (derived_default name)) pds acc.
Proof.
  apply for_each_ext. intros s pd _. unfold append_step, derived_default.
  by destruct (negb (is_None_or_SUPPRESS pd)).
Qed.

(** The defaults of a nested wrapper follow those of its parent, position
    by position.  A wrapper made for a field, with no default list of its
    own yet, derives one entry from each default of its parent (the
    attribute of its name; [None] and [SUPPRESS] pass as they are) and
    stores the list, which later calls return without consulting the
    parent again; the first default of the parent that lacks the attribute
    makes the property raise; when the parent has no defaults the list is
    the field's own default, if it has one; and without a parent the
    assertion of the property fails. *)
Theorem child_defaults_follow_parent (pv : DataclassWrapper.ParentView)
    (w : DataclassWrapper.t) (f : DataclassField) (pds : list value) :
  DataclassWrapper._defaults w = [] ->
  DataclassWrapper._field w = Some f ->
  DataclassWrapper.pv_defaults pv = Ok pds ->
  (forall l,
     pds <> [] ->
     Forall2 (fun pd d => derived_default (DataclassWrapper.name w) pd = Ok d)
       pds l ->
     DataclassWrapper.defaults (Some pv) w =
       Ok (DataclassWrapper.with_defaults l w, l, true) /\
     length l = length pds /\
     forall parent',
       DataclassWrapper.defaults parent' (DataclassWrapper.with_defaults l w) =
         Ok (DataclassWrapper.with_defaults l w, l, true)) /\
  (forall pre pd post e,
     pds = pre ++ pd :: post ->
     Forall (fun d => is_ok (derived_default (DataclassWrapper.name w) d) = true)
       pre ->
     derived_default (DataclassWrapper.name w) pd = Raise e ->
     DataclassWrapper.defaults (Some pv) w = Raise e) /\
  (pds = [] ->
   DataclassWrapper.defaults (Some pv) w =
     match default_value f with
     | Some v => Ok (DataclassWrapper.with_defaults [v] w, [v], true)
     | None => Ok (DataclassWrapper.with_defaults [] w, [], true)
     end) /\
  DataclassWrapper.defaults None w = Raise AssertionError.
Proof.
  intros Hd Hf Hpv. split; [|split; [|split]].
  - intros l Hne Hl.
    assert (Hlen : length l = length pds) by (symmetry; by eapply Forall2_length).
    split; [|split; [done|]].
    + unfold DataclassWrapper.defaults. rewrite Hd, Hf, Hpv. cbn [bind].
      destruct pds as [|pd pds']; [done|].
      rewrite derive_loop.
      by rewrite (append_ok (derived_default (DataclassWrapper.name w)) _ l []).
    + intros parent'. unfold DataclassWrapper.defaults.
      destruct l as [|d l']; [by destruct pds|]. by destruct w.
  - intros pre pd post e -> Hpre He.
    unfold DataclassWrapper.defaults. rewrite Hd, Hf, Hpv. cbn [bind].
    destruct (pre ++ pd :: post) as [|x xs] eqn:E; [by destruct pre|].
    rewrite <- E, derive_loop.
    by rewrite (append_raise (derived_default (DataclassWrapper.name w))
                  pre pd post [] e).
  - intros ->. unfold DataclassWrapper.defaults. rewrite Hd, Hf, Hpv. cbn [bind].
    by destruct (default_value f).
  - unfold DataclassWrapper.defaults. by rewrite Hd, Hf.
Qed.

Lemma child_defaults_follow_parent_witness :
  DataclassWrapper.defaults (Some shape_view) origin_wrapper =
    Ok (DataclassWrapper.with_defaults [point_instance; VNone] origin_wrapper,
        [point_instance; VNone], true).
Proof.
  destruct (child_defaults_follow_parent shape_view origin_wrapper origin_field
              [shape_instance; VNone] eq_refl eq_refl eq_refl) as (Hfollow & _).
  destruct (Hfollow [point_instance; VNone]) as (Hdefaults & _); [done| |done].
  by repeat constructor.
Defined.

(** ** What [__init__] wraps *)

Lemma view_of_spec parent w :
  DataclassWrapper.view_of parent w =
  DataclassWrapper.mkParentView (DataclassWrapper.destinations parent w).2
    (let* r := defaults_of parent w in Ok r.1).
Proof.
  unfold DataclassWrapper.view_of, defaults_of.
  by destruct (DataclassWrapper.defaults parent w).
Qed.

(** What the wrapper shows its children while [__init__] runs is what it
    shows them once built. *)
Lemma view_of_built parent self ds fws cs l stored :
  cached (DataclassWrapper.pv_destinations <$> parent)
    (DataclassWrapper._name self) ds ->
  DataclassWrapper._destinations self = [] ->
  defaults_of parent self = Ok (l, stored) ->
  DataclassWrapper.view_of parent
    (DataclassWrapper.with_defaults l (rebuilt ds fws cs self)) =
  DataclassWrapper.view_of parent self.
Proof.
  intros Hc Hds Hl. rewrite !view_of_spec. f_equal.
  - rewrite destinations_with_defaults, !destinations_computed, Hds.
    replace (DataclassWrapper._destinations (rebuilt ds fws cs self)) with ds
      by (by destruct self).
    replace (DataclassWrapper._name (rebuilt ds fws cs self))
      with (DataclassWrapper._name self) by (by destruct self).
    destruct Hc as [-> | ->]; [done|]. by destruct (computed_destinations _ _).
  - replace (DataclassWrapper.with_defaults l (rebuilt ds fws cs self))
      with (rebuilt ds fws cs (DataclassWrapper.with_defaults l self))
      by (by destruct self).
    rewrite defaults_of_rebuilt, Hl. simpl.
    unfold defaults_of in Hl.
    destruct (DataclassWrapper.defaults parent self) as [[[w' l'] s']|e] eqn:Hdef;
      [|done].
    simpl in Hl. injection Hl as -> ->.
    pose proof (defaults_stores _ _ _ _ _ Hdef) as Hw'.
    destruct (defaults_again _ _ _ _ _ Hdef) as [H'|(Hsame & -> & H')].
    + rewrite Hw' in H'. by rewrite H'.
    + rewrite <- Hw', Hsame. by rewrite H'.
Qed.

(** [defaults] looks at the name, the originating field and the cached
    list only. *)
Lemma defaults_of_frame parent w w' :
  DataclassWrapper._name w = DataclassWrapper._name w' ->
  DataclassWrapper._field w = DataclassWrapper._field w' ->
  DataclassWrapper._defaults w = DataclassWrapper._defaults w' ->
  defaults_of parent w = defaults_of parent w'.
Proof.
  destruct w as [D n fn d p fld fs opt dests req children dflts].
  destruct w' as [D' n' fn' d' p' fld' fs' opt' dests' req' children' dflts'].
  simpl. intros -> -> ->.
  unfold defaults_of, DataclassWrapper.defaults. simpl.
  destruct dflts' as [|x xs]; [|done].
  destruct fld' as [f|]; [|done]. destruct parent as [pv|]; [|done].
  destruct (DataclassWrapper.pv_defaults pv) as [[|pd pds]|]; cbn [bind]; [| |done].
  - by destruct (default_value f).
  - by destruct (for_each _ (pd :: pds) []).
Qed.

Lemma caches_of_optional parent w :
  caches_of parent w ->
  caches_of parent
    (DataclassWrapper.set_optional true (DataclassWrapper.set_required false w)).
Proof.
  unfold caches_of. intros [Hc [stored Hl]]. split; [by destruct w|].
  exists stored.
  replace (DataclassWrapper._defaults
             (DataclassWrapper.set_optional true
                (DataclassWrapper.set_required false w)))
    with (DataclassWrapper._defaults w) by (by destruct w).
  rewrite <- Hl. apply defaults_of_frame; by destruct w.
Qed.

Section InitPartition.
Variables is_subparser_field is_choice : DataclassField -> bool.
Variable field_wrapper_message :
  option DataclassWrapper.ParentView -> DataclassWrapper.t -> FieldWrapper.t ->
  result bool.

Local Abbreviation init_type :=
  (DataclassWrapper.init_type is_subparser_field is_choice field_wrapper_message).
Local Abbreviation as_child := (wrapped_as_child is_subparser_field is_choice).

Lemma init_type_attributes T name default prefix parent fld fn w read :
  init_type T name default prefix parent fld fn = Ok (w, read) ->
  DataclassWrapper._name w = name /\
  DataclassWrapper._field w = fld /\
  DataclassWrapper._default w = default /\
  DataclassWrapper.prefix w = prefix /\
  DataclassWrapper.optional w = false /\
  DataclassWrapper._required w = false /\
  caches_of parent w /\
  get_dataclass_type_arg T = Some (TDataclass (DataclassWrapper.dataclass w)).
Proof.
  assert (HD : forall D w,
    init_type (TDataclass D) name default prefix parent fld fn = Ok (w, read) ->
    DataclassWrapper._name w = name /\
    DataclassWrapper._field w = fld /\
    DataclassWrapper._default w = default /\
    DataclassWrapper.prefix w = prefix /\
    DataclassWrapper.optional w = false /\
    DataclassWrapper._required w = false /\
    caches_of parent w /\
    DataclassWrapper.dataclass w = D).
  { intros D w' H.
    apply init_type_shape in H as (ds & fws & cs & l & -> & Hc & _).
    repeat split; try done; apply Hc. }
  destruct T as [| | | | E | A | A | A | Ts | D]; try discriminate.
  - simpl. destruct A; try discriminate. simpl. intros H.
    destruct (HD _ _ H) as (?&?&?&?&?&?&Hc&<-).
    repeat split; try done; apply Hc.
  - simpl. induction Ts as [|A Ts IH]; [discriminate|].
    cbn [find]. destruct (is_dataclass A) eqn:HA; [|exact IH].
    destruct A; try discriminate. intros H.
    destruct (HD _ _ H) as (?&?&?&?&?&?&Hc&<-).
    repeat split; try done; apply Hc.
  - intros H. destruct (HD _ _ H) as (?&?&?&?&?&?&Hc&<-).
    repeat split; try done; apply Hc.
Qed.

Lemma built_child_of_field pv fn default f c :
  built_child init_type pv fn default f c -> child_of_field pv fn default f c.
Proof.
  intros (fd & c0 & read & Hfd & Hc0 & ->).
  destruct (init_type_attributes _ _ _ _ _ _ _ _ _ Hc0)
    as (Hn & Hf & Hdf & _ & Ho & Hr & Hcaches & Ht).
  unfold child_of_field.
  destruct (is_dataclass (f_type f) && negb (default_is_None f)); simpl.
  - split; [done|]. split; [done|]. split; [by exists fd|].
    split; [done|]. split; [done|]. split; [done|]. done.
  - split; [by destruct c0|]. split; [by destruct c0|].
    split; [exists fd; split; [done|]; by destruct c0|].
    split; [by destruct c0|]. split; [by destruct c0|]. split; [by destruct c0|].
    by apply caches_of_optional.
Qed.

Lemma init_names D name default prefix parent fld fn w :
  DataclassWrapper.init is_subparser_field is_choice field_wrapper_message
    D name default prefix parent fld fn = Ok w ->
  Forall2 (wrapper_of_field fn default prefix)
    (List.filter (fun f => included f && negb (as_child f)) (dc_fields D))
    (DataclassWrapper.fields w) /\
  Forall2 (child_of_field (DataclassWrapper.view_of parent w) fn default)
    (List.filter (fun f => included f && as_child f) (dc_fields D))
    (DataclassWrapper._children w) /\
  wrapper_names w ≡ₚ map f_name (List.filter included (dc_fields D)) /\
  DataclassWrapper.dataclass w = D /\
  DataclassWrapper._name w = name /\
  DataclassWrapper._field w = fld /\
  DataclassWrapper._default w = default /\
  caches_of parent w.
Proof.
  intros H. rewrite init_unfold in H.
  apply bind_Ok in H as ([w' read] & H & [= <-]).
  apply init_type_shape in H as (ds & fws & cs & l & -> & Hcaches & Hfws & Hcs).
  set (self := DataclassWrapper.mk D name fn default prefix fld [] false [] false []
                 (initial_defaults default)) in *.
  assert (Hview : DataclassWrapper.view_of parent
                    (DataclassWrapper.mk D name fn default prefix fld fws false ds
                       false cs l) =
                  DataclassWrapper.view_of parent self).
  { destruct Hcaches as [Hc [stored Hl]].
    apply (view_of_built parent self ds fws cs l stored); [done|done|].
    by rewrite <- (defaults_of_rebuilt parent ds fws cs self). }
  rewrite Hview. simpl.
  assert (Hchildren : Forall2 (child_of_field (DataclassWrapper.view_of parent self)
                                 fn default)
            (List.filter (fun f => included f && as_child f) (dc_fields D)) cs).
  { eapply Forall2_impl; [exact Hcs|]. intros f c. apply built_child_of_field. }
  split; [done|]. split; [done|]. split; [|done].
  unfold wrapper_names. simpl.
  rewrite <- (filter_split_names included as_child).
  rewrite (wrapper_field_names _ _ _ _ _ Hfws).
  assert (map DataclassWrapper._name cs =
          map f_name (List.filter (fun f => included f && as_child f) (dc_fields D)))
    as ->; [|done].
  clear -Hchildren. induction Hchildren as [|f c fs cs Hc _ IH]; simpl; [done|].
  destruct Hc as (_ & -> & _). by rewrite IH.
Qed.
End InitPartition.

Lemma excluded_not_wrapped D f (names : list string) :
  NoDup (map f_name (dc_fields D)) ->
  names ≡ₚ map f_name (List.filter included (dc_fields D)) ->
  f ∈ dc_fields D -> included f = false -> f_name f ∉ names.
Proof.
  intros Hnd Hnames Hf Hinc Hin. rewrite Hnames in Hin.
  apply list_elem_of_fmap in Hin as (g & Hname & Hg).
  apply list_elem_of_In, filter_In in Hg as [Hg Hginc].
  apply list_elem_of_In in Hg.
  assert (g = f) as ->; [|congruence].
  by eapply field_of_name.
Qed.

(** [__init__] wraps each field exposed on the command line exactly once,
    in declaration order: as a child wrapper when it is not a subparser or
    choice field and its type is, or holds, a dataclass, as a field wrapper
    otherwise; a field kept off the command line gets neither.  The field
    wrapper has the default resolved from the wrapper's [default]; the
    child is made for the field and named after it, wraps the dataclass of
    its type, takes as its default the one resolved for the field, is
    [optional] unless the field is a plain dataclass field, and is not
    required.  Of the two caches, in the wrapper and in each child, the
    destinations hold nothing or the list the property computes, and the
    default list is the one the [defaults] property returns for the list
    [__init__] starts with (the [default], if it is truthy): the last
    statement of [__init__] reads the property, which stores it. *)
Theorem init_wraps_each_field_once
    (is_subparser_field is_choice : DataclassField -> bool)
    (field_wrapper_message :
       option DataclassWrapper.ParentView -> DataclassWrapper.t ->
       FieldWrapper.t -> result bool)
    (D : Dataclass) (name : string) (default : value) (prefix : string)
    (parent : option DataclassWrapper.ParentView)
    (fld : option DataclassField) (fn : option (list (string * value)))
    (w : DataclassWrapper.t) :
  DataclassWrapper.init is_subparser_field is_choice field_wrapper_message
    D name default prefix parent fld fn = Ok w ->
  Forall2 (wrapper_of_field fn default prefix)
    (List.filter (fun f => included f &&
                           negb (wrapped_as_child is_subparser_field is_choice f))
       (dc_fields D))
    (DataclassWrapper.fields w) /\
  Forall2 (child_of_field (DataclassWrapper.view_of parent w) fn default)
    (List.filter (fun f => included f &&
                           wrapped_as_child is_subparser_field is_choice f)
       (dc_fields D))
    (DataclassWrapper._children w) /\
  wrapper_names w ≡ₚ map f_name (List.filter included (dc_fields D)) /\
  (forall f, f ∈ dc_fields D -> included f = false ->
     NoDup (map f_name (dc_fields D)) -> f_name f ∉ wrapper_names w) /\
  DataclassWrapper.dataclass w = D /\
  DataclassWrapper._name w = name /\
  DataclassWrapper._field w = fld /\
  DataclassWrapper._default w = default /\
  caches_of parent w.
Proof.
  intros H.
  destruct (init_names _ _ _ _ _ _ _ _ _ _ _ H) as (H1 & H2 & H3 & H4).
  split; [done|]. split; [done|]. split; [done|]. split; [|done].
  intros f Hf Hinc Hnd. by eapply excluded_not_wrapped.
Qed.

Lemma init_wraps_each_field_once_witness :
  map FieldWrapper.name (DataclassWrapper.fields shape_wrapper) = ["seed"] /\
  map DataclassWrapper._name (DataclassWrapper._children shape_wrapper) =
    ["origin"] /\
  wrapper_names shape_wrapper ≡ₚ ["seed"; "origin"].
Proof.
  destruct (init_wraps_each_field_once no_field no_field silent_message
              Shape "shape" VNone "" None None None shape_wrapper eq_refl)
    as (_ & _ & Hnames & _).
  split; [reflexivity|]. split; [reflexivity|]. exact Hnames.
Defined.

(** The default list after [__init__]: the wrapper made for the field
    [origin] under a wrapper of [Shape] whose default is an instance holds
    the attribute of that instance; and a wrapper made for a field without
    a parent fails the assertion of the [defaults] property. *)
Example init_stores_defaults :
  (exists w c,
     DataclassWrapper.init no_field no_field silent_message Shape "shape"
       shape_instance "" None None None = Ok w /\
     DataclassWrapper._children w = [c] /\
     DataclassWrapper._defaults w = [shape_instance] /\
     DataclassWrapper._defaults c = [point_instance]) /\
  DataclassWrapper.init no_field no_field silent_message Point "origin" VNone ""
    None (Some origin_field) None = Raise AssertionError.
Proof. split; [do 2 eexists; vm_compute; repeat split; reflexivity|reflexivity]. Qed.

(** [set_default] and the fields kept off the command line.  A wrapper
    built by [__init__] has no wrapper for a field declared with
    [init=False] or [cmd=False], so a default that mentions such a field,
    as the mapping of any instance of the dataclass does, makes
    [set_default] raise: the [RuntimeError] that lists the field among the
    unknown names, unless the [set_default] of a child raised first. *)
Theorem set_default_rejects_excluded_fields
    (is_subparser_field is_choice : DataclassField -> bool)
    (field_wrapper_message :
       option DataclassWrapper.ParentView -> DataclassWrapper.t ->
       FieldWrapper.t -> result bool)
    (D : Dataclass) (name : string) (default : value) (prefix : string)
    (parent : option DataclassWrapper.ParentView)
    (fld : option DataclassField) (fn : option (list (string * value)))
    (w : DataclassWrapper.t) (f : DataclassField) (lineage : list string)
    (v : value) (entries : list (string * value)) :
  NoDup (map f_name (dc_fields D)) ->
  DataclassWrapper.init is_subparser_field is_choice field_wrapper_message
    D name default prefix parent fld fn = Ok w ->
  f ∈ dc_fields D ->
  included f = false ->
  f_name f <> "_type_" ->
  DataclassWrapper.field_default_values_of v = Ok (VDict entries) ->
  f_name f ∈ dict_keys entries ->
  is_Some (DataclassWrapper.set_default lineage w v).2 /\
  (children_accept
     (DataclassWrapper.set_default (lineage ++ [DataclassWrapper._name w]))
     entries (DataclassWrapper._children w) ->
   exists unknown,
     (DataclassWrapper.set_default lineage w v).2 =
       Some (RuntimeError unknown (qualname D) (DataclassWrapper.dest lineage w)) /\
     f_name f ∈ unknown).
Proof.
  intros Hnd Hw Hf Hinc Htype Hv Hkey.
  destruct (init_names _ _ _ _ _ _ _ _ _ _ _ Hw) as (H1 & H2 & H3 & HD & _).
  assert (Hnames : NoDup (wrapper_names w)).
  { rewrite H3. by apply filter_names_NoDup. }
  assert (Hfresh : f_name f ∉ wrapper_names w)
    by (by eapply excluded_not_wrapped).
  assert (Hunknown : f_name f ∈ unknown_keys entries w).
  { unfold unknown_keys. set_solver. }
  rewrite (set_default_mapping lineage w v entries Hv Hnames).
  destruct (children_loop_conditions entries w Hnames) as [Hcnd Hcin].
  destruct (DataclassWrapper.set_child_defaults _ entries _ _)
    as [[children' unknown_names] e] eqn:Hloop.
  assert (Haccept :
    children_accept
      (DataclassWrapper.set_default (lineage ++ [DataclassWrapper._name w]))
      entries (DataclassWrapper._children w) ->
    e = None /\
    unknown_names ∖ {["_type_"]} = unknown_keys entries w).
  { intros Hacc.
    rewrite set_child_defaults_ok in Hloop; [|done|set_solver|done|done].
    injection Hloop as <- <- <-. split; [done|].
    by rewrite <- unknown_keys_split. }
  split.
  - destruct e as [e|]; [by eexists|].
    destruct Haccept as [_ Heq].
    { eapply set_child_defaults_None. by rewrite Hloop. }
    rewrite Heq. rewrite bool_decide_false by set_solver. by eexists.
  - intros Hacc. destruct (Haccept Hacc) as [-> Heq]. rewrite Heq.
    rewrite bool_decide_false by set_solver. rewrite HD.
    eexists. split; [done|].
    apply elem_of_sorted, elem_of_elements. exact Hunknown.
Qed.

Lemma set_default_rejects_excluded_fields_witness :
  DataclassWrapper.init no_field no_field silent_message Batch "batch" VNone "" None None None =
    Ok batch_wrapper /\
  is_Some (DataclassWrapper.set_default [] batch_wrapper batch_instance).2 /\
  (DataclassWrapper.set_default [] batch_wrapper batch_instance).2 =
    Some (RuntimeError ["points"] "Batch" "batch").
Proof.
  split; [reflexivity|].
  destruct (set_default_rejects_excluded_fields no_field no_field silent_message
              Batch "batch" VNone "" None None None batch_wrapper points_field []
              batch_instance
              [("seed", VInt 13); ("points", VList [])]) as [Hraises _].
  - apply (bool_decide_unpack _). vm_compute. exact I.
  - reflexivity.
  - right. left.
  - reflexivity.
  - discriminate.
  - reflexivity.
  - right. left.
  - split; [exact Hraises|reflexivity].
Defined.

(** ** [_get_dataclass_fields] *)

Lemma filter_sublist {A} (p q : A -> bool) (l : list A) :
  (forall x, p x = true -> q x = true) ->
  List.filter p l `sublist_of` List.filter q l.
Proof.
  intros H. induction l as [|x l IH]; simpl; [done|].
  destruct (p x) eqn:Hp.
  - rewrite (H x Hp). by constructor.
  - destruct (q x); [by constructor|done].
Qed.

(** [_get_dataclass_fields] against [dataclasses.fields].  Both refuse an
    object that is not a dataclass with the same [TypeError]; on a
    dataclass the function returns the fields of [dataclasses.fields], in
    the same order, with the init-only pseudo-fields in between, and never
    a class variable: from Python 3.8 on every init-only pseudo-field is
    returned, so that the result is longer by their number; the two agree
    before Python 3.8 and on a dataclass without init-only variables. *)
Theorem get_dataclass_fields_extends_fields (version_info : nat * nat)
    (dataclass : option fields_map) :
  (dataclass = None ->
   _get_dataclass_fields version_info dataclass =
     Raise (TypeError "must be called with a dataclass type or instance") /\
   dataclasses_fields dataclass = _get_dataclass_fields version_info dataclass) /\
  (forall entries, dataclass = Some entries ->
   exists fields all,
     dataclasses_fields dataclass = Ok fields /\
     _get_dataclass_fields version_info dataclass = Ok all /\
     fields `sublist_of` all /\
     (forall f, f ∈ all ->
        (f, _FIELD) ∈ map snd entries \/ (f, _FIELD_INITVAR) ∈ map snd entries) /\
     (before_3_8 version_info = false ->
      (forall f, (f, _FIELD) ∈ map snd entries \/
                 (f, _FIELD_INITVAR) ∈ map snd entries -> f ∈ all) /\
      length all =
        length fields +
        length (List.filter (fun entry => match entry.2.2 with
                                 | _FIELD_INITVAR => true
                                 | _ => false
                                 end)
                  entries)) /\
     (before_3_8 version_info = true -> all = fields) /\
     (Forall (fun entry => entry.2.2 <> _FIELD_INITVAR) entries -> all = fields)).
Proof.
  split.
  - intros ->. unfold _get_dataclass_fields. by destruct (before_3_8 _).
  - intros entries ->. unfold _get_dataclass_fields, dataclasses_fields.
    destruct (before_3_8 version_info) eqn:Hv.
    + eexists _, _. split; [done|]. split; [done|]. split; [done|].
      split; [|by split].
      intros f ([f' k] & -> & Hf)%list_elem_of_fmap.
      apply list_elem_of_In, filter_In in Hf as [Hf Hk].
      apply list_elem_of_In in Hf. unfold is_FIELD in Hk. simpl in *.
      destruct k; try done. by left.
    + eexists _, _. split; [done|]. split; [done|].
      split; [|split; [|split; [|split]]].
      * apply (fmap_sublist fst), filter_sublist. intros [f k]. unfold is_FIELD,
          is_FIELD_or_INITVAR. simpl. by destruct k.
      * intros f ([f' k] & -> & Hf)%list_elem_of_fmap.
        apply list_elem_of_In, filter_In in Hf as [Hf Hk].
        apply list_elem_of_In in Hf. unfold is_FIELD_or_INITVAR in Hk. simpl in *.
        destruct k; try done; [by left|by right].
      * intros _. split.
        -- intros f Hf.
           assert (Hin : exists k, (f, k) ∈ map snd entries /\
                                   is_FIELD_or_INITVAR (f, k) = true).
           { destruct Hf as [Hf|Hf]; eexists; (split; [exact Hf|done]). }
           destruct Hin as (k & Hin & Hk).
           apply (list_elem_of_fmap_2 fst _ (f, k)).
           apply list_elem_of_In, filter_In. split; [by apply list_elem_of_In|done].
        -- rewrite !length_map. clear.
           induction entries as [|[n [f k]] entries IH]; [done|].
           simpl. unfold is_FIELD_or_INITVAR, is_FIELD in *. simpl.
           destruct k; simpl; rewrite ?IH; try done; lia.
      * done.
      * intros Hno. f_equal. apply filter_ext_in.
        intros entry ([n [f k]] & <- & Hin)%in_map_iff.
        apply list_elem_of_In in Hin. rewrite Forall_forall in Hno.
        specialize (Hno _ Hin). simpl in Hno.
        unfold is_FIELD_or_INITVAR, is_FIELD. simpl. by destruct k.
Qed.

Lemma get_dataclass_fields_extends_fields_witness :
  _get_dataclass_fields (3, 11) (Some counter_fields) =
    Ok [seed_field; rate_field; flag_field] /\
  dataclasses_fields (Some counter_fields) = Ok [seed_field; flag_field] /\
  _get_dataclass_fields (3, 7) (Some counter_fields) =
    dataclasses_fields (Some counter_fields).
Proof.
  destruct (get_dataclass_fields_extends_fields (3, 7) (Some counter_fields))
    as [_ Hsome].
  destruct (Hsome counter_fields eq_refl)
    as (fields & all & Hfields & Hall & _ & _ & _ & Hold & _).
  split; [reflexivity|]. split; [reflexivity|].
  rewrite Hfields, Hall. f_equal. by apply Hold.
Defined.
